(** * Extraction-and-synthesis pipeline of ProcessingHelper

    A shallow embedding of [ProcessingHelper] (electron/ProcessingHelper.ts):
    the response parsers, the MCQ normalisation helpers and the orchestration
    of the primary and debug pipelines, together with the properties the
    specification states about them.

    Conventions of the embedding.
    - Texts are [string]s over 8-bit characters.  The JavaScript built-ins the
      code relies on ([String.prototype.trim], [RegExp.prototype.exec],
      [JSON.parse], ...) are modelled on that alphabet: [\s] and [trim] see the
      ASCII white space (code points 9-13 and 32) and case folding acts on the
      ASCII letters.
    - A JavaScript value is a [value]; objects keep their properties in
      enumeration order.
    - A computation that may throw returns a [completion].
    - Asynchronous methods are resumptions ([async]): atomic segments of
      synchronous code separated by suspension points. *)

From Stdlib Require Import String Ascii List Bool Arith ZArith Lia.
From ExtLib Require Import Structures.Monad.
Import ListNotations.
Import MonadNotation.
Local Open Scope monad_scope.
Local Open Scope list_scope.
Local Open Scope string_scope.
Local Open Scope nat_scope.

(* ===================================================================== *)
(** ** JavaScript strings *)
(* ===================================================================== *)

Module JsString.

Definition LF : string := String "010"%char "".
Definition TAB : string := String "009"%char "".
Definition DQ : string := String "034"%char "".

(** WhiteSpace and LineTerminator code points below 128: the characters
    that [\s] matches and that [trim] strips. *)
Definition is_space (c : ascii) : bool :=
  let n := nat_of_ascii c in
  ((9 <=? n) && (n <=? 13)) || (n =? 32).

Definition is_upper (c : ascii) : bool :=
  let n := nat_of_ascii c in (65 <=? n) && (n <=? 90).

Definition is_lower (c : ascii) : bool :=
  let n := nat_of_ascii c in (97 <=? n) && (n <=? 122).

Definition is_digit (c : ascii) : bool :=
  let n := nat_of_ascii c in (48 <=? n) && (n <=? 57).

Definition upper (c : ascii) : ascii :=
  if is_lower c then ascii_of_nat (nat_of_ascii c - 32) else c.

Definition lower (c : ascii) : ascii :=
  if is_upper c then ascii_of_nat (nat_of_ascii c + 32) else c.

Fixpoint map_chars (f : ascii -> ascii) (s : string) : string :=
  match s with
  | "" => ""
  | String c s' => String (f c) (map_chars f s')
  end.

Definition toUpperCase : string -> string := map_chars upper.
Definition toLowerCase : string -> string := map_chars lower.

Fixpoint take (n : nat) (s : string) : string :=
  match n, s with
  | S n', String c s' => String c (take n' s')
  | _, _ => ""
  end.

Fixpoint drop (n : nat) (s : string) : string :=
  match n, s with
  | S n', String _ s' => drop n' s'
  | _, _ => s
  end.

Fixpoint rev_onto (s acc : string) : string :=
  match s with
  | "" => acc
  | String c s' => rev_onto s' (String c acc)
  end.

Definition rev (s : string) : string := rev_onto s "".

Fixpoint trimStart (s : string) : string :=
  match s with
  | String c s' => if is_space c then trimStart s' else s
  | "" => ""
  end.

Definition trimEnd (s : string) : string := rev (trimStart (rev s)).

Definition trim (s : string) : string := trimEnd (trimStart s).

Fixpoint startsWith (p s : string) : bool :=
  match p, s with
  | "", _ => true
  | String a p', String b s' => Ascii.eqb a b && startsWith p' s'
  | String _ _, "" => false
  end.

(** [indexOf p s]: position of the first occurrence of [p] in [s]. *)
Fixpoint indexOf (p s : string) : option nat :=
  if startsWith p s then Some 0
  else match s with
       | "" => None
       | String _ s' => option_map S (indexOf p s')
       end.

Definition includes (p s : string) : bool :=
  match indexOf p s with Some _ => true | None => false end.

(** [s.replace(p, r)] with a string pattern: the first occurrence only. *)
Definition replace (p r s : string) : string :=
  match indexOf p s with
  | Some i => take i s ++ r ++ drop (i + String.length p) s
  | None => s
  end.

(** [s.split(sep)] with a one-character separator. *)
Fixpoint split_char (sep : ascii) (cur : string) (s : string) : list string :=
  match s with
  | "" => [rev cur]
  | String c s' =>
      if Ascii.eqb c sep then rev cur :: split_char sep "" s'
      else split_char sep (String c cur) s'
  end.

Definition split (sep : ascii) (s : string) : list string := split_char sep "" s.

Definition digit_char (d : nat) : ascii := ascii_of_nat (48 + d).

Fixpoint nat_digits (fuel n : nat) (acc : string) : string :=
  match fuel with
  | 0 => acc
  | S fuel' =>
      let acc' := String (digit_char (n mod 10)) acc in
      if n / 10 =? 0 then acc' else nat_digits fuel' (n / 10) acc'
  end.

(** [n.toString()] for a non-negative integer. *)
Definition nat_toString (n : nat) : string := nat_digits (S n) n "".

Fixpoint join (sep : string) (l : list string) : string :=
  match l with
  | [] => ""
  | [x] => x
  | x :: l' => x ++ sep ++ join sep l'
  end.

End JsString.

(* ===================================================================== *)
(** ** Regular expressions

    A backtracking matcher in the style of the ECMAScript specification
    (continuation passing, leftmost alternative first, greedy and lazy
    quantifiers, capture groups reset at every iteration, lookahead). *)
(* ===================================================================== *)

Module Regex.
Import JsString.

Inductive regex : Type :=
| Eps : regex
| Chr (p : ascii -> bool) : regex
| Seq (r1 r2 : regex) : regex
| Alt (r1 r2 : regex) : regex
| Star (greedy : bool) (r : regex) : regex
| Opt (greedy : bool) (r : regex) : regex
| Grp (n : nat) (r : regex) : regex
| Ahead (positive : bool) (r : regex) : regex
| Bol : regex
| Eol : regex.

Definition captures := list (nat * string).

Fixpoint cap (n : nat) (c : captures) : option string :=
  match c with
  | [] => None
  | (k, v) :: c' => if k =? n then Some v else cap n c'
  end.

Definition uncap (ns : list nat) (c : captures) : captures :=
  filter (fun kv => negb (existsb (Nat.eqb (fst kv)) ns)) c.

Definition setcap (n : nat) (v : string) (c : captures) : captures :=
  (n, v) :: uncap [n] c.

Fixpoint groups (r : regex) : list nat :=
  match r with
  | Seq r1 r2 | Alt r1 r2 => (groups r1 ++ groups r2)%list
  | Star _ r1 | Opt _ r1 | Ahead _ r1 => groups r1
  | Grp n r1 => n :: groups r1
  | _ => []
  end.

(** A matcher state is the index reached and the text that remains. *)
Definition cont := nat -> string -> captures -> option (nat * captures).

Definition accept : cont := fun i _ c => Some (i, c).

(** The iterations of a quantified sub-expression [body] followed by [k]:
    greedy tries one more iteration first, lazy tries [k] first.  An
    iteration may not match the empty text, so [S (length s)] rounds always
    suffice. *)
Fixpoint star_loop (body : cont -> cont) (reset : captures -> captures)
    (g : bool) (k : cont) (n : nat) : cont :=
  fun i s c =>
    match n with
    | 0 => None
    | S n' =>
        let again := fun _ : unit =>
          body (fun i' s' c' => if i' =? i then None
                                else star_loop body reset g k n' i' s' c')
            i s (reset c) in
        if g then
          match again tt with Some x => Some x | None => k i s c end
        else
          match k i s c with Some x => Some x | None => again tt end
    end.

(** [m r k]: match [r] at the current state, then continue with [k]. *)
Fixpoint m (r : regex) (k : cont) {struct r} : cont :=
  match r with
  | Eps => k
  | Chr p => fun i s c =>
      match s with
      | String a s' => if p a then k (S i) s' c else None
      | "" => None
      end
  | Seq r1 r2 => m r1 (m r2 k)
  | Alt r1 r2 => fun i s c =>
      match m r1 k i s c with
      | Some x => Some x
      | None => m r2 k i s c
      end
  | Star g r1 => fun i s c =>
      star_loop (m r1) (uncap (groups r1)) g k (S (String.length s)) i s c
  | Opt g r1 => fun i s c =>
      let once := fun _ : unit =>
        m r1 (fun i' s' c' => if i' =? i then None else k i' s' c')
          i s (uncap (groups r1) c) in
      if g then
        match once tt with Some x => Some x | None => k i s c end
      else
        match k i s c with Some x => Some x | None => once tt end
  | Grp n r1 => fun i s c =>
      m r1 (fun i' s' c' => k i' s' (setcap n (take (i' - i) s) c')) i s c
  | Ahead true r1 => fun i s c =>
      match m r1 accept i s c with
      | Some (_, c') => k i s c'
      | None => None
      end
  | Ahead false r1 => fun i s c =>
      match m r1 accept i s c with
      | Some _ => None
      | None => k i s c
      end
  | Bol => fun i s c => if i =? 0 then k i s c else None
  | Eol => fun i s c => match s with "" => k i s c | _ => None end
  end.

(** The result of a successful match: where it starts, the matched text and
    the captures. *)
Record match_result : Type := MatchResult {
  index : nat;
  matched : string;
  caps : captures
}.

Definition lastIndex (r : match_result) : nat :=
  index r + String.length (matched r).

(** Group [n] of a match, [None] for [undefined]. *)
Definition group (n : nat) (r : match_result) : option string := cap n (caps r).

(** [search r i s]: the leftmost match of [r] in [s], a suffix that starts
    at index [i] of the subject. *)
Fixpoint search (r : regex) (i : nat) (s : string) : option match_result :=
  match m r accept i s [] with
  | Some (e, c) => Some (MatchResult i (take (e - i) s) c)
  | None =>
      match s with
      | "" => None
      | String _ s' => search r (S i) s'
      end
  end.

(** [r.exec(s)] for a regular expression without the [g] flag, which is also
    [s.match(r)]. *)
Definition exec (r : regex) (s : string) : option match_result := search r 0 s.

(** [r.exec(s)] for a [g] regular expression whose [lastIndex] is [i]. *)
Definition exec_from (r : regex) (i : nat) (s : string) : option match_result :=
  if i <=? String.length s then search r i (drop i s) else None.

Definition test (r : regex) (s : string) : bool :=
  match exec r s with Some _ => true | None => false end.

(** All matches of a [g] regular expression, as the loop
    [while ((match = r.exec(s)) !== null)] and [s.match(r)] visit them; an
    empty match moves on by one character. *)
Fixpoint exec_all (fuel : nat) (r : regex) (i : nat) (s : string)
  : list match_result :=
  match fuel with
  | 0 => []
  | S fuel' =>
      match exec_from r i s with
      | None => []
      | Some mr =>
          let j := if lastIndex mr =? index mr then S (lastIndex mr) else lastIndex mr in
          mr :: exec_all fuel' r j s
      end
  end.

Definition matchAll (r : regex) (s : string) : list match_result :=
  exec_all (S (String.length s)) r 0 s.

(** [s.replace(r, '')] for a regular expression without the [g] flag. *)
Definition remove_first (r : regex) (s : string) : string :=
  match exec r s with
  | Some mr => take (index mr) s ++ drop (lastIndex mr) s
  | None => s
  end.

(** [s.split(r)] for a regular expression without capture groups. *)
Fixpoint split_loop (fuel : nat) (r : regex) (p q : nat) (s : string)
  : list string :=
  match fuel with
  | 0 => [drop p s]
  | S fuel' =>
      if String.length s <=? q then [drop p s]
      else
        match m r accept q (drop q s) [] with
        | Some (e, _) =>
            if e =? p then split_loop fuel' r p (S q) s
            else take (q - p) (drop p s) :: split_loop fuel' r e e s
        | None => split_loop fuel' r p (S q) s
        end
  end.

Definition split (r : regex) (s : string) : list string :=
  match s with
  | "" => match m r accept 0 "" [] with Some _ => [] | None => [""] end
  | _ => split_loop (2 * String.length s + 2) r 0 0 s
  end.

(** *** Pattern syntax *)

Definition ch (a : ascii) : regex := Chr (Ascii.eqb a).
Definition chi (a : ascii) : regex :=
  Chr (fun b => Ascii.eqb (upper a) (upper b)).

Fixpoint lit (s : string) : regex :=
  match s with
  | "" => Eps
  | String a "" => ch a
  | String a s' => Seq (ch a) (lit s')
  end.

Fixpoint liti (s : string) : regex :=
  match s with
  | "" => Eps
  | String a "" => chi a
  | String a s' => Seq (chi a) (liti s')
  end.

(** A class item is a range of characters or one of the escapes. *)
Inductive item : Type :=
| Range (lo hi : ascii)
| One (a : ascii)
| Space
| Digit
| Word.

Definition in_item (b : ascii) (it : item) : bool :=
  match it with
  | Range lo hi => (nat_of_ascii lo <=? nat_of_ascii b) && (nat_of_ascii b <=? nat_of_ascii hi)
  | One a => Ascii.eqb a b
  | Space => is_space b
  | Digit => is_digit b
  | Word => is_upper b || is_lower b || is_digit b || Ascii.eqb b "_"
  end.

Definition in_class (its : list item) (b : ascii) : bool := existsb (in_item b) its.

(** With the [i] flag a character belongs to a class when one of its case
    variants does. *)
Definition in_classi (its : list item) (b : ascii) : bool :=
  in_class its b || in_class its (upper b) || in_class its (lower b).

Definition cls (its : list item) : regex := Chr (in_class its).
Definition ncls (its : list item) : regex := Chr (fun b => negb (in_class its b)).
Definition clsi (its : list item) : regex := Chr (in_classi its).
Definition nclsi (its : list item) : regex := Chr (fun b => negb (in_classi its b)).

Definition plus (g : bool) (r : regex) : regex := Seq r (Star g r).

Definition sp : regex := cls [Space].          (* \s *)
Definition dg : regex := cls [Digit].          (* \d *)
Definition wd : regex := cls [Word].           (* \w *)
Definition any : regex := cls [Space; Range "000" "255"].   (* [\s\S] *)
Definition notnl : regex := ncls [One "010"].  (* [^\n] *)
Definition nl : regex := ch "010".             (* \n *)

End Regex.

Declare Scope regex_scope.
Delimit Scope regex_scope with re.
Bind Scope regex_scope with Regex.regex.
Infix ">>>" := Regex.Seq (at level 60, right associativity) : regex_scope.
Infix "|+|" := Regex.Alt (at level 65, right associativity) : regex_scope.

(* ===================================================================== *)
(** ** JavaScript values, exceptions and property access *)
(* ===================================================================== *)

Module Js.
Import JsString.

(** What a [catch] clause can observe of a thrown value. *)
Record error : Type := Error {
  name : string;                    (* "Error", "TypeError", "SyntaxError", ... *)
  message : string;                 (* error.message *)
  isCancel : bool;                  (* axios.isCancel(error) *)
  status : option nat;              (* error.status, set by the SDK clients *)
  response_status : option nat      (* error.response.status, set by axios *)
}.

Definition new_Error (msg : string) : error := Error "Error" msg false None None.
Definition TypeError (msg : string) : error := Error "TypeError" msg false None None.
Definition SyntaxError (msg : string) : error := Error "SyntaxError" msg false None None.

Inductive completion (A : Type) : Type :=
| Normal (a : A)
| Throw (e : error).
Arguments Normal {A} a.
Arguments Throw {A} e.

Definition cbind {A B : Type} (c : completion A) (f : A -> completion B)
  : completion B :=
  match c with
  | Normal a => f a
  | Throw e => Throw e
  end.

#[export] Instance Monad_completion : Monad completion :=
  {| ret := @Normal; bind := @cbind |}.

(** [try { c } catch (e) { h e }] *)
Definition try_catch {A : Type} (c : completion A) (h : error -> completion A)
  : completion A :=
  match c with
  | Normal a => Normal a
  | Throw e => h e
  end.

(** A number is kept as the exact decimal [mant * 10 ^ expo] it denotes,
    [mant] without trailing zeros; the rounding of doubles is not modelled.
    An array carries its elements and the named properties assigned to it. *)
#[local] Set Warnings "-register-all".
Inductive value : Type :=
| VUndefined : value
| VNull : value
| VBool (b : bool) : value
| VNum (mant expo : Z) : value
| VStr (s : string) : value
| VArr (elems : list value) (props : list (string * value)) : value
| VObj (props : list (string * value)) : value.

Definition VNat (n : nat) : value := VNum (Z.of_nat n) 0.
Definition jarray (l : list value) : value := VArr l [].

(** ToBoolean *)
Definition truthy (v : value) : bool :=
  match v with
  | VUndefined | VNull => false
  | VBool b => b
  | VNum mant _ => negb (mant =? 0)%Z
  | VStr s => negb (s =? "")%string
  | VArr _ _ | VObj _ => true
  end.

(** [a || b] *)
Definition or_else (a b : value) : value := if truthy a then a else b.

Definition isArray (v : value) : bool :=
  match v with VArr _ _ => true | _ => false end.

Definition is_object (v : value) : bool :=
  match v with VObj _ => true | _ => false end.

(** *** Own properties in enumeration order *)

Fixpoint all_digits (s : string) : bool :=
  match s with
  | "" => true
  | String c s' => is_digit c && all_digits s'
  end.

Fixpoint digits_value (s : string) (acc : N) : N :=
  match s with
  | "" => acc
  | String c s' => digits_value s' (10 * acc + N.of_nat (nat_of_ascii c - 48))%N
  end.

(** An array index: a canonical numeric string below [2^32 - 1]. *)
Definition array_index (k : string) : option N :=
  match k with
  | "" => None
  | "0" => Some 0%N
  | String c _ =>
      if all_digits k && negb (Ascii.eqb c "0") && (String.length k <=? 10)
      then let n := digits_value k 0%N in
           if (n <? 4294967295)%N then Some n else None
      else None
  end.

Fixpoint lookup (k : string) (o : list (string * value)) : option value :=
  match o with
  | [] => None
  | (k', v) :: o' => if (k' =? k)%string then Some v else lookup k o'
  end.

Definition has (k : string) (o : list (string * value)) : bool :=
  match lookup k o with Some _ => true | None => false end.

Fixpoint overwrite (k : string) (v : value) (o : list (string * value))
  : list (string * value) :=
  match o with
  | [] => []
  | (k', v') :: o' =>
      if (k' =? k)%string then (k, v) :: o' else (k', v') :: overwrite k v o'
  end.

(** A new index key goes before the first larger index and before every
    name; a new name goes last. *)
Fixpoint insert_index (n : N) (k : string) (v : value) (o : list (string * value))
  : list (string * value) :=
  match o with
  | [] => [(k, v)]
  | (k', v') :: o' =>
      match array_index k' with
      | Some n' => if (n' <? n)%N then (k', v') :: insert_index n k v o'
                   else (k, v) :: o
      | None => (k, v) :: o
      end
  end.

(** CreateDataProperty on an ordinary object (object literals, JSON.parse). *)
Definition define (k : string) (v : value) (o : list (string * value))
  : list (string * value) :=
  if has k o then overwrite k v o
  else match array_index k with
       | Some n => insert_index n k v o
       | None => (o ++ [(k, v)])%list
       end.

(** The assignment [o[k] = v] on an ordinary object.  Without an own
    property of that name, the key ["__proto__"] reaches the setter inherited
    from Object.prototype, which adds no own property. *)
Definition assign (k : string) (v : value) (o : list (string * value))
  : list (string * value) :=
  if (k =? "__proto__")%string && negb (has k o) then o else define k v o.

Fixpoint indexed (i : nat) (l : list value) : list (string * value) :=
  match l with
  | [] => []
  | v :: l' => (nat_toString i, v) :: indexed (S i) l'
  end.

Fixpoint chars (s : string) : list value :=
  match s with
  | "" => []
  | String c s' => VStr (String c "") :: chars s'
  end.

(** Object.entries(v) *)
Definition entries (v : value) : completion (list (string * value)) :=
  match v with
  | VUndefined | VNull =>
      Throw (TypeError "Cannot convert undefined or null to object")
  | VBool _ | VNum _ _ => Normal []
  | VStr s => Normal (indexed 0 (chars s))
  | VArr l ps => Normal (indexed 0 l ++ ps)%list
  | VObj ps => Normal ps
  end.

(** Object.keys(v) *)
Definition keys (v : value) : completion (list string) :=
  ps <- entries v ;; ret (map fst ps).

(** *** Reading and writing properties

    [get] serves the property names the code uses ([questions], [answers],
    [options], [question_text], [question_number]), none of which is
    inherited from a prototype. *)

Definition get (v : value) (k : string) : completion value :=
  match v with
  | VUndefined | VNull =>
      Throw (TypeError ("Cannot read properties of undefined (reading '" ++ k ++ "')"))
  | VBool _ | VNum _ _ | VStr _ => Normal VUndefined
  | VArr _ ps | VObj ps =>
      Normal (match lookup k ps with Some x => x | None => VUndefined end)
  end.

(** [v[i]] for a non-negative integer [i]. *)
Definition at_index (v : value) (i : nat) : completion value :=
  match v with
  | VUndefined | VNull =>
      Throw (TypeError "Cannot read properties of undefined")
  | VBool _ | VNum _ _ => Normal VUndefined
  | VStr s => Normal (nth i (chars s) VUndefined)
  | VArr l _ => Normal (nth i l VUndefined)
  | VObj ps =>
      Normal (match lookup (nat_toString i) ps with Some x => x | None => VUndefined end)
  end.

(** [v.k = x] in strict mode, for a name [k] that is not an index. *)
Definition set (v : value) (k : string) (x : value) : completion value :=
  match v with
  | VUndefined | VNull =>
      Throw (TypeError ("Cannot set properties of undefined (setting '" ++ k ++ "')"))
  | VBool _ | VNum _ _ | VStr _ =>
      Throw (TypeError ("Cannot create property '" ++ k ++ "'"))
  | VArr l ps => Normal (VArr l (assign k x ps))
  | VObj ps => Normal (VObj (assign k x ps))
  end.

End Js.

(* ===================================================================== *)
(** ** JSON.parse

    A recursive-descent reader of the JSON grammar.  [\uXXXX] escapes above
    127 are stored as the UTF-8 bytes of the code unit. *)
(* ===================================================================== *)

Module Json.
Import JsString Js.

Inductive parsed (A : Type) : Type :=
| POk (a : A) (rest : string)
| PErr                      (* the text is not JSON *)
| PFuel.                    (* recursion budget exhausted *)
Arguments POk {A} a rest.
Arguments PErr {A}.
Arguments PFuel {A}.

Definition is_ws (c : ascii) : bool :=
  let n := nat_of_ascii c in (n =? 32) || (n =? 9) || (n =? 10) || (n =? 13).

Fixpoint skip_ws (s : string) : string :=
  match s with
  | String c s' => if is_ws c then skip_ws s' else s
  | "" => ""
  end.

Definition hex_digit (c : ascii) : option nat :=
  let n := nat_of_ascii c in
  if is_digit c then Some (n - 48)
  else if (65 <=? n) && (n <=? 70) then Some (n - 55)
  else if (97 <=? n) && (n <=? 102) then Some (n - 87)
  else None.

Definition utf8 (n : nat) : string :=
  if n <? 128 then String (ascii_of_nat n) ""
  else if n <? 2048 then
    String (ascii_of_nat (192 + n / 64)) (String (ascii_of_nat (128 + n mod 64)) "")
  else
    String (ascii_of_nat (224 + n / 4096))
      (String (ascii_of_nat (128 + (n / 64) mod 64))
         (String (ascii_of_nat (128 + n mod 64)) "")).

(** The characters of a string literal after its opening quote; [acc] holds
    the decoded text in reverse. *)
Fixpoint parse_chars (s : string) (acc : string) : parsed string :=
  match s with
  | "" => PErr
  | String c s' =>
      if Ascii.eqb c "034" then POk (rev acc) s'
      else if Ascii.eqb c "\" then
        match s' with
        | String e s'' =>
            let simple (d : ascii) := parse_chars s'' (String d acc) in
            if Ascii.eqb e "034" then simple "034"%char
            else if Ascii.eqb e "\" then simple "\"%char
            else if Ascii.eqb e "/" then simple "/"%char
            else if Ascii.eqb e "b" then simple "008"%char
            else if Ascii.eqb e "f" then simple "012"%char
            else if Ascii.eqb e "n" then simple "010"%char
            else if Ascii.eqb e "r" then simple "013"%char
            else if Ascii.eqb e "t" then simple "009"%char
            else if Ascii.eqb e "u" then
              match s'' with
              | String h1 (String h2 (String h3 (String h4 s4))) =>
                  match hex_digit h1, hex_digit h2, hex_digit h3, hex_digit h4 with
                  | Some a, Some b, Some c', Some d =>
                      parse_chars s4
                        (rev_onto (utf8 (((a * 16 + b) * 16 + c') * 16 + d)) acc)
                  | _, _, _, _ => PErr
                  end
              | _ => PErr
              end
            else PErr
        | "" => PErr
        end
      else if nat_of_ascii c <? 32 then PErr
      else parse_chars s' (String c acc)
  end.

Fixpoint take_digits (s : string) (acc : string) : string * string :=
  match s with
  | String c s' => if is_digit c then take_digits s' (String c acc) else (rev acc, s)
  | "" => (rev acc, "")
  end.

Definition digits_Z (s : string) : Z := Z.of_N (digits_value s 0%N).

Fixpoint strip_zeros (fuel : nat) (mant expo : Z) : Z * Z :=
  match fuel with
  | 0 => (mant, expo)
  | S fuel' =>
      if (mant =? 0)%Z then (0, 0)%Z
      else if (mant mod 10 =? 0)%Z then strip_zeros fuel' (mant / 10)%Z (expo + 1)%Z
      else (mant, expo)
  end.

(** A number: an optional minus sign, an integer part without leading
    zero, an optional fraction and an optional exponent. *)
Definition parse_number (s : string) : parsed value :=
  let (neg, s1) := match s with String "-" r => (true, r) | _ => (false, s) end in
  let (int, s2) := take_digits s1 "" in
  let int_ok := match int with
                | "" => false
                | "0" => true
                | String c _ => negb (Ascii.eqb c "0")
                end in
  if negb int_ok then PErr
  else
    let frac_part :=
      match s2 with
      | String "." r =>
          let (fr, r') := take_digits r "" in
          match fr with "" => None | _ => Some (fr, r') end
      | _ => Some ("", s2)
      end in
    match frac_part with
    | None => PErr
    | Some (fr, s3) =>
        let exp_part :=
          match s3 with
          | String e r =>
              if Ascii.eqb e "e" || Ascii.eqb e "E" then
                let (sgn, r1) := match r with
                                 | String "-" r' => ((-1)%Z, r')
                                 | String "+" r' => (1%Z, r')
                                 | _ => (1%Z, r)
                                 end in
                let (ds, r2) := take_digits r1 "" in
                match ds with "" => None | _ => Some ((sgn * digits_Z ds)%Z, r2) end
              else Some (0%Z, s3)
          | "" => Some (0%Z, s3)
          end in
        match exp_part with
        | None => PErr
        | Some (ex, s4) =>
            let mant := digits_Z (int ++ fr) in
            let mant := if neg then (- mant)%Z else mant in
            let (mt, ep) := strip_zeros (String.length (int ++ fr)) mant
                              (ex - Z.of_nat (String.length fr))%Z in
            POk (VNum mt ep) s4
        end
    end.

Definition keyword (w : string) (v : value) (s : string) : parsed value :=
  if startsWith w s then POk v (drop (String.length w) s) else PErr.

Fixpoint parse_value (fuel : nat) (s : string) : parsed value :=
  match fuel with
  | 0 => PFuel
  | S fuel' =>
      match skip_ws s with
      | String "{" r =>
          match skip_ws r with
          | String "}" r' => POk (VObj []) r'
          | r1 => parse_members fuel' r1 []
          end
      | String "[" r =>
          match skip_ws r with
          | String "]" r' => POk (jarray []) r'
          | r1 => parse_elems fuel' r1 []
          end
      | String "034" r =>
          match parse_chars r "" with
          | POk str r' => POk (VStr str) r'
          | PErr => PErr
          | PFuel => PFuel
          end
      | String "t" _ as w => keyword "true" (VBool true) w
      | String "f" _ as w => keyword "false" (VBool false) w
      | String "n" _ as w => keyword "null" VNull w
      | w => parse_number w
      end
  end

(** The elements of an array from the start of an element; [acc] holds the
    elements read so far in reverse. *)
with parse_elems (fuel : nat) (s : string) (acc : list value) : parsed value :=
  match fuel with
  | 0 => PFuel
  | S fuel' =>
      match parse_value fuel' s with
      | POk v r =>
          match skip_ws r with
          | String "," r' => parse_elems fuel' r' (v :: acc)
          | String "]" r' => POk (jarray (List.rev (v :: acc))) r'
          | _ => PErr
          end
      | PErr => PErr
      | PFuel => PFuel
      end
  end

(** The members of an object from the start of a member. *)
with parse_members (fuel : nat) (s : string) (acc : list (string * value))
  : parsed value :=
  match fuel with
  | 0 => PFuel
  | S fuel' =>
      match skip_ws s with
      | String "034" r =>
          match parse_chars r "" with
          | POk k r1 =>
              match skip_ws r1 with
              | String ":" r2 =>
                  match parse_value fuel' r2 with
                  | POk v r3 =>
                      match skip_ws r3 with
                      | String "," r' => parse_members fuel' r' (define k v acc)
                      | String "}" r' => POk (VObj (define k v acc)) r'
                      | _ => PErr
                      end
                  | PErr => PErr
                  | PFuel => PFuel
                  end
              | _ => PErr
              end
          | _ => PErr
          end
      | _ => PErr
      end
  end.

Definition budget (s : string) : nat := 2 * String.length s + 2.

(** JSON.parse(text) *)
Definition parse (s : string) : completion value :=
  match parse_value (budget s) s with
  | POk v r =>
      match skip_ws r with
      | "" => Normal v
      | _ => Throw (SyntaxError "Unexpected non-whitespace character after JSON")
      end
  | _ => Throw (SyntaxError "Unexpected token in JSON")
  end.

End Json.

(* ===================================================================== *)
(** ** Parsing the provider's text (processScreenshotsHelper,
       generateSolutionsHelper) *)
(* ===================================================================== *)

Module ResponseParser.
Import JsString Regex Js.

(** *** Extraction stage: the JSON carried by the response *)

(** The fence pattern of the OpenAI and Gemini branches: three backticks, an
    optional [json] tag, a lazily captured body, three backticks. *)
Definition fencePattern : regex :=
  (lit "```" >>> Opt true (lit "json") >>> Grp 1 (Star false any) >>> lit "```")%re.

(** The outermost braces: an opening brace, anything (greedy), a closing
    brace. *)
Definition bracePattern : regex :=
  (ch "{" >>> Star true any >>> ch "}")%re.

(** [const jsonMatch = responseText.match(fence) || [null, responseText];
     const jsonText = jsonMatch[1].trim();] *)
Definition jsonText (responseText : string) : string :=
  match exec fencePattern responseText with
  | Some mr => match group 1 mr with
               | Some body => trim body
               | None => trim responseText
               end
  | None => trim responseText
  end.

(** Steps 1 and 2 of the chain: direct parse of the text, or of the body of
    its first fenced block. *)
Definition parseFenced (responseText : string) : completion value :=
  Json.parse (jsonText responseText).

(** Step 3 as the OpenAI branch has it: a failure of the second parse is
    replaced by a new error. *)
Definition parseBraces_openai (responseText : string) : completion value :=
  match exec bracePattern responseText with
  | Some mr =>
      try_catch (Json.parse (matched mr))
        (fun _ => Throw (new_Error "Failed to parse extracted information"))
  | None => Throw (new_Error "Could not identify JSON structure in the response")
  end.

(** Step 3 as the Gemini branch has it. *)
Definition parseBraces_gemini (responseText : string) : completion value :=
  match exec bracePattern responseText with
  | Some mr => Json.parse (matched mr)
  | None => Throw (new_Error "Could not identify JSON structure in the response")
  end.

Definition parseProblemInfo_openai (responseText : string) : completion value :=
  try_catch (parseFenced responseText) (fun _ => parseBraces_openai responseText).

Definition parseProblemInfo_gemini (responseText : string) : completion value :=
  try_catch (parseFenced responseText) (fun _ => parseBraces_gemini responseText).

(** The Anthropic branch deletes every fence marker and parses what is left. *)
Definition fenceMarker : regex := (lit "```json" |+| lit "```")%re.

Fixpoint remove_matches (ms : list match_result) (p : nat) (s : string) : string :=
  match ms with
  | [] => drop p s
  | mr :: ms' => take (index mr - p) (drop p s) ++ remove_matches ms' (lastIndex mr) s
  end.

(** [s.replace(r, '')] for a [g] regular expression. *)
Definition remove_all (r : regex) (s : string) : string :=
  remove_matches (matchAll r s) 0 s.

Definition parseProblemInfo_anthropic (responseText : string) : completion value :=
  Json.parse (trim (remove_all fenceMarker responseText)).

(** *** Synthesis stage: code, thoughts and complexity *)

(** The first fenced block of any language. *)
Definition codePattern : regex :=
  (lit "```" >>> Opt true (plus true wd) >>> Star true sp
     >>> Grp 1 (Star false any) >>> lit "```")%re.

Definition code (responseContent : string) : string :=
  match exec codePattern responseContent with
  | Some mr => match group 1 mr with
               | Some body => trim body
               | None => responseContent
               end
  | None => responseContent
  end.

Definition thoughtsRegex : regex :=
  ((liti "Thoughts:" |+| liti "Key Insights:" |+| liti "Reasoning:" |+| liti "Approach:")
     >>> Grp 1 (Star false any)
     >>> (liti "Time complexity:" |+| Eol))%re.

(** [.]: any character but a line terminator. *)
Definition dot : regex := ncls [One "010"; One "013"].

(** A bullet ([-], [*] or U+2022) or a number followed by a full stop. *)
Definition bulletMark : regex :=
  ((cls [One "-"; One "*"] |+| lit "•") |+| (plus true dg >>> ch "."))%re.

Definition bulletPattern : regex :=
  ((Bol |+| nl) >>> Star true sp >>> bulletMark >>> Star true sp
     >>> Grp 1 (Star true dot))%re.

Definition bulletPrefix : regex :=
  (Bol >>> Star true sp >>> bulletMark >>> Star true sp)%re.

Definition nonempty (s : string) : bool := negb (s =? "")%string.

Definition thoughts (responseContent : string) : list string :=
  match exec thoughtsRegex responseContent with
  | Some mr =>
      match group 1 mr with
      | Some body =>
          if nonempty body then
            match matchAll bulletPattern body with
            | [] => filter nonempty (map trim (JsString.split "010" body))
            | points =>
                filter nonempty
                  (map (fun point => trim (remove_first bulletPrefix (matched point))) points)
            end
          else []
      | None => []
      end
  | None => []
  end.

(** One or more lines, as few as possible. *)
Definition lines : regex :=
  (plus true notnl >>> Star false (nl >>> plus true notnl))%re.

Definition timeComplexityPattern : regex :=
  (liti "Time complexity" >>> Opt true (ch ":") >>> Star true sp
     >>> Grp 1 lines
     >>> Ahead true (nl >>> Star true sp >>> (liti "Space complexity" |+| Eol)))%re.

Definition spaceComplexityPattern : regex :=
  (liti "Space complexity" >>> Opt true (ch ":") >>> Star true sp
     >>> Grp 1 lines
     >>> Ahead true (nl >>> Star true sp >>> (clsi [Range "A" "Z"] |+| Eol)))%re.

(** The Big-O token: an O, an opening parenthesis, one or more characters
    other than a closing parenthesis, a closing parenthesis. *)
Definition bigO : regex :=
  (chi "O" >>> ch "(" >>> plus true (ncls [One ")"]) >>> ch ")")%re.

Definition defaultTimeComplexity : string :=
  "O(n) - Linear time complexity because we only iterate through the array once. Each element is processed exactly one time, and the hashmap lookups are O(1) operations.".

Definition defaultSpaceComplexity : string :=
  "O(n) - Linear space complexity because we store elements in the hashmap. In the worst case, we might need to store all elements before finding the solution pair.".

(** The rewriting applied to a captured complexity text (the same statements
    for time and for space). *)
Definition normalizeComplexity (captured : string) : string :=
  let complexity := trim captured in
  match exec bigO complexity with
  | None => "O(n) - " ++ complexity
  | Some notationMatch =>
      if negb (includes "-" complexity) && negb (includes "because" complexity) then
        let notation := matched notationMatch in
        let rest := trim (replace notation "" complexity) in
        notation ++ " - " ++ rest
      else complexity
  end.

Definition extractComplexity (pattern : regex) (fallback : string)
    (responseContent : string) : string :=
  match exec pattern responseContent with
  | Some mr =>
      match group 1 mr with
      | Some captured => if nonempty captured then normalizeComplexity captured
                         else fallback
      | None => fallback
      end
  | None => fallback
  end.

Definition time_complexity : string -> string :=
  extractComplexity timeComplexityPattern defaultTimeComplexity.

Definition space_complexity : string -> string :=
  extractComplexity spaceComplexityPattern defaultSpaceComplexity.

(** The data of a successful synthesis ([formattedResponse]). *)
Record solution : Type := Solution {
  sol_code : string;
  sol_thoughts : list string;
  sol_time_complexity : string;
  sol_space_complexity : string
}.

Definition formattedResponse (responseContent : string) : solution :=
  {| sol_code := code responseContent;
     sol_thoughts :=
       match thoughts responseContent with
       | [] => ["Solution approach based on efficiency and readability"]
       | ts => ts
       end;
     sol_time_complexity := time_complexity responseContent;
     sol_space_complexity := space_complexity responseContent |}.

End ResponseParser.

(* ===================================================================== *)
(** ** Multiple-choice answers (parseMCQResponse and its helpers) *)
(* ===================================================================== *)

Module Mcq.
Import JsString Regex Js ResponseParser.

Definition nonblank (s : string) : bool := 0 <? String.length (trim s).

(** [array.forEach((x, index) => ...)] where the callback updates [x] in
    place and may throw. *)
Fixpoint forEach (f : value -> nat -> completion value) (l : list value) (index : nat)
  : completion (list value) :=
  match l with
  | [] => ret []
  | x :: l' =>
      x' <- f x index ;;
      l'' <- forEach f l' (S index) ;;
      ret (x' :: l'')
  end.

(** The body of the [forEach] of parseMCQResponse. *)
Definition backfill (questions : value) (answer : value) (index : nat)
  : completion value :=
  question <- at_index questions index ;;
  if truthy question then
    text <- get answer "question_text" ;;
    answer1 <- (if negb (truthy text) then
                  qtext <- get question "question_text" ;;
                  set answer "question_text" (or_else qtext (VStr ""))
                else ret answer) ;;
    opts <- get answer1 "options" ;;
    if negb (truthy opts) then
      qopts <- get question "options" ;;
      if truthy qopts then set answer1 "options" qopts else ret answer1
    else ret answer1
  else ret answer.

(** [A] to [D] followed by a colon or a dash and the rest of the line,
    case-insensitively. *)
Definition analysisPattern (option : ascii) : regex :=
  (chi option >>> Star true sp >>> (ch ":" |+| ch "-") >>> Star true sp
     >>> Grp 1 (plus true notnl))%re.

Definition extractAnalysis (block : string) : value :=
  VObj (fold_left
          (fun analysis option =>
             match exec (analysisPattern option) block with
             | Some mr =>
                 match group 1 mr with
                 | Some text =>
                     if nonempty text
                     then assign (String option "") (VStr (trim text)) analysis
                     else analysis
                 | None => analysis
                 end
             | None => analysis
             end)
          ["A"; "B"; "C"; "D"]%char []).

Definition keyConceptsPattern : regex :=
  (liti "key" >>> plus true sp >>> liti "concepts" >>> Star true sp
     >>> (ch ":" |+| liti "are" |+| liti "include") >>> Star true sp
     >>> Grp 1 (Star false any)
     >>> ((nl >>> nl) |+| Eol))%re.

Definition commaOrNewline : regex := cls [One ","; One "010"].

Definition extractKeyConcepts (block : string) : value :=
  match exec keyConceptsPattern block with
  | Some mr =>
      match group 1 mr with
      | Some text =>
          if nonempty text then
            jarray (map VStr (filter nonempty (map trim (Regex.split commaOrNewline text))))
          else jarray []
      | None => jarray []
      end
  | None => jarray []
  end.

(** The heading of a question block: the word Question, white space, digits
    and a colon, or Q, digits and a colon; case-insensitively. *)
Definition questionHeading : regex :=
  ((liti "Question" >>> plus true sp >>> plus true dg >>> ch ":")
     |+| (chi "Q" >>> plus true dg >>> ch ":"))%re.

Definition correctAnswerPattern : regex :=
  (liti "correct" >>> plus true sp >>> liti "answer" >>> Star true sp
     >>> (liti "is" |+| ch ":") >>> Star true sp
     >>> Grp 1 (clsi [Range "A" "D"]))%re.

Definition explanationPattern : regex :=
  (liti "explanation" >>> Star true sp >>> (ch ":" |+| liti "is")
     >>> Grp 1 (Star false any)
     >>> (liti "Analysis" |+| liti "Key concepts" |+| Eol))%re.

(** One iteration of the loop over the question blocks. *)
Definition blockAnswer (problemInfo : value) (i : nat) (block : string)
  : completion value :=
  let correctAnswer :=
    match exec correctAnswerPattern block with
    | Some mr => match group 1 mr with Some a => a | None => "?" end
    | None => "?"
    end in
  let explanation :=
    match exec explanationPattern block with
    | Some mr => match group 1 mr with
                 | Some e => trim e
                 | None => "No explanation provided"
                 end
    | None => "No explanation provided"
    end in
  questions <- get problemInfo "questions" ;;
  question <- (if truthy questions then at_index questions i else ret questions) ;;
  questionText <- (if truthy question then
                     t <- get question "question_text" ;; ret (or_else t (VStr ""))
                   else ret (VStr "")) ;;
  questions' <- get problemInfo "questions" ;;
  question' <- (if truthy questions' then at_index questions' i else ret questions') ;;
  options <- (if truthy question' then
                o <- get question' "options" ;; ret (or_else o (VObj []))
              else ret (VObj [])) ;;
  ret (VObj [("question_number", VNat (i + 1));
             ("question_text", questionText);
             ("options", options);
             ("correct_answer", VStr correctAnswer);
             ("explanation", VStr explanation);
             ("analysis", extractAnalysis block);
             ("key_concepts", extractKeyConcepts block)]).

Fixpoint blockAnswers (problemInfo : value) (i : nat) (blocks : list string)
  : completion (list value) :=
  match blocks with
  | [] => ret []
  | block :: blocks' =>
      a <- blockAnswer problemInfo i block ;;
      rest <- blockAnswers problemInfo (S i) blocks' ;;
      ret (a :: rest)
  end.

Definition with_answers (parsed answers : value) : value :=
  match parsed with
  | VObj props => VObj (overwrite "answers" answers props)
  | _ => parsed
  end.

Definition noAnswers : value := VObj [("answers", jarray [])].

(** [content] is [None] when the caller holds [null] or [undefined]. *)
Definition parseMCQResponse (content : option string) (problemInfo : value)
  : completion value :=
  try_catch
    (match content with
     | None => Throw (TypeError "Cannot read properties of undefined (reading 'match')")
     | Some content =>
         match exec bracePattern content with
         | Some jsonMatch =>
             parsed <- Json.parse (matched jsonMatch) ;;
             answers <- get parsed "answers" ;;
             match answers with
             | VArr elems props =>
                 questions <- get problemInfo "questions" ;;
                 if truthy questions then
                   elems' <- forEach (backfill questions) elems 0 ;;
                   ret (with_answers parsed (VArr elems' props))
                 else ret parsed
             | _ => ret parsed
             end
         | None =>
             let questionBlocks := filter nonblank (Regex.split questionHeading content) in
             answers <- blockAnswers problemInfo 0 questionBlocks ;;
             ret (VObj [("answers", jarray answers)])
         end
     end)
    (fun _ => ret noAnswers).

End Mcq.

(* ===================================================================== *)
(** ** Question sets (validateAndFixMCQFormat and its helpers) *)
(* ===================================================================== *)

Module QuestionSet.
Import JsString Regex Js ResponseParser Mcq.

Definition digit14 : regex := (Bol >>> cls [Range "1" "4"] >>> Eol)%re.
Definition letter_ad : regex := (Bol >>> cls [Range "a" "d"] >>> Eol)%re.

(** [parseInt(key)] for a string of decimal digits. *)
Definition parseInt (key : string) : nat := N.to_nat (digits_value key 0%N).

Definition fromCharCode (n : nat) : string := String (ascii_of_nat n) "".

(** The option-key rewriting of validateAndFixMCQFormat. *)
Definition normalizedKey (key : string) : string :=
  if test digit14 key then fromCharCode (64 + parseInt key)
  else if test letter_ad (toLowerCase key) then toUpperCase key
  else key.

(** [Object.entries(options).forEach(([key, value]) =>
       normalizedOptions[normalizedKey] = value)] from an empty object. *)
Definition normalizeOptions (entries : list (string * value)) : list (string * value) :=
  fold_left (fun normalizedOptions kv => assign (normalizedKey (fst kv)) (snd kv) normalizedOptions)
    entries [].

Definition dotOrParen : list item := [One "."; One ")"].

(** The option markers tried in order: [A.] or [A)], [a.] or [a)],
    [1.] or [1)], and option or choice followed by a letter. *)
Definition optionPatternUpper : regex :=
  (Grp 1 (cls [Range "A" "D"]) >>> cls dotOrParen >>> Star true sp
     >>> Grp 2 (plus true notnl)
     >>> Ahead true ((Star true sp >>> cls [Range "A" "D"] >>> cls dotOrParen) |+| Eol))%re.

Definition optionPatternLower : regex :=
  (Grp 1 (cls [Range "a" "d"]) >>> cls dotOrParen >>> Star true sp
     >>> Grp 2 (plus true notnl)
     >>> Ahead true ((Star true sp >>> cls [Range "a" "d"] >>> cls dotOrParen) |+| Eol))%re.

Definition optionPatternDigit : regex :=
  (Star true sp >>> Grp 1 (cls [Range "1" "4"]) >>> cls dotOrParen >>> Star true sp
     >>> Grp 2 (plus true notnl)
     >>> Ahead true ((Star true sp >>> cls [Range "1" "4"] >>> cls dotOrParen) |+| Eol))%re.

Definition optionPatternWord : regex :=
  ((liti "option" |+| liti "choice") >>> Star true sp
     >>> Grp 1 (clsi [Range "A" "D"; Range "a" "d"])
     >>> clsi [One ":"; One "."; One ")"] >>> Star true sp
     >>> Grp 2 (plus true notnl))%re.

Definition optionPatterns : list regex :=
  [optionPatternUpper; optionPatternLower; optionPatternDigit; optionPatternWord].

(** The [while] loop over the matches of one pattern. *)
Definition collectOptions (matches : list match_result) : list (string * value) :=
  fold_left
    (fun options mr =>
       match group 1 mr, group 2 mr with
       | Some k, Some v =>
           let key := toUpperCase k in
           let key := if test digit14 key then fromCharCode (64 + parseInt key) else key in
           assign key (VStr (trim v)) options
       | _, _ => options
       end)
    matches [].

(** The first pattern with a match decides. *)
Fixpoint firstOptions (patterns : list regex) (text : string)
  : option (list (string * value)) :=
  match patterns with
  | [] => None
  | pattern :: patterns' =>
      match matchAll pattern text with
      | [] => firstOptions patterns' text
      | matches => Some (collectOptions matches)
      end
  end.

(** The text of a template substitution of an option value, a string or
    [undefined]. *)
Definition optionText (options : list (string * value)) (letter : string) : string :=
  match lookup letter options with
  | Some (VStr s) => s
  | _ => "undefined"
  end.

(** White space, the letter, a full stop or closing parenthesis, white space,
    then the option text spliced in as pattern source. *)
Definition optRegexSource (letter text : string) : string :=
  "\s*" ++ letter ++ "[.)]\s*" ++ text.

(** The structured-lines fall-back: the first non-blank line is the question,
    the next ones are the options [A] to [D]. *)
Definition lineOptions (rest : list string) : list (string * value) :=
  fold_left (fun options kv => assign (fst kv) (VStr (trim (snd kv))) options)
    (combine ["A"; "B"; "C"; "D"] rest) [].

Section WithRegExp.

(** [new RegExp(source, 'i')], a built-in: the regular expression a pattern
    source denotes, or the SyntaxError it raises. *)
Variable RegExp_i : string -> completion regex.

(** The loop over the letters [A] to [D] that strips the options found
    from the question text. *)
Fixpoint stripOptions (options : list (string * value)) (letters : list string)
    (questionText : string) : completion string :=
  match letters with
  | [] => ret questionText
  | letter :: letters' =>
      optRegex <- RegExp_i (optRegexSource letter (optionText options letter)) ;;
      stripOptions options letters' (remove_first optRegex questionText)
  end.

(** [extractOptionsFromText(text)]: the question text and the options. *)
Definition extractOptionsFromText (text : string)
  : completion (string * list (string * value)) :=
  match firstOptions optionPatterns text with
  | Some options =>
      questionText <- stripOptions options ["A"; "B"; "C"; "D"] text ;;
      match options with
      | [] =>
          match filter nonblank (JsString.split "010" text) with
          | [] => ret (questionText, [])
          | first :: rest => ret (trim first, lineOptions rest)
          end
      | _ => ret (questionText, options)
      end
  | None =>
      match filter nonblank (JsString.split "010" text) with
      | [] => ret (text, [])
      | first :: rest => ret (trim first, lineOptions rest)
      end
  end.

(** The argument as validateAndFixMCQFormat passes it: any value.  Whatever
    is not a string ends in a TypeError, at [replace] or at [split]. *)
Definition extractOptionsFromValue (text : value)
  : completion (string * list (string * value)) :=
  match text with
  | VStr s => extractOptionsFromText s
  | _ => Throw (TypeError "text.split is not a function")
  end.

Definition question (number : string) (extractResult : string * list (string * value))
  : value :=
  VObj [("question_number", VStr number);
        ("question_text", VStr (fst extractResult));
        ("options", VObj (snd extractResult))].

(** A run of digits, a full stop or parenthesis, and a line that is cut
    before the next such numbering. *)
Definition numberedQuestion : regex :=
  (Grp 1 (plus true dg) >>> cls dotOrParen >>> Star true sp
     >>> Grp 2 (plus true notnl
                >>> Star true (Ahead false (plus true dg >>> cls dotOrParen >>> Star true sp)
                               >>> notnl)))%re.

Definition letter : list item := [Range "A" "Z"; Range "a" "z"].

Definition letteredQuestion : regex :=
  (Grp 1 (cls letter) >>> cls dotOrParen >>> Star true sp
     >>> Grp 2 (plus true notnl
                >>> Star true (Ahead false (cls letter >>> cls dotOrParen >>> Star true sp)
                               >>> notnl)))%re.

Fixpoint patternQuestions (matches : list match_result) : completion (list value) :=
  match matches with
  | [] => ret []
  | mr :: matches' =>
      match group 1 mr, group 2 mr with
      | Some questionNum, Some fullText =>
          extractResult <- extractOptionsFromText (trim fullText) ;;
          rest <- patternQuestions matches' ;;
          ret (question questionNum extractResult :: rest)
      | _, _ => patternQuestions matches'
      end
  end.

Definition blankLine : regex := (nl >>> Star true sp >>> nl)%re.

Fixpoint blockQuestions (blocks : list string) (i : nat) : completion (list value) :=
  match blocks with
  | [] => ret []
  | block :: blocks' =>
      extractResult <- extractOptionsFromText block ;;
      rest <- blockQuestions blocks' (S i) ;;
      match snd extractResult with
      | [] => ret rest
      | _ => ret (question (nat_toString (i + 1)) extractResult :: rest)
      end
  end.

(** [extractQuestionsFromText(text).questions] *)
Definition extractQuestionsFromText (text : string) : completion (list value) :=
  numbered <- patternQuestions (matchAll numberedQuestion text) ;;
  lettered <- patternQuestions (matchAll letteredQuestion text) ;;
  match (numbered ++ lettered)%list with
  | [] => blockQuestions (filter nonblank (Regex.split blankLine text)) 0
  | questions => ret questions
  end.

Definition placeholder : value :=
  VObj [("questions",
         jarray [VObj [("question_number", VStr "1");
                       ("question_text",
                        VStr "Failed to extract question text properly. Please check screenshots or try again.");
                       ("options",
                        VObj [("A", VStr "Option A"); ("B", VStr "Option B");
                              ("C", VStr "Option C"); ("D", VStr "Option D")])]])].

Definition noOptions : value :=
  VObj [("A", VStr "No options extracted"); ("B", VStr "");
        ("C", VStr ""); ("D", VStr "")].

(** One iteration of the repair loop, on [problemInfo.questions[i]]. *)
Definition fixQuestion (question : value) (i : nat) : completion value :=
  number <- get question "question_number" ;;
  question <- (if negb (truthy number)
               then set question "question_number" (VStr (nat_toString (i + 1)))
               else ret question) ;;
  options <- get question "options" ;;
  missing <- (if negb (truthy options) then ret true
              else ks <- keys options ;; ret (length ks =? 0)) ;;
  question <- (if missing : bool then
                 text <- get question "question_text" ;;
                 optionsExtract <- extractOptionsFromValue text ;;
                 match snd optionsExtract with
                 | [] => set question "options" noOptions
                 | found =>
                     question <- set question "question_text" (VStr (fst optionsExtract)) ;;
                     set question "options" (VObj found)
                 end
               else ret question) ;;
  options <- get question "options" ;;
  es <- entries options ;;
  set question "options" (VObj (normalizeOptions es)).

(** [validateAndFixMCQFormat(problemInfo, rawResponse)] *)
Definition validateAndFixMCQFormat (problemInfo : value) (rawResponse : string)
  : completion value :=
  questions <- (if truthy problemInfo then get problemInfo "questions" else ret VUndefined) ;;
  match questions with
  | VArr (q :: qs) props =>
      fixed <- forEach fixQuestion (q :: qs) 0 ;;
      match problemInfo with
      | VObj ps => ret (VObj (overwrite "questions" (VArr fixed props) ps))
      | VArr l ps => ret (VArr l (overwrite "questions" (VArr fixed props) ps))
      | _ => ret problemInfo
      end
  | _ =>
      extracted <- extractQuestionsFromText rawResponse ;;
      match extracted with
      | [] => ret placeholder
      | _ => ret (VObj [("questions", jarray extracted)])
      end
  end.

End WithRegExp.

Definition pattern_syntax (c : ascii) : bool :=
  existsb (Ascii.eqb c)
    ["\"; "^"; "$"; "."; "|"; "?"; "*"; "+"; "("; ")"; "["; "]"; "{"; "}"]%char.

Fixpoint plain (s : string) : bool :=
  match s with
  | "" => true
  | String c s' => negb (pattern_syntax c) && plain s'
  end.

(** The RegExp constructor on the sources [optRegexSource letter text] whose
    [text] is free of pattern syntax, where the text stands for itself.  It
    serves the concrete runs, which build no other source; what it answers
    elsewhere is not meant as a model of the built-in. *)
Definition RegExp_plain (source : string) : completion regex :=
  match source with
  | String "\" (String "s" (String "*" (String letter (String "[" (String "."
      (String ")" (String "]" (String "\" (String "s" (String "*" text)))))))))) =>
      if plain text then
        Normal (Star true sp >>> chi letter >>> cls dotOrParen >>> Star true sp
                  >>> liti text)%re
      else Throw (SyntaxError "Invalid regular expression")
  | _ => Throw (SyntaxError "Invalid regular expression")
  end.

End QuestionSet.

(* ===================================================================== *)
(** ** The state the orchestrator works on *)
(* ===================================================================== *)

Module App.
Import JsString Js ResponseParser.

Inductive view_t : Type := queue | solutions.

Inductive provider : Type := openai | gemini | anthropic | unknown_provider.

Inductive mode_t : Type := coding | mcq.

(** What [configHelper.loadConfig()] returns, as far as the pipeline reads
    it. *)
Record config : Type := Config {
  apiProvider : provider;
  apiKey : string;
  mode : mode_t;
  language : string
}.

Inductive stage : Type :=
| Extraction      (* processScreenshotsHelper *)
| McqAnswers      (* handleMCQResponse *)
| Synthesis       (* generateSolutionsHelper *)
| Debugging.      (* processExtraScreenshotsHelper *)

(** A request handed to a provider.  [signal] is the AbortSignal passed along
    with it, if any. *)
Record request : Type := Request {
  req_provider : provider;
  req_stage : stage;
  req_signal : option nat
}.

(** The candidate texts of a response ([choices], [candidates], [content]);
    [None] is a [null] text. *)
Definition response : Type := list (option string).

Inductive data : Type :=
| SolutionData (s : solution)
| McqData (answers : value)          (* answers: parsedResponse, isMCQ: true *)
| DebugData (debugContent : string). (* the debug analysis and what is cut from it *)

(** [{ success, data?, error? }] *)
Inductive result : Type :=
| Success (d : data)
| Failure (error : string).

(** What is sent to the renderer: the PROCESSING_EVENTS and the
    ["processing-status"] progress messages. *)
Inductive event : Type :=
| INITIAL_START
| NO_SCREENSHOTS
| API_KEY_INVALID
| INITIAL_SOLUTION_ERROR (payload : error + string)
| PROBLEM_EXTRACTED (problemInfo : value)
| SOLUTION_SUCCESS (d : data)
| DEBUG_START
| DEBUG_SUCCESS (d : data)
| DEBUG_ERROR (message : string)
| processing_status (message : string) (progress : nat).

(** What the properties observe of a run, in the order it happens. *)
Inductive entry : Type :=
| Sent (e : event)          (* mainWindow.webContents.send *)
| Issued (r : request)      (* a request put on the network *)
| Canceled (r : request)    (* a request rejected because its signal is aborted *)
| Aborted (c : nat).        (* controller.abort() *)

(** Modelled from the spec: the application state behind [deps] (view,
    problem info, has-debugged flag, main window), the screenshot collaborator
    (the two queues, the files on disk) and the config collaborator, none of
    which is part of the sources; next to them the fields of ProcessingHelper
    itself, the AbortControllers created so far and the log.  [mainWindow]
    tells whether [getMainWindow()] answers a window, [isDestroyed] what that
    window answers to [isDestroyed()], which only cancelOngoingRequests
    asks; the log holds the calls of [send], whatever the window does with
    them. *)
Record world : Type := World {
  (* deps *)
  view : view_t;
  problemInfo : value;          (* VNull: no problem info *)
  hasDebugged : bool;
  mainWindow : bool;
  isDestroyed : bool;           (* mainWindow.isDestroyed() *)
  (* screenshotHelper, fs, configHelper *)
  screenshotQueue : list string;
  extraScreenshotQueue : list string;
  files : list string;
  cfg : config;
  (* ProcessingHelper *)
  openaiClient : bool;
  geminiApiKey : option string;
  anthropicClient : bool;
  currentProcessingAbortController : option nat;
  currentExtraProcessingAbortController : option nat;
  (* the next fresh AbortController *)
  nextController : nat;
  (* latest entry first *)
  log : list entry
}.

Definition is_aborted (signal : nat) (w : world) : bool :=
  existsb (fun e => match e with Aborted c => c =? signal | _ => false end) (log w).

Fixpoint sent_of (l : list entry) : list event :=
  match l with
  | [] => []
  | Sent e :: l' => e :: sent_of l'
  | _ :: l' => sent_of l'
  end.

Fixpoint issued_of (l : list entry) : list request :=
  match l with
  | [] => []
  | Issued r :: l' => r :: issued_of l'
  | _ :: l' => issued_of l'
  end.

(** The events sent and the requests issued so far, latest first. *)
Definition sent (w : world) : list event := sent_of (log w).
Definition issued (w : world) : list request := issued_of (log w).

Definition set_view (v : view_t) (w : world) : world :=
  World v (problemInfo w) (hasDebugged w) (mainWindow w) (isDestroyed w) (screenshotQueue w)
    (extraScreenshotQueue w) (files w) (cfg w) (openaiClient w)
    (geminiApiKey w) (anthropicClient w) (currentProcessingAbortController w)
    (currentExtraProcessingAbortController w) (nextController w) (log w).

Definition set_problemInfo (p : value) (w : world) : world :=
  World (view w) p (hasDebugged w) (mainWindow w) (isDestroyed w) (screenshotQueue w)
    (extraScreenshotQueue w) (files w) (cfg w) (openaiClient w)
    (geminiApiKey w) (anthropicClient w) (currentProcessingAbortController w)
    (currentExtraProcessingAbortController w) (nextController w) (log w).

Definition set_hasDebugged (b : bool) (w : world) : world :=
  World (view w) (problemInfo w) b (mainWindow w) (isDestroyed w) (screenshotQueue w)
    (extraScreenshotQueue w) (files w) (cfg w) (openaiClient w)
    (geminiApiKey w) (anthropicClient w) (currentProcessingAbortController w)
    (currentExtraProcessingAbortController w) (nextController w) (log w).

Definition clear_extraScreenshotQueue (w : world) : world :=
  World (view w) (problemInfo w) (hasDebugged w) (mainWindow w) (isDestroyed w) (screenshotQueue w)
    [] (files w) (cfg w) (openaiClient w)
    (geminiApiKey w) (anthropicClient w) (currentProcessingAbortController w)
    (currentExtraProcessingAbortController w) (nextController w) (log w).

Definition set_clients (o : bool) (g : option string) (a : bool) (w : world) : world :=
  World (view w) (problemInfo w) (hasDebugged w) (mainWindow w) (isDestroyed w) (screenshotQueue w)
    (extraScreenshotQueue w) (files w) (cfg w) o g a
    (currentProcessingAbortController w)
    (currentExtraProcessingAbortController w) (nextController w) (log w).

Definition set_processing (c : option nat) (w : world) : world :=
  World (view w) (problemInfo w) (hasDebugged w) (mainWindow w) (isDestroyed w) (screenshotQueue w)
    (extraScreenshotQueue w) (files w) (cfg w) (openaiClient w)
    (geminiApiKey w) (anthropicClient w) c
    (currentExtraProcessingAbortController w) (nextController w) (log w).

Definition set_extraProcessing (c : option nat) (w : world) : world :=
  World (view w) (problemInfo w) (hasDebugged w) (mainWindow w) (isDestroyed w) (screenshotQueue w)
    (extraScreenshotQueue w) (files w) (cfg w) (openaiClient w)
    (geminiApiKey w) (anthropicClient w) (currentProcessingAbortController w)
    c (nextController w) (log w).

(** [new AbortController()] takes the next fresh identity. *)
Definition fresh_controller (w : world) : world :=
  World (view w) (problemInfo w) (hasDebugged w) (mainWindow w) (isDestroyed w) (screenshotQueue w)
    (extraScreenshotQueue w) (files w) (cfg w) (openaiClient w)
    (geminiApiKey w) (anthropicClient w) (currentProcessingAbortController w)
    (currentExtraProcessingAbortController w) (S (nextController w)) (log w).

Definition record (e : entry) (w : world) : world :=
  World (view w) (problemInfo w) (hasDebugged w) (mainWindow w) (isDestroyed w) (screenshotQueue w)
    (extraScreenshotQueue w) (files w) (cfg w) (openaiClient w)
    (geminiApiKey w) (anthropicClient w) (currentProcessingAbortController w)
    (currentExtraProcessingAbortController w) (nextController w) (e :: log w).

(** [controller.abort()] *)
Definition abort (c : nat) : world -> world := record (Aborted c).

(** [mainWindow.webContents.send(...)] *)
Definition send (e : event) : world -> world := record (Sent e).

Definition issue (r : request) : world -> world := record (Issued r).

Definition cancel (r : request) : world -> world := record (Canceled r).

End App.

(* ===================================================================== *)
(** ** Asynchronous methods as resumptions *)
(* ===================================================================== *)

Module Async.
Import Js App.

(** An [async] method: synchronous reads and writes of the state, and the
    three places where it is suspended: a provider request, the polling of
    the window for the language, and the loading of the screenshots. *)
Inductive async (A : Type) : Type :=
| Ret (a : A)
| Raise (e : error)
| Get (k : world -> async A)
| Modify (f : world -> world) (k : async A)
| AwaitRequest (r : request) (k : completion response -> async A)
| AwaitLanguage (k : string -> async A)
| AwaitScreenshots (paths : list string) (k : list (option string) -> async A).
Arguments Ret {A} a.
Arguments Raise {A} e.
Arguments Get {A} k.
Arguments Modify {A} f k.
Arguments AwaitRequest {A} r k.
Arguments AwaitLanguage {A} k.
Arguments AwaitScreenshots {A} paths k.

Fixpoint abind {A B : Type} (p : async A) (f : A -> async B) : async B :=
  match p with
  | Ret a => f a
  | Raise e => Raise e
  | Get k => Get (fun w => abind (k w) f)
  | Modify g k => Modify g (abind k f)
  | AwaitRequest r k => AwaitRequest r (fun x => abind (k x) f)
  | AwaitLanguage k => AwaitLanguage (fun x => abind (k x) f)
  | AwaitScreenshots ps k => AwaitScreenshots ps (fun x => abind (k x) f)
  end.

#[export] Instance Monad_async : Monad async :=
  {| ret := @Ret; bind := @abind |}.

(** [try { p } catch (e) { h e }] *)
Fixpoint try_catch {A : Type} (p : async A) (h : error -> async A) : async A :=
  match p with
  | Ret a => Ret a
  | Raise e => h e
  | Get k => Get (fun w => try_catch (k w) h)
  | Modify g k => Modify g (try_catch k h)
  | AwaitRequest r k => AwaitRequest r (fun x => try_catch (k x) h)
  | AwaitLanguage k => AwaitLanguage (fun x => try_catch (k x) h)
  | AwaitScreenshots ps k => AwaitScreenshots ps (fun x => try_catch (k x) h)
  end.

(** [try { p } finally { f }] for a [finally] block that only writes the
    state. *)
Fixpoint finally {A : Type} (p : async A) (f : world -> world) : async A :=
  match p with
  | Ret a => Modify f (Ret a)
  | Raise e => Modify f (Raise e)
  | Get k => Get (fun w => finally (k w) f)
  | Modify g k => Modify g (finally k f)
  | AwaitRequest r k => AwaitRequest r (fun x => finally (k x) f)
  | AwaitLanguage k => AwaitLanguage (fun x => finally (k x) f)
  | AwaitScreenshots ps k => AwaitScreenshots ps (fun x => finally (k x) f)
  end.

Definition read {A : Type} (f : world -> A) : async A := Get (fun w => Ret (f w)).
Definition write (f : world -> world) : async unit := Modify f (Ret tt).

(** [await] of a request: the rejection of the promise is thrown. *)
Definition await (r : request) : async response :=
  AwaitRequest r (fun x => match x with Normal v => Ret v | Throw e => Raise e end).

(** A synchronous computation inside an asynchronous method. *)
Definition lift {A : Type} (c : completion A) : async A :=
  match c with Normal a => Ret a | Throw e => Raise e end.

(** The error a request rejects with when its signal is aborted
    ([axios.isCancel] holds of it). *)
Definition canceled : error := Error "CanceledError" "canceled" true None None.

(** Modelled from the spec: the transport (axios and the two SDK clients are
    not part of the sources).  A request that carries a signal honours it:
    it is not put on the network when the signal is already aborted, and it
    rejects with [canceled] when the signal is aborted while it is pending.
    A request without a signal is always put on the network and settles as
    the provider decides. *)
Definition refused (r : request) (w : world) : bool :=
  match req_signal r with
  | Some s => is_aborted s w
  | None => false
  end.

Definition settle (r : request) (w : world) (x : completion response)
  : completion response * world :=
  if refused r w then (Throw canceled, cancel r w) else (x, w).

End Async.

(* ===================================================================== *)
(** ** The orchestrator (ProcessingHelper) *)
(* ===================================================================== *)

Module Orchestrator.
Import JsString Regex Js App Async ResponseParser Mcq QuestionSet.

Definition is_some {A : Type} (o : option A) : bool :=
  match o with Some _ => true | None => false end.

(** [error.message || fallback] *)
Definition message_or (e : error) (fallback : string) : string :=
  if nonempty (message e) then message e else fallback.

Definition status_is (n : nat) (o : option nat) : bool :=
  match o with Some k => k =? n | None => false end.

(** [if (mainWindow) mainWindow.webContents.send(...)] *)
Definition notify (e : event) : async unit :=
  present <- read mainWindow ;;
  if present : bool then write (send e) else ret tt.

(** [response.choices[0].message.content] and its like: the first candidate
    text. *)
Definition first_text (r : response) : completion (option string) :=
  match r with
  | [] => Throw (TypeError "Cannot read properties of undefined")
  | text :: _ => Normal text
  end.

(** The Gemini branches check the candidates first. *)
Definition first_candidate (r : response) : completion (option string) :=
  match r with
  | [] => Throw (new_Error "Empty response from Gemini API")
  | text :: _ => Normal text
  end.

(** A method call on a text that may be [null] or [undefined]. *)
Definition text_of (o : option string) : completion string :=
  match o with
  | Some s => Normal s
  | None => Throw (TypeError "Cannot read properties of undefined (reading 'match')")
  end.

Definition initializeAIClient : async unit :=
  config <- read cfg ;;
  let key := nonempty (apiKey config) in
  match apiProvider config with
  | openai => write (set_clients key None false)
  | gemini => write (set_clients false (if key then Some (apiKey config) else None) false)
  | anthropic => write (set_clients false None key)
  | unknown_provider => write (set_clients false None false)
  end.

(** The language of the config, else the one the window reports (a
    suspension), else python. *)
Definition getLanguage : async string :=
  config <- read cfg ;;
  if nonempty (language config) then ret (language config)
  else
    present <- read mainWindow ;;
    if present : bool then AwaitLanguage (fun l => Ret l) else ret "python".

(** The client check at the head of processScreenshots. *)
Definition client_missing (p : provider) (w : world) : bool :=
  match p with
  | openai => negb (openaiClient w)
  | gemini => negb (is_some (geminiApiKey w))
  | anthropic => negb (anthropicClient w)
  | unknown_provider => false
  end.

Definition anthropicFailure (stageMessage : string) (e : error) : result :=
  if status_is 429 (status e) then
    Failure "Claude API rate limit exceeded. Please wait a few minutes before trying again."
  else if status_is 413 (status e) || includes "token" (message e) then
    Failure "Your screenshots contain too much information for Claude to process. Switch to OpenAI or Gemini in settings which can handle larger inputs."
  else Failure stageMessage.

(** The reads of generateMCQSolutionCode that can throw; the text it builds
    is not modelled. *)
Definition generateMCQSolutionCode (parsedResponse : value) : completion unit :=
  answers <- get parsedResponse "answers" ;;
  match answers with
  | VArr elems _ =>
      _ <- forEach (fun answer _ => _ <- get answer "question_number" ;; ret answer) elems 0 ;;
      ret tt
  | _ => ret tt
  end.

Section WithRegExp.

Variable RegExp_i : string -> completion regex.

Definition handleMCQResponse (problemInfo : value) (signal : nat) : async result :=
  try_catch
    (config <- read cfg ;;
     notify (processing_status "Analyzing MCQ questions and generating answers..." 60) ;;
     _ <- lift (get problemInfo "questions") ;;
     let finish (responseContent : option string) : async result :=
       parsedResponse <- lift (parseMCQResponse responseContent problemInfo) ;;
       _ <- lift (generateMCQSolutionCode parsedResponse) ;;
       ret (Success (McqData parsedResponse)) in
     match apiProvider config with
     | openai =>
         client <- read openaiClient ;;
         if negb client then
           ret (Failure "OpenAI API key not configured. Please check your settings.")
         else
           response <- await (Request openai McqAnswers None) ;;
           responseContent <- lift (first_text response) ;;
           finish responseContent
     | gemini =>
         key <- read geminiApiKey ;;
         if negb (is_some key) then
           ret (Failure "Gemini API key not configured. Please check your settings.")
         else
           r <- try_catch
                  (response <- await (Request gemini McqAnswers (Some signal)) ;;
                   responseContent <- lift (first_candidate response) ;;
                   ret (inl responseContent))
                  (fun _ => ret (inr (Failure "Failed to process with Gemini API. Please check your API key or try again later."))) ;;
           match r with
           | inl responseContent => finish responseContent
           | inr failure => ret failure
           end
     | anthropic =>
         client <- read anthropicClient ;;
         if negb client then
           ret (Failure "Anthropic API key not configured. Please check your settings.")
         else
           r <- try_catch
                  (response <- await (Request anthropic McqAnswers None) ;;
                   responseContent <- lift (first_text response) ;;
                   ret (inl responseContent))
                  (fun e =>
                     if status_is 429 (status e) then
                       ret (inr (Failure "Claude API rate limit exceeded. Please wait a few minutes before trying again."))
                     else
                       ret (inr (Failure "Failed to process with Anthropic API. Please check your API key or try again later."))) ;;
           match r with
           | inl responseContent => finish responseContent
           | inr failure => ret failure
           end
     | unknown_provider => finish None
     end)
    (fun e => ret (Failure (message_or e "Failed to process MCQ questions"))).

Definition generateMCQSolution (signal : nat) : async result :=
  problemInfo <- read problemInfo ;;
  if negb (truthy problemInfo) then
    ret (Failure "No MCQ problem information available")
  else handleMCQResponse problemInfo signal.

Definition generateSolutionsHelper (signal : nat) : async result :=
  try_catch
    (config <- read cfg ;;
     match mode config with
     | mcq => generateMCQSolution signal
     | coding =>
         problemInfo <- read problemInfo ;;
         language <- getLanguage ;;
         if negb (truthy problemInfo) then Raise (new_Error "No problem info available")
         else
           notify (processing_status "Creating optimal solution with detailed explanations..." 60) ;;
           let finish (responseContent : option string) : async result :=
             text <- lift (text_of responseContent) ;;
             ret (Success (SolutionData (formattedResponse text))) in
           match apiProvider config with
           | openai =>
               client <- read openaiClient ;;
               if negb client then
                 ret (Failure "OpenAI API key not configured. Please check your settings.")
               else
                 solutionResponse <- await (Request openai Synthesis None) ;;
                 responseContent <- lift (first_text solutionResponse) ;;
                 finish responseContent
           | gemini =>
               key <- read geminiApiKey ;;
               if negb (is_some key) then
                 ret (Failure "Gemini API key not configured. Please check your settings.")
               else
                 r <- try_catch
                        (response <- await (Request gemini Synthesis (Some signal)) ;;
                         responseContent <- lift (first_candidate response) ;;
                         ret (inl responseContent))
                        (fun _ => ret (inr (Failure "Failed to generate solution with Gemini API. Please check your API key or try again later."))) ;;
                 match r with
                 | inl responseContent => finish responseContent
                 | inr failure => ret failure
                 end
           | anthropic =>
               client <- read anthropicClient ;;
               if negb client then
                 ret (Failure "Anthropic API key not configured. Please check your settings.")
               else
                 r <- try_catch
                        (response <- await (Request anthropic Synthesis None) ;;
                         responseContent <- lift (first_text response) ;;
                         ret (inl responseContent))
                        (fun e => ret (inr (anthropicFailure "Failed to generate solution with Anthropic API. Please check your API key or try again later." e))) ;;
                 match r with
                 | inl responseContent => finish responseContent
                 | inr failure => ret failure
                 end
           | unknown_provider => finish None
           end
     end)
    (fun e =>
       if isCancel e then ret (Failure "Processing was canceled by the user.")
       else if status_is 401 (response_status e) then
         ret (Failure "Invalid OpenAI API key. Please check your settings.")
       else if status_is 429 (response_status e) then
         ret (Failure "OpenAI API rate limit exceeded or insufficient credits. Please try again later.")
       else ret (Failure (message_or e "Failed to generate solution"))).

(** The extraction text of the OpenAI branch, from the response to the
    problem info (the inner [try] block). *)
Definition extractProblemInfo_openai (isMCQ : bool) (response : response)
  : completion value :=
  responseText <- first_text response ;;
  text <- text_of responseText ;;
  problemInfo <- parseProblemInfo_openai text ;;
  if isMCQ then validateAndFixMCQFormat RegExp_i problemInfo text else ret problemInfo.

Definition extractProblemInfo_gemini (isMCQ : bool) (response : response)
  : completion value :=
  responseText <- first_candidate response ;;
  text <- text_of responseText ;;
  problemInfo <- parseProblemInfo_gemini text ;;
  if isMCQ then validateAndFixMCQFormat RegExp_i problemInfo text else ret problemInfo.

Definition extractProblemInfo_anthropic (response : response) : completion value :=
  responseText <- first_text response ;;
  text <- text_of responseText ;;
  parseProblemInfo_anthropic text.

Definition processScreenshotsHelper (screenshots : list string) (signal : nat)
  : async result :=
  try_catch
    (config <- read cfg ;;
     let isMCQ := match mode config with mcq => true | coding => false end in
     language <- getLanguage ;;
     present <- read mainWindow ;;
     (if present : bool then
        write (send (processing_status
                       (if isMCQ then "Analyzing MCQ questions from screenshots..."
                        else "Analyzing problem from screenshots...") 20))
      else ret tt) ;;
     extraction <-
       match apiProvider config with
       | openai =>
           client <- read openaiClient ;;
           client <- (if client : bool then ret true
                      else initializeAIClient ;; read openaiClient) ;;
           if negb client then
             ret (inr (Failure "OpenAI API key not configured or invalid. Please check your settings."))
           else
             extractionResponse <- await (Request openai Extraction None) ;;
             match extractProblemInfo_openai isMCQ extractionResponse with
             | Normal problemInfo => ret (inl problemInfo)
             | Throw _ =>
                 ret (inr (Failure "Failed to parse problem information. Please try again or use clearer screenshots."))
             end
       | gemini =>
           key <- read geminiApiKey ;;
           if negb (is_some key) then
             ret (inr (Failure "Gemini API key not configured. Please check your settings."))
           else
             try_catch
               (response <- await (Request gemini Extraction (Some signal)) ;;
                problemInfo <- lift (extractProblemInfo_gemini isMCQ response) ;;
                ret (inl problemInfo))
               (fun _ => ret (inr (Failure "Failed to process with Gemini API. Please check your API key or try again later.")))
       | anthropic =>
           client <- read anthropicClient ;;
           if negb client then
             ret (inr (Failure "Anthropic API key not configured. Please check your settings."))
           else
             try_catch
               (response <- await (Request anthropic Extraction None) ;;
                problemInfo <- lift (extractProblemInfo_anthropic response) ;;
                ret (inl problemInfo))
               (fun e => ret (inr (anthropicFailure "Failed to process with Anthropic API. Please check your API key or try again later." e)))
       | unknown_provider => ret (inl VUndefined)
       end ;;
     match extraction with
     | inr failure => ret failure
     | inl problemInfo =>
         (if present : bool then
            write (send (processing_status
                           (if isMCQ then "MCQ questions analyzed successfully. Preparing to generate answers..."
                            else "Problem analyzed successfully. Preparing to generate solution...") 40))
          else ret tt) ;;
         write (set_problemInfo problemInfo) ;;
         if present : bool then
           write (send (PROBLEM_EXTRACTED problemInfo)) ;;
           if isMCQ then
             mcqResult <- handleMCQResponse problemInfo signal ;;
             match mcqResult with
             | Success d =>
                 write clear_extraScreenshotQueue ;;
                 write (send (processing_status "MCQ analysis completed successfully" 100)) ;;
                 write (send (SOLUTION_SUCCESS d)) ;;
                 ret (Success d)
             | Failure error =>
                 Raise (new_Error (if nonempty error then error
                                   else "Failed to analyze MCQ questions"))
             end
           else
             solutionsResult <- generateSolutionsHelper signal ;;
             match solutionsResult with
             | Success d =>
                 write clear_extraScreenshotQueue ;;
                 write (send (processing_status "Solution generated successfully" 100)) ;;
                 write (send (SOLUTION_SUCCESS d)) ;;
                 ret (Success d)
             | Failure error =>
                 Raise (new_Error (if nonempty error then error
                                   else "Failed to generate solutions"))
             end
         else ret (Failure "Failed to process screenshots")
     end)
    (fun e =>
       if isCancel e then ret (Failure "Processing was canceled by the user.")
       else if status_is 401 (response_status e) then
         ret (Failure "Invalid OpenAI API key. Please check your settings.")
       else if status_is 429 (response_status e) then
         ret (Failure "OpenAI API rate limit exceeded or insufficient credits. Please try again later.")
       else if status_is 500 (response_status e) then
         ret (Failure "OpenAI server error. Please try again later.")
       else ret (Failure (message_or e "Failed to process screenshots. Please try again."))).

Definition processExtraScreenshotsHelper (screenshots : list string) (signal : nat)
  : async result :=
  try_catch
    (problemInfo <- read problemInfo ;;
     language <- getLanguage ;;
     config <- read cfg ;;
     present <- read mainWindow ;;
     let status (message : string) (progress : nat) : async unit :=
       if present : bool then write (send (processing_status message progress))
       else ret tt in
     if negb (truthy problemInfo) then Raise (new_Error "No problem info available")
     else
       status "Processing debug screenshots and text inputs..." 30 ;;
       debug <-
         match apiProvider config with
         | openai =>
             client <- read openaiClient ;;
             if negb client then
               ret (inr (Failure "OpenAI API key not configured. Please check your settings."))
             else
               status "Analyzing code and generating debug feedback..." 60 ;;
               debugResponse <- await (Request openai Debugging None) ;;
               debugContent <- lift (first_text debugResponse) ;;
               ret (inl debugContent)
         | gemini =>
             key <- read geminiApiKey ;;
             if negb (is_some key) then
               ret (inr (Failure "Gemini API key not configured. Please check your settings."))
             else
               try_catch
                 (status "Analyzing code and generating debug feedback with Gemini..." 60 ;;
                  response <- await (Request gemini Debugging (Some signal)) ;;
                  debugContent <- lift (first_candidate response) ;;
                  ret (inl debugContent))
                 (fun _ => ret (inr (Failure "Failed to process debug request with Gemini API. Please check your API key or try again later.")))
         | anthropic =>
             client <- read anthropicClient ;;
             if negb client then
               ret (inr (Failure "Anthropic API key not configured. Please check your settings."))
             else
               try_catch
                 (status "Analyzing code and generating debug feedback with Claude..." 60 ;;
                  response <- await (Request anthropic Debugging None) ;;
                  debugContent <- lift (first_text response) ;;
                  ret (inl debugContent))
                 (fun e => ret (inr (anthropicFailure "Failed to process debug request with Anthropic API. Please check your API key or try again later." e)))
         | unknown_provider => ret (inl None)
         end ;;
       match debug with
       | inr failure => ret failure
       | inl debugContent =>
           status "Debug analysis complete" 100 ;;
           text <- lift (text_of debugContent) ;;
           ret (Success (DebugData text))
       end)
    (fun e => ret (Failure (message_or e "Failed to process debug request"))).

Definition existsSync (w : world) (path : string) : bool :=
  existsb (String.eqb path) (files w).

(** [screenshots.filter(Boolean)], keeping the data of the loaded ones. *)
Fixpoint validScreenshots (screenshots : list (option string)) : list string :=
  match screenshots with
  | [] => []
  | Some d :: l => d :: validScreenshots l
  | None :: l => validScreenshots l
  end.

(** The branch of processScreenshots for the [queue] view. *)
Definition processMainQueue : async unit :=
  write (send INITIAL_START) ;;
  screenshotQueue <- read screenshotQueue ;;
  match screenshotQueue with
  | [] => write (send NO_SCREENSHOTS)
  | _ =>
      w <- Get (fun w => Ret w) ;;
      match filter (existsSync w) screenshotQueue with
      | [] => write (send NO_SCREENSHOTS)
      | existingScreenshots =>
          finally
            (try_catch
               (signal <- read nextController ;;
                write fresh_controller ;;
                write (set_processing (Some signal)) ;;
                screenshots <- AwaitScreenshots existingScreenshots (fun l => Ret l) ;;
                match validScreenshots screenshots with
                | [] => Raise (new_Error "Failed to load screenshot data")
                | valid =>
                    result <- processScreenshotsHelper valid signal ;;
                    match result with
                    | Failure error =>
                        (if includes "API Key" error || includes "OpenAI" error
                            || includes "Gemini" error
                         then write (send API_KEY_INVALID)
                         else write (send (INITIAL_SOLUTION_ERROR (inr error)))) ;;
                        write (set_view queue)
                    | Success d =>
                        write (send (SOLUTION_SUCCESS d)) ;;
                        write (set_view solutions)
                    end
                end)
               (fun e =>
                  write (send (INITIAL_SOLUTION_ERROR (inl e))) ;;
                  (if isCancel e then
                     write (send (INITIAL_SOLUTION_ERROR (inr "Processing was canceled by the user.")))
                   else
                     write (send (INITIAL_SOLUTION_ERROR
                                    (inr (message_or e "Server error. Please try again."))))) ;;
                  write (set_view queue)))
            (set_processing None)
      end
  end.

(** The branch of processScreenshots for the [solutions] view. *)
Definition processExtraQueue : async unit :=
  extraScreenshotQueue <- read extraScreenshotQueue ;;
  match extraScreenshotQueue with
  | [] => write (send NO_SCREENSHOTS)
  | _ =>
      w <- Get (fun w => Ret w) ;;
      match filter (existsSync w) extraScreenshotQueue with
      | [] => write (send NO_SCREENSHOTS)
      | existingExtraScreenshots =>
          write (send DEBUG_START) ;;
          signal <- read nextController ;;
          write fresh_controller ;;
          write (set_extraProcessing (Some signal)) ;;
          finally
            (try_catch
               (screenshotQueue <- read screenshotQueue ;;
                let allPaths := (screenshotQueue ++ existingExtraScreenshots)%list in
                screenshots <- AwaitScreenshots allPaths (fun l => Ret l) ;;
                match validScreenshots screenshots with
                | [] => Raise (new_Error "Failed to load screenshot data for debugging")
                | valid =>
                    result <- processExtraScreenshotsHelper valid signal ;;
                    match result with
                    | Success d =>
                        write (set_hasDebugged true) ;;
                        write (send (DEBUG_SUCCESS d))
                    | Failure error => write (send (DEBUG_ERROR error))
                    end
                end)
               (fun e =>
                  if isCancel e then
                    write (send (DEBUG_ERROR "Extra processing was canceled by the user."))
                  else write (send (DEBUG_ERROR (message e)))))
            (set_extraProcessing None)
      end
  end.

Definition processScreenshots : async unit :=
  present <- read mainWindow ;;
  if negb present then ret tt
  else
    config <- read cfg ;;
    missing <- read (client_missing (apiProvider config)) ;;
    missing <- (if missing : bool then
                  initializeAIClient ;; read (client_missing (apiProvider config))
                else ret false) ;;
    if missing : bool then write (send API_KEY_INVALID)
    else
      view <- read view ;;
      match view with
      | queue => processMainQueue
      | solutions => processExtraQueue
      end.

End WithRegExp.

Definition cancelOngoingRequests : async unit :=
  processing <- read currentProcessingAbortController ;;
  a <- match processing with
       | Some c => write (abort c) ;; write (set_processing None) ;; ret true
       | None => ret false
       end ;;
  extra <- read currentExtraProcessingAbortController ;;
  b <- match extra with
       | Some c => write (abort c) ;; write (set_extraProcessing None) ;; ret true
       | None => ret false
       end ;;
  let wasCancelled := a || b in
  write (set_hasDebugged false) ;;
  write (set_problemInfo VNull) ;;
  present <- read mainWindow ;;
  destroyed <- read isDestroyed ;;
  if wasCancelled && present && negb destroyed then write (send NO_SCREENSHOTS)
  else ret tt.

End Orchestrator.

(* ===================================================================== *)
(** ** Running the methods

    JavaScript runs a method to its next suspension without interruption;
    while it is suspended the provider, the window and the user act. *)
(* ===================================================================== *)

Module Runtime.
Import Js App Async Orchestrator.

(** A method between two turns of the event loop. *)
Inductive task (A : Type) : Type :=
| Finished (c : completion A)
| Pending (r : request) (k : completion response -> async A)
| PendingLanguage (k : string -> async A)
| PendingScreenshots (paths : list string) (k : list (option string) -> async A).
Arguments Finished {A} c.
Arguments Pending {A} r k.
Arguments PendingLanguage {A} k.
Arguments PendingScreenshots {A} paths k.

(** Run [p] up to its next suspension.  A request whose signal is already
    aborted is rejected without reaching the network; any other request is
    issued. *)
Fixpoint turn {A : Type} (p : async A) (w : world) : task A * world :=
  match p with
  | Ret a => (Finished (Normal a), w)
  | Raise e => (Finished (Throw e), w)
  | Get k => turn (k w) w
  | Modify f k => turn k (f w)
  | AwaitRequest r k =>
      if refused r w then turn (k (Throw canceled)) (cancel r w)
      else (Pending r k, issue r w)
  | AwaitLanguage k => (PendingLanguage k, w)
  | AwaitScreenshots paths k => (PendingScreenshots paths k, w)
  end.

(** A synchronous method is over after one turn. *)
Definition call {A : Type} (p : async A) (w : world) : world := snd (turn p w).

(** *** One run, with the environment given in advance

    What happens during the [n]-th suspension of the run: whether the user
    cancels (cancelOngoingRequests), and what the suspension resumes with. *)
Record oracle : Type := Oracle {
  cancels : nat -> bool;
  reply : nat -> completion response;
  window_language : nat -> string;
  loaded : nat -> list (option string)
}.

Definition interfere (o : oracle) (n : nat) (w : world) : world :=
  if cancels o n then call cancelOngoingRequests w else w.

(** How a run ends: what it returns or throws, the suspensions it went
    through and the state it leaves. *)
Record outcome (A : Type) : Type := Outcome {
  returned : completion A;
  suspensions : nat;
  final : world
}.
Arguments Outcome {A} returned suspensions final.
Arguments returned {A} o.
Arguments suspensions {A} o.
Arguments final {A} o.

Fixpoint run {A : Type} (p : async A) (o : oracle) (n : nat) (w : world)
  : outcome A :=
  match p with
  | Ret a => Outcome (Normal a) n w
  | Raise e => Outcome (Throw e) n w
  | Get k => run (k w) o n w
  | Modify f k => run k o n (f w)
  | AwaitRequest r k =>
      if refused r w then run (k (Throw canceled)) o n (cancel r w)
      else
        let xw := settle r (interfere o n (issue r w)) (reply o n) in
        run (k (fst xw)) o (S n) (snd xw)
  | AwaitLanguage k =>
      run (k (window_language o n)) o (S n) (interfere o n w)
  | AwaitScreenshots paths k =>
      run (k (loaded o n)) o (S n) (interfere o n w)
  end.

(** *** Several invocations in flight *)

(** What the event loop takes next: an invocation of one of the two public
    methods, or the resumption of the suspended invocation number [i]. *)
Inductive action : Type :=
| Invoke_processScreenshots
| Invoke_cancelOngoingRequests
| Respond (i : nat) (x : completion response)
| Language (i : nat) (l : string)
| Loaded (i : nat) (l : list (option string)).

Record system : Type := System {
  invocations : list (task unit);     (* in the order they were made *)
  state : world
}.

Fixpoint replace_nth {A : Type} (i : nat) (x : A) (l : list A) : list A :=
  match l, i with
  | [], _ => []
  | _ :: l', 0 => x :: l'
  | y :: l', S i' => y :: replace_nth i' x l'
  end.

Section WithRegExp.

Variable RegExp_i : string -> completion Regex.regex.

Definition resume (i : nat) (sys : system) (p : async unit) : system :=
  let (t, w) := turn p (state sys) in
  System (replace_nth i t (invocations sys)) w.

Definition step (sys : system) (a : action) : system :=
  match a with
  | Invoke_processScreenshots =>
      let (t, w) := turn (processScreenshots RegExp_i) (state sys) in
      System (invocations sys ++ [t])%list w
  | Invoke_cancelOngoingRequests =>
      System (invocations sys) (call cancelOngoingRequests (state sys))
  | Respond i x =>
      match nth_error (invocations sys) i with
      | Some (Pending r k) =>
          let xw := settle r (state sys) x in
          resume i (System (invocations sys) (snd xw)) (k (fst xw))
      | _ => sys
      end
  | Language i l =>
      match nth_error (invocations sys) i with
      | Some (PendingLanguage k) => resume i sys (k l)
      | _ => sys
      end
  | Loaded i l =>
      match nth_error (invocations sys) i with
      | Some (PendingScreenshots _ k) => resume i sys (k l)
      | _ => sys
      end
  end.

Definition steps (sys : system) (script : list action) : system :=
  fold_left step script sys.

End WithRegExp.

End Runtime.

(* DEFINITIONS END *)

(* ===================================================================== *)
(** * What the specification asks of the program *)
(* ===================================================================== *)

Module TextProperties.
Import JsString Regex Js ResponseParser Mcq QuestionSet.

(** No closing fence starts inside [body]: the first three backticks of
    [body] followed by a fence are the fence itself. *)
Definition fence_free (body : string) : Prop :=
  forall j, j < String.length body -> startsWith "```" (drop j (body ++ "```")) = false.

(** The option-key rule in the words of the specification: the digits 1 to 4
    become the letters A to D, the lowercase letters a to d are upper-cased,
    and every other key is left as it is. *)
Definition keyRule (key : string) : string :=
  match key with
  | "1" => "A" | "2" => "B" | "3" => "C" | "4" => "D"
  | "a" => "A" | "b" => "B" | "c" => "C" | "d" => "D"
  | _ => key
  end.

(** [v.k] where the read cannot throw. *)
Definition prop (k : string) (v : value) : value :=
  match get v k with Normal x => x | Throw _ => VUndefined end.

(** What the specification asks of the answer [a'] that stands where [a]
    stood, [q] being the question of the same index: a missing question text
    and missing options are taken from [q], everything else is kept, and
    without a question the answer is left alone. *)
Definition backfilled (q a a' : value) : Prop :=
  if truthy q then
    prop "question_text" a' =
      (if truthy (prop "question_text" a) then prop "question_text" a
       else or_else (prop "question_text" q) (VStr "")) /\
    prop "options" a' =
      (if truthy (prop "options" a) then prop "options" a
       else if truthy (prop "options" q) then prop "options" q
       else prop "options" a) /\
    (forall k, k <> "question_text" -> k <> "options" -> prop k a' = prop k a)
  else a' = a.

(** The object has an [answers] member that is an array. *)
Definition has_answers (props : list (string * value)) : Prop :=
  exists elems ps, lookup "answers" props = Some (VArr elems ps).

(** A continuation of the matcher that never reports an end before the place
    it was entered at. *)
Definition forward (k : cont) : Prop :=
  forall i s c e c', k i s c = Some (e, c') -> i <= e.

End TextProperties.

(** Texts that the provider can answer with. *)
Module Texts.
Import JsString.

Definition sortFirst : string := "Time complexity: O(n log n) because we sort first.".

(** A JSON text whose only member holds three backticks. *)
Definition backticksInside : string :=
  "{" ++ DQ ++ "a" ++ DQ ++ ":" ++ DQ ++ "```" ++ DQ ++ "}".

Definition emptyObject : string := "{}".

Definition member (key text : string) : string :=
  DQ ++ key ++ DQ ++ ":" ++ DQ ++ text ++ DQ.

Definition extractionText : string :=
  "{" ++ member "problem_statement" "Sum two numbers" ++ "}".

Definition otherExtractionText : string :=
  "{" ++ member "problem_statement" "Reverse a list" ++ "}".

Definition synthesisText : string :=
  "```python" ++ LF ++ "print(1)" ++ LF ++ "```" ++ LF
    ++ "Time complexity: O(1) - constant" ++ LF
    ++ "Space complexity: O(1) - constant" ++ LF.

End Texts.

Module RunProperties.
Import JsString Js App Async Orchestrator Runtime.



(** The requests rejected by cancellation so far. *)
Fixpoint cancellations (l : list entry) : nat :=
  match l with
  | [] => 0
  | Canceled _ :: l' => S (cancellations l')
  | _ :: l' => cancellations l'
  end.

Definition canceled_in (w : world) : nat := cancellations (log w).

(** The entries recorded after controller [c] was aborted ([l] is a log,
    latest entry first). *)
Fixpoint since_abort (c : nat) (l : list entry) : list entry :=
  match l with
  | [] => []
  | Aborted c' :: l' => if c' =? c then [] else Aborted c' :: since_abort c l'
  | e :: l' => e :: since_abort c l'
  end.

(** What a stage owes its caller: it leaves the view alone, and once one of
    its requests is rejected by cancellation it returns a failure whose text
    names the provider. *)
Definition stage_post (w : world) (r : outcome result) : Prop :=
  view (final r) = view w /\
  canceled_in w <= canceled_in (final r) /\
  (canceled_in w < canceled_in (final r) ->
   exists error, returned r = Normal (Failure error) /\ includes "Gemini" error = true).

Definition stage_spec (p : async result) : Prop :=
  forall o n w, stage_post w (run p o n w).

End RunProperties.

(** Sessions, environments and schedules used as concrete inputs. *)
Module Examples.
Import JsString Js App Async Orchestrator Runtime Texts.

(** A session on the [queue] view with one screenshot on disk, a configured
    provider and no problem extracted yet. *)
Definition session (p : provider) (m : mode_t) (lang : string) : world :=
  {| view := queue; problemInfo := VNull; hasDebugged := false; mainWindow := true; isDestroyed := false;
     screenshotQueue := ["shot-1.png"]; extraScreenshotQueue := [];
     files := ["shot-1.png"];
     cfg := {| apiProvider := p; apiKey := "key"; mode := m; language := lang |};
     openaiClient := match p with openai => true | _ => false end;
     geminiApiKey := match p with gemini => Some "key" | _ => None end;
     anthropicClient := match p with anthropic => true | _ => false end;
     currentProcessingAbortController := None;
     currentExtraProcessingAbortController := None;
     nextController := 0;
     log := [] |}.


(** The window reports the language (suspensions 1 and 3), the provider
    answers the extraction (suspension 2) and the synthesis (suspension 4),
    and the user cancels during suspension 3: after the extraction stage is
    over and before the synthesis stage issues its request. *)
Definition cancel_between_stages : oracle :=
  {| cancels := fun n => n =? 3;
     reply := fun n => if n =? 2 then Normal [Some extractionText]
                       else Normal [Some synthesisText];
     window_language := fun _ => "python";
     loaded := fun _ => [Some "base64"] |}.

(** Nobody cancels and every request is rejected by the network. *)
Definition provider_down : oracle :=
  {| cancels := fun _ => false;
     reply := fun _ => Throw (new_Error "Network Error");
     window_language := fun _ => "python";
     loaded := fun _ => [Some "base64"] |}.

(** The first run is started and its extraction request is in flight. *)
Definition first_in_flight : list action :=
  [Invoke_processScreenshots; Loaded 0 [Some "base64"]].

(** Then a second run is started; it is answered first (extraction, then
    synthesis), and the answer to the first run's extraction arrives last. *)
Definition second_overtakes : list action :=
  [Invoke_processScreenshots; Loaded 1 [Some "base64"];
   Respond 1 (Normal [Some extractionText]);
   Respond 1 (Normal [Some synthesisText]);
   Respond 0 (Normal [Some otherExtractionText])].

End Examples.

(* ===================================================================== *)
(** * The rest of the helper

    The window polling of waitForInitialization, getCredits and getLanguage,
    the data cut from a debug analysis, and the notions in which the
    further properties of the stages and of the texts are stated. *)
(* ===================================================================== *)

(** ** Polling the window (waitForInitialization, getCredits, getLanguage)

    What [mainWindow.webContents.executeJavaScript] answers is given in
    advance: [answers n] is the settlement of the [n]-th call.  A method
    returns its completion together with the number of the next call.  The
    [getLanguage] of the orchestrator sums this polling up in one suspension
    that resumes with a string; here the reads are taken one by one. *)

Module Window.
Import JsString Js.

Definition answers : Type := nat -> completion value.

Definition maxAttempts : nat := 50.

Definition timeout : error := new_Error "App failed to initialize after 5 seconds".

(** The [while (attempts < maxAttempts)] loop, [remaining] being
    [maxAttempts - attempts]. *)
Fixpoint poll (remaining : nat) (window : answers) (call : nat)
  : completion unit * nat :=
  match remaining with
  | 0 => (Throw timeout, call)
  | S remaining' =>
      match window call with
      | Throw e => (Throw e, S call)
      | Normal isInitialized =>
          if truthy isInitialized then (Normal tt, S call)
          else poll remaining' window (S call)
      end
  end.

Definition waitForInitialization (window : answers) (call : nat)
  : completion unit * nat :=
  poll maxAttempts window call.

(** [present] tells whether there is a main window. *)
Definition getCredits (present : bool) (window : answers) (call : nat) : nat * nat :=
  if negb present then (999, call)
  else
    match waitForInitialization window call with
    | (Normal _, call') => (999, call')
    | (Throw _, call') => (999, call')
    end.

Definition getLanguage (language : string) (present : bool) (window : answers)
    (call : nat) : string * nat :=
  if ResponseParser.nonempty language then (language, call)
  else if present then
    match waitForInitialization window call with
    | (Normal _, call') =>
        match window call' with
        | Normal (VStr l) => (l, S call')
        | _ => ("python", S call')
        end
    | (Throw _, call') => ("python", call')
    end
  else ("python", call).

(** The [i] answers from [call] on are all falsy. *)
Definition falsy_until (window : answers) (call i : nat) : Prop :=
  forall j, j < i -> exists u, window (call + j) = Normal u /\ truthy u = false.

End Window.

(** ** The data of a debug analysis (the tail of processExtraScreenshotsHelper) *)

Module DebugFormat.
Import JsString Regex Js ResponseParser.

(** [s.replace(r, by)] for a regular expression without the [g] flag and a
    replacement text without [$]. *)
Definition replace_first (r : regex) (by_ : string) (s : string) : string :=
  match exec r s with
  | Some mr => take (index mr) s ++ by_ ++ drop (lastIndex mr) s
  | None => s
  end.

Definition asciiLetter : list item := [Range "a" "z"; Range "A" "Z"].

Definition debugCodePattern : regex :=
  (lit "```" >>> Opt true (plus true (cls asciiLetter))
     >>> Grp 1 (Star false any) >>> lit "```")%re.

Definition extractedCode (debugContent : string) : string :=
  match exec debugCodePattern debugContent with
  | Some codeMatch =>
      match group 1 codeMatch with
      | Some body => if nonempty body then trim body
                     else "// Debug mode - see analysis below"
      | None => "// Debug mode - see analysis below"
      end
  | None => "// Debug mode - see analysis below"
  end.

Definition issuesHeading : regex :=
  (liti "issues identified" |+| liti "problems found" |+| liti "bugs found")%re.
Definition improvementsHeading : regex :=
  (liti "code improvements" |+| liti "improvements" |+| liti "suggested changes")%re.
Definition optimizationsHeading : regex :=
  (liti "optimizations" |+| liti "performance improvements")%re.
Definition explanationHeading : regex :=
  (liti "explanation" |+| liti "detailed analysis")%re.

Definition formattedDebugContent (debugContent : string) : string :=
  if negb (includes "# " debugContent) && negb (includes "## " debugContent) then
    replace_first explanationHeading "## Explanation"
      (replace_first optimizationsHeading "## Optimizations"
         (replace_first improvementsHeading "## Code Improvements"
            (replace_first issuesHeading "## Issues Identified" debugContent)))
  else debugContent.

Definition blank : regex := ch " ".

Definition debugBulletPattern : regex :=
  ((Bol |+| nl) >>> Star true blank >>> bulletMark >>> plus true blank
     >>> Grp 1 (plus true notnl))%re.

Definition debugBulletPrefix : regex :=
  (Bol >>> Star true blank >>> bulletMark >>> plus true blank)%re.

Definition debugThoughts (formatted : string) : list string :=
  match matchAll debugBulletPattern formatted with
  | [] => ["Debug analysis based on your screenshots"]
  | bulletPoints =>
      firstn 5
        (map (fun point => trim (remove_first debugBulletPrefix (matched point)))
           bulletPoints)
  end.

Record debug_response : Type := DebugResponse {
  dbg_code : string;
  debug_analysis : string;
  dbg_thoughts : list string;
  dbg_time_complexity : string;
  dbg_space_complexity : string
}.

Definition debugResponse (debugContent : string) : debug_response :=
  {| dbg_code := extractedCode debugContent;
     debug_analysis := formattedDebugContent debugContent;
     dbg_thoughts := debugThoughts (formattedDebugContent debugContent);
     dbg_time_complexity := "N/A - Debug mode";
     dbg_space_complexity := "N/A - Debug mode" |}.

End DebugFormat.

(** ** Notions for the texts *)

Module OptionProperties.
Import JsString Js QuestionSet.

(** The value of the last entry whose key has the normal form [K]. *)
Fixpoint last_value (K : string) (entries : list (string * value)) : option value :=
  match entries with
  | [] => None
  | (k, v) :: entries' =>
      match last_value K entries' with
      | Some x => Some x
      | None => if (normalizedKey k =? K)%string then Some v else None
      end
  end.

Definition letters : list string := ["A"; "B"; "C"; "D"].

End OptionProperties.

Module AnswerProperties.
Import JsString Js.
Import TextProperties.

(** [problemInfo.questions && problemInfo.questions[i]], for a problem info
    that is neither [null] nor [undefined]. *)
Definition question_at (problemInfo : value) (i : nat) : value :=
  let questions := prop "questions" problemInfo in
  if truthy questions
  then match at_index questions i with Normal q => q | Throw _ => VUndefined end
  else questions.

(** What the text fall-back takes from the question of the same index. *)
Definition from_question (a q : value) : Prop :=
  prop "question_text" a =
    (if truthy q then or_else (prop "question_text" q) (VStr "") else VStr "") /\
  prop "options" a =
    (if truthy q then or_else (prop "options" q) (VObj []) else VObj []).

Definition nullish (v : value) : bool :=
  match v with VUndefined | VNull => true | _ => false end.

End AnswerProperties.

(** ** The discipline of the stages *)

Module Discipline.
Import JsString Js App Async Orchestrator Runtime.

(** What no stage writes: the configuration, the window, the counter of
    controllers, the main queue, the files and the view. *)
Definition base (w : world)
  : config * bool * nat * list string * list string * view_t :=
  (cfg w, mainWindow w, nextController w, screenshotQueue w, files w, view w).

(** A write of a stage: it keeps the base, the two controller slots and the
    requests issued. *)
Definition quiet (f : world -> world) : Prop :=
  forall w,
    base (f w) = base w /\
    currentProcessingAbortController (f w) = currentProcessingAbortController w /\
    currentExtraProcessingAbortController (f w) = currentExtraProcessingAbortController w /\
    issued (f w) = issued w.

(** A slot after a stage: as it was, or emptied by a cancellation. *)
Definition slots_kept (w w' : world) : Prop :=
  (currentProcessingAbortController w' = currentProcessingAbortController w \/
   currentProcessingAbortController w' = None) /\
  (currentExtraProcessingAbortController w' = currentExtraProcessingAbortController w \/
   currentExtraProcessingAbortController w' = None).

(** The signal a request to provider [p] carries in a run whose controller
    is [signal]: the Gemini requests carry it, the others carry none. *)
Definition signal_for (p : provider) (signal : nat) : option nat :=
  match p with gemini => Some signal | _ => None end.

Definition disciplined (config : config) (signal : nat) (r : request) : Prop :=
  req_provider r = apiProvider config /\
  req_signal r = signal_for (apiProvider config) signal.

Section Logic.
Variable config : config.
Variable signal : nat.

(** [bounded t k p]: along every path [p] issues at most [k] requests, each
    of them disciplined, its writes are quiet, and it raises only if [t]. *)
Inductive bounded {A : Type} (t : bool) : nat -> async A -> Prop :=
| bounded_Ret k a : bounded t k (Ret a)
| bounded_Raise k e : t = true -> bounded t k (Raise e)
| bounded_Get k f :
    (forall w, cfg w = config -> bounded t k (f w)) -> bounded t k (Get f)
| bounded_Modify k f p : quiet f -> bounded t k p -> bounded t k (Modify f p)
| bounded_Request k r f :
    disciplined config signal r -> (forall x, bounded t k (f x)) ->
    bounded t (S k) (AwaitRequest r f)
| bounded_Language k f : (forall l, bounded t k (f l)) -> bounded t k (AwaitLanguage f)
| bounded_Screenshots k paths f :
    (forall l, bounded t k (f l)) -> bounded t k (AwaitScreenshots paths f).

(** What a bounded method leaves when it is run. *)
Definition contract {A : Type} (t : bool) (k : nat) (w : world) (r : outcome A) : Prop :=
  base (final r) = base w /\
  slots_kept w (final r) /\
  (t = false -> exists a, returned r = Normal a) /\
  exists new,
    issued (final r) = (new ++ issued w)%list /\
    List.length new <= k /\
    Forall (disciplined config signal) new.

End Logic.

(** What a whole run owes: it resolves, every slot is as before or empty,
    and it issues at most [k] requests, disciplined by its own controller. *)
Definition run_post (k : nat) (w : world) (r : outcome unit) : Prop :=
  returned r = Normal tt /\
  slots_kept w (final r) /\
  cfg (final r) = cfg w /\
  (nextController (final r) = nextController w \/
   nextController (final r) = S (nextController w)) /\
  exists new,
    issued (final r) = (new ++ issued w)%list /\
    List.length new <= k /\
    Forall (disciplined (cfg w) (nextController w)) new.

End Discipline.

Module Reports.
Import JsString Js App Async Orchestrator Runtime.

(** The events that tell the window how a run ended, with the view on which
    a run sends each of them. *)
Definition closing (v : view_t) (e : event) : Prop :=
  match e with
  | NO_SCREENSHOTS | API_KEY_INVALID => True
  | INITIAL_SOLUTION_ERROR _ | SOLUTION_SUCCESS _ => v = queue
  | DEBUG_SUCCESS _ | DEBUG_ERROR _ => v = solutions
  | INITIAL_START | DEBUG_START | PROBLEM_EXTRACTED _ | processing_status _ _ => False
  end.

(** The last entry of the log is a closing event. *)
Definition reported (v : view_t) (w : world) : Prop :=
  exists e rest, log w = Sent e :: rest /\ closing v e.

End Reports.

Module ComplexityProperties.
Import JsString.

(** A complexity text says why: it holds a dash or the word because. *)
Definition explained (complexity : string) : Prop :=
  includes "-" complexity || includes "because" complexity = true.

End ComplexityProperties.

(** ** Sample inputs *)

Module Samples.
Import JsString Js App Async Orchestrator Runtime Examples.

(** A question that came without a number and with options keyed [1] and
    [b]. *)
Definition capital_question : value :=
  VObj [("question_text", VStr "Capital of France?");
        ("options", VObj [("1", VStr "Paris"); ("b", VStr "Rome")])].

Definition capital : value := VObj [("questions", jarray [capital_question])].

(** What validateAndFixMCQFormat makes of [capital]. *)
Definition capital_repaired : value :=
  VObj [("questions",
         jarray [VObj [("question_text", VStr "Capital of France?");
                       ("options", VObj [("A", VStr "Paris"); ("B", VStr "Rome")]);
                       ("question_number", VStr "1")]])].

(** An answer in plain text, without braces. *)
Definition spoken_answer : string :=
  "Question 1: Capital of France?" ++ LF ++ "The correct answer is A".

(** A session whose configuration holds no API key, so that no client was
    built. *)
Definition unconfigured : world :=
  {| view := queue; problemInfo := VNull; hasDebugged := false; mainWindow := true; isDestroyed := false;
     screenshotQueue := ["shot-1.png"]; extraScreenshotQueue := [];
     files := ["shot-1.png"];
     cfg := {| apiProvider := openai; apiKey := ""; mode := coding; language := "python" |};
     openaiClient := false; geminiApiKey := None; anthropicClient := false;
     currentProcessingAbortController := None;
     currentExtraProcessingAbortController := None;
     nextController := 0;
     log := [] |}.

(** A session whose only screenshot was deleted from the disk. *)
Definition drained : world :=
  {| view := queue; problemInfo := VNull; hasDebugged := false; mainWindow := true; isDestroyed := false;
     screenshotQueue := ["shot-1.png"]; extraScreenshotQueue := [];
     files := [];
     cfg := {| apiProvider := openai; apiKey := "key"; mode := coding; language := "python" |};
     openaiClient := true; geminiApiKey := None; anthropicClient := false;
     currentProcessingAbortController := None;
     currentExtraProcessingAbortController := None;
     nextController := 0;
     log := [] |}.

End Samples.

Module MarkerProperties.
Import JsString Regex.

(** The characters one of which every option pattern needs: a full stop, a
    closing parenthesis or a colon. *)
Definition marker (a : ascii) : bool :=
  Ascii.eqb a "." || Ascii.eqb a ")" || Ascii.eqb a ":".

(** No marker occurs in the text. *)
Fixpoint unmarked (s : string) : bool :=
  match s with
  | "" => true
  | String a s' => negb (marker a) && unmarked s'
  end.

(** A continuation that fails on every text without a marker. *)
Definition dead (k : cont) : Prop :=
  forall i s c, unmarked s = true -> k i s c = None.

(** Every match of the expression goes through a marker. *)
Inductive marked : regex -> Prop :=
| marked_Chr p : (forall a, p a = true -> marker a = true) -> marked (Chr p)
| marked_Seq_l r1 r2 : marked r1 -> marked (Seq r1 r2)
| marked_Seq_r r1 r2 : marked r2 -> marked (Seq r1 r2)
| marked_Alt r1 r2 : marked r1 -> marked r2 -> marked (Alt r1 r2)
| marked_Grp n r : marked r -> marked (Grp n r).

End MarkerProperties.

Module QuestionProperties.
Import JsString Js.

(** A question as extractQuestionsFromText builds it: a number and a text,
    both strings, and an options object, which may be empty. *)
Definition extracted_question (q : value) : Prop :=
  exists number text options,
    q = VObj [("question_number", VStr number);
              ("question_text", VStr text);
              ("options", VObj options)].

End QuestionProperties.

Module AnswerTexts.
Import JsString Js Texts.

(** Two questions, the first with its options. *)
Definition twoQuestions : value :=
  VObj [("questions",
         jarray [VObj [("question_text", VStr "Capital of France?");
                       ("options", VObj [("A", VStr "Paris"); ("B", VStr "Rome")])];
                 VObj [("question_text", VStr "Capital of Norway?")]])].

(** The JSON text of one answer that holds neither question text nor
    options. *)
Definition oneAnswer : string :=
  "{" ++ DQ ++ "answers" ++ DQ ++ ":[{" ++ member "correct_answer" "A" ++ "}]}".

(** The same answer followed by [null]. *)
Definition nullAnswer : string :=
  "{" ++ DQ ++ "answers" ++ DQ ++ ":[{" ++ member "correct_answer" "A" ++ "},null]}".

(** An empty JSON object followed by a numbered question without options. *)
Definition bareQuestion : string := "{} 1. What is 2+2?".

(** The JSON text of a question list that holds [null]. *)
Definition nullQuestion : string := "{" ++ DQ ++ "questions" ++ DQ ++ ":[null]}".

(** Six lines without a marker, one of them blank. *)
Definition capitals : string :=
  "Capital of France?" ++ LF ++ "  Paris" ++ LF ++ LF ++ "Rome" ++ LF ++ "Oslo" ++ LF
    ++ "Bern" ++ LF ++ "Wien".

End AnswerTexts.

(* ===================================================================== *)
(** * Facts about the embedding *)
(* ===================================================================== *)

Module StringFacts.
Import JsString Regex Js.

Lemma length_append (a b : string) :
  String.length (a ++ b) = String.length a + String.length b.
Proof. induction a as [|x a IH]; simpl; [reflexivity | now rewrite IH]. Qed.

Lemma take_append (a b : string) : take (String.length a) (a ++ b) = a.
Proof. induction a as [|x a IH]; simpl; [now destruct b | now rewrite IH]. Qed.

Lemma drop_append (a b : string) : drop (String.length a) (a ++ b) = b.
Proof. induction a as [|x a IH]; simpl; [reflexivity | exact IH]. Qed.

Lemma startsWith_append (p s : string) : startsWith p (p ++ s) = true.
Proof.
  induction p as [|x p IH]; simpl; [reflexivity |].
  now rewrite Ascii.eqb_refl, IH.
Qed.

Lemma ascii_bound (a : ascii) : nat_of_ascii a <= 255.
Proof. pose proof (nat_ascii_bounded a). lia. Qed.

End StringFacts.

Module RegexFacts.
Import JsString Regex Js StringFacts.

Lemma uncap_nil (c : captures) : uncap [] c = c.
Proof.
  unfold uncap. induction c as [|kv c IH]; simpl; [reflexivity | now f_equal].
Qed.

(** [[\s\S]] accepts every character. *)
Lemma any_accepts (a : ascii) : in_class [Space; Range "000" "255"] a = true.
Proof.
  assert (Hr : in_item a (Range "000" "255") = true).
  { unfold in_item. pose proof (ascii_bound a).
    apply andb_true_iff; split; apply Nat.leb_le.
    - change (nat_of_ascii "000") with 0. lia.
    - change (nat_of_ascii "255") with 255. lia. }
  unfold in_class. cbn [existsb]. rewrite Hr.
  now destruct (in_item a Space).
Qed.

(** A literal matches exactly when the text starts with it. *)
Lemma m_lit (p : string) (k : cont) (i : nat) (s : string) (c : captures) :
  m (lit p) k i s c =
    if startsWith p s then k (i + String.length p) (drop (String.length p) s) c
    else None.
Proof.
  revert k i s. induction p as [|a p IH]; intros k i s.
  - simpl. rewrite Nat.add_0_r. now destruct s.
  - destruct p as [|b p].
    + simpl. destruct s as [|x s]; [reflexivity |].
      destruct (Ascii.eqb a x); simpl; [|reflexivity].
      destruct s; simpl; now rewrite Nat.add_1_r.
    + change (lit (String a (String b p))) with (Seq (ch a) (lit (String b p))).
      cbn [m ch]. destruct s as [|x s]; [reflexivity |].
      cbn [startsWith]. destruct (Ascii.eqb a x); cbn [andb]; [|reflexivity].
      rewrite IH. cbn [String.length drop].
      now replace (S i + S (String.length p)) with (i + S (S (String.length p))) by lia.
Qed.

(** The lazy [[\s\S]*?] stops at the first place where what follows it
    succeeds. *)
Lemma star_lazy_any (a b : string) (k : cont) (c : captures) :
  forall (i n : nat) (x : nat * captures),
    String.length a < n ->
    (forall j, j < String.length a -> k (i + j) (drop j (a ++ b)) c = None) ->
    k (i + String.length a) b c = Some x ->
    star_loop (m any) (uncap []) false k n i (a ++ b) c = Some x.
Proof.
  induction a as [|y a IH]; intros i n x Hn Hnone Hk.
  - destruct n as [|n]; [simpl in Hn; lia |].
    simpl in *. rewrite Nat.add_0_r in Hk. now rewrite Hk.
  - destruct n as [|n]; [simpl in Hn; lia |].
    cbn [star_loop]. 
    pose proof (Hnone 0 ltac:(simpl; lia)) as H0.
    rewrite Nat.add_0_r in H0. cbn [drop] in H0. rewrite H0.
    cbn [append m any cls]. rewrite any_accepts.
    replace (S i =? i) with false by (symmetry; apply Nat.eqb_neq; lia).
    rewrite uncap_nil.
    apply IH.
    + simpl in Hn. lia.
    + intros j Hj. specialize (Hnone (S j) ltac:(simpl; lia)).
      cbn [append drop] in Hnone.
      now replace (S i + j) with (i + S j) by lia.
    + now replace (S i + String.length a) with (i + String.length (String y a))
        by (simpl; lia).
Qed.

End RegexFacts.

Module FenceFacts.
Import JsString Regex Js ResponseParser Mcq QuestionSet.
Import TextProperties StringFacts RegexFacts.

(** Whether a fence starts at a place inside [a] does not depend on what
    follows the three backticks after [a]. *)
Lemma fence_ahead (a rest : string) :
  forall j, j < String.length a ->
    startsWith "```" (drop j (a ++ "```" ++ rest)) = startsWith "```" (drop j (a ++ "```")).
Proof.
  induction a as [|x a IH]; intros j Hj; [simpl in Hj; lia |].
  destruct j as [|j].
  - destruct a as [|y [|z a]]; reflexivity.
  - cbn [append drop]. apply IH. simpl in Hj. lia.
Qed.

(** The search moves past the places where the pattern does not match. *)
Lemma search_skip (r : regex) (prefix rest : string) :
  forall i,
    (forall j, j < String.length prefix ->
       m r accept (i + j) (drop j (prefix ++ rest)) [] = None) ->
    search r i (prefix ++ rest) = search r (i + String.length prefix) rest.
Proof.
  induction prefix as [|x prefix IH]; intros i Hnone.
  - cbn [append String.length]. now rewrite Nat.add_0_r.
  - cbn [append search].
    pose proof (Hnone 0 ltac:(simpl; lia)) as H0.
    rewrite Nat.add_0_r in H0. cbn [drop append] in H0. rewrite H0.
    rewrite IH.
    + f_equal. simpl. lia.
    + intros j Hj. specialize (Hnone (S j) ltac:(simpl; lia)).
      cbn [append drop] in Hnone.
      now replace (S i + j) with (i + S j) by lia.
Qed.

Lemma lazy_body_before (body suffix : string) (i : nat) :
  fence_free body ->
  m (Grp 1 (Star false any)) (m (lit "```") accept) i (body ++ "```" ++ suffix) [] =
    Some (i + String.length body + 3, [(1, body)]).
Proof.
  intros Hfree. cbn [m].
  change (groups any) with (@nil nat).
  apply star_lazy_any.
  - rewrite length_append. lia.
  - intros j Hj. rewrite m_lit. rewrite fence_ahead by exact Hj. now rewrite (Hfree j Hj).
  - rewrite m_lit. cbn [startsWith Ascii.eqb]. simpl startsWith. cbv beta iota.
    unfold accept, setcap. simpl uncap.
    replace (i + String.length body - i) with (String.length body) by lia.
    now rewrite take_append.
Qed.

Lemma fence_missed (prefix rest : string) (i : nat) :
  fence_free prefix ->
  forall j, j < String.length prefix ->
    m fencePattern accept (i + j) (drop j (prefix ++ "```" ++ rest)) [] = None.
Proof.
  intros Hfree j Hj. unfold fencePattern. cbn [m]. rewrite m_lit.
  rewrite fence_ahead by exact Hj. now rewrite (Hfree j Hj).
Qed.

Lemma search_found (r : regex) (i : nat) (s : string) (e : nat) (c : captures) :
  m r accept i s [] = Some (e, c) ->
  search r i s = Some (MatchResult i (take (e - i) s) c).
Proof. intros H. destruct s; cbn [search]; now rewrite H. Qed.

Lemma fence_tagged_match (body suffix : string) (i : nat) :
  fence_free body ->
  m fencePattern accept i ("```json" ++ body ++ "```" ++ suffix) [] =
    Some (i + 3 + 4 + String.length body + 3, [(1, body)]).
Proof.
  intros Hfree. unfold fencePattern. cbn [m].
  rewrite m_lit.
  change (startsWith "```" ("```json" ++ body ++ "```" ++ suffix)) with true.
  cbv iota.
  change (drop (String.length "```") ("```json" ++ body ++ "```" ++ suffix))
    with ("json" ++ body ++ "```" ++ suffix).
  rewrite m_lit.
  change (startsWith "json" ("json" ++ body ++ "```" ++ suffix)) with true.
  cbv iota.
  change (drop (String.length "json") ("json" ++ body ++ "```" ++ suffix))
    with (body ++ "```" ++ suffix).
  change (String.length "```") with 3. change (String.length "json") with 4.
  replace (i + 3 + 4 =? i + 3) with false by (symmetry; apply Nat.eqb_neq; lia).
  change (uncap (groups (lit "json")) []) with (@nil (nat * string)).
  pose proof (lazy_body_before body suffix (i + 3 + 4) Hfree) as H. cbn [m] in H.
  now rewrite H.
Qed.

Lemma not_json_before (body rest : string) :
  startsWith "json" body = false -> startsWith "json" (body ++ "```" ++ rest) = false.
Proof.
  intros H.
  destruct body as [|a [|b [|c [|d body]]]]; cbn [append startsWith] in *;
    try reflexivity;
    repeat match goal with
           | |- context [Ascii.eqb ?x ?y] =>
               is_var y; destruct (Ascii.eqb x y); cbn [andb] in *
           end; try reflexivity; try discriminate.
Qed.

Lemma fence_untagged_match (body suffix : string) (i : nat) :
  fence_free body -> startsWith "json" body = false ->
  m fencePattern accept i ("```" ++ body ++ "```" ++ suffix) [] =
    Some (i + 3 + String.length body + 3, [(1, body)]).
Proof.
  intros Hfree Htag. unfold fencePattern. cbn [m].
  rewrite m_lit.
  change (startsWith "```" ("```" ++ body ++ "```" ++ suffix)) with true.
  cbv iota.
  change (drop (String.length "```") ("```" ++ body ++ "```" ++ suffix))
    with (body ++ "```" ++ suffix).
  rewrite m_lit. rewrite (not_json_before body suffix Htag).
  change (String.length "```") with 3.
  pose proof (lazy_body_before body suffix (i + 3) Hfree) as H. cbn [m] in H.
  now rewrite H.
Qed.

Lemma jsonText_tagged (prefix body suffix : string) :
  fence_free prefix -> fence_free body ->
  jsonText (prefix ++ "```json" ++ body ++ "```" ++ suffix) = trim body.
Proof.
  intros Hprefix Hfree. unfold jsonText, exec.
  change ("```json" ++ body ++ "```" ++ suffix) with ("```" ++ "json" ++ body ++ "```" ++ suffix).
  rewrite search_skip by (apply fence_missed; exact Hprefix).
  erewrite search_found by (apply (fence_tagged_match body suffix); exact Hfree).
  reflexivity.
Qed.

Lemma jsonText_untagged (prefix body suffix : string) :
  fence_free prefix -> fence_free body -> startsWith "json" body = false ->
  jsonText (prefix ++ "```" ++ body ++ "```" ++ suffix) = trim body.
Proof.
  intros Hprefix Hfree Htag. unfold jsonText, exec.
  rewrite search_skip by (apply fence_missed; exact Hprefix).
  erewrite search_found by (apply (fence_untagged_match body suffix); assumption).
  reflexivity.
Qed.

End FenceFacts.

Module ObjectFacts.
Import JsString Regex Js ResponseParser Mcq QuestionSet.

Lemma lookup_overwrite_same k v o : has k o = true -> lookup k (overwrite k v o) = Some v.
Proof.
  unfold has. induction o as [|[k' v'] o IH]; cbn [lookup overwrite]; [discriminate |].
  destruct (String.eqb_spec k' k) as [->|Hne]; intros H.
  - cbn [lookup]. now rewrite String.eqb_refl.
  - cbn [lookup]. destruct (String.eqb_spec k' k); [contradiction | auto].
Qed.

Lemma lookup_overwrite_other k k' v o : k' <> k -> lookup k' (overwrite k v o) = lookup k' o.
Proof.
  intros Hne. induction o as [|[k1 v1] o IH]; cbn [lookup overwrite]; [reflexivity |].
  destruct (String.eqb_spec k1 k) as [->|H1]; cbn [lookup].
  - destruct (String.eqb_spec k k'); [congruence | reflexivity].
  - now rewrite IH.
Qed.

Lemma lookup_insert_index_same n k v o :
  has k o = false -> lookup k (insert_index n k v o) = Some v.
Proof.
  unfold has. induction o as [|[k' v'] o IH]; cbn [lookup insert_index]; intros H.
  - now rewrite String.eqb_refl.
  - destruct (String.eqb_spec k' k) as [->|Hne]; [discriminate |].
    destruct (array_index k') as [n'|]; [destruct (n' <? n)%N |];
      cbn [lookup]; rewrite ?String.eqb_refl; try reflexivity.
    destruct (String.eqb_spec k' k); [contradiction | auto].
Qed.

Lemma lookup_insert_index_other n k k' v o :
  k' <> k -> lookup k' (insert_index n k v o) = lookup k' o.
Proof.
  intros Hne. induction o as [|[k1 v1] o IH]; cbn [lookup insert_index].
  - destruct (String.eqb_spec k k'); [congruence | reflexivity].
  - destruct (array_index k1) as [n'|]; [destruct (n' <? n)%N |]; cbn [lookup].
    + now rewrite IH.
    + destruct (String.eqb_spec k k'); [congruence | reflexivity].
    + destruct (String.eqb_spec k k'); [congruence | reflexivity].
Qed.

Lemma lookup_app k o o' :
  lookup k (o ++ o') = match lookup k o with Some v => Some v | None => lookup k o' end.
Proof.
  induction o as [|[k1 v1] o IH]; cbn [lookup app]; [reflexivity |].
  now destruct (k1 =? k)%string.
Qed.

Lemma lookup_define_same k v o : lookup k (define k v o) = Some v.
Proof.
  unfold define. destruct (has k o) eqn:Hhas.
  - now apply lookup_overwrite_same.
  - destruct (array_index k).
    + now apply lookup_insert_index_same.
    + rewrite lookup_app. unfold has in Hhas.
      destruct (lookup k o); [discriminate |].
      cbn [lookup]. now rewrite String.eqb_refl.
Qed.

Lemma lookup_define_other k k' v o : k' <> k -> lookup k' (define k v o) = lookup k' o.
Proof.
  intros Hne. unfold define. destruct (has k o).
  - now apply lookup_overwrite_other.
  - destruct (array_index k).
    + now apply lookup_insert_index_other.
    + rewrite lookup_app. destruct (lookup k' o); [reflexivity |].
      cbn [lookup]. destruct (String.eqb_spec k k'); [congruence | reflexivity].
Qed.

Lemma lookup_assign_other k k' v o : k' <> k -> lookup k' (assign k v o) = lookup k' o.
Proof.
  intros Hne. unfold assign.
  destruct ((k =? "__proto__")%string && negb (has k o)); [reflexivity |].
  now apply lookup_define_other.
Qed.

Lemma lookup_assign_same k v o : k <> "__proto__" -> lookup k (assign k v o) = Some v.
Proof.
  intros Hne. unfold assign.
  destruct (String.eqb_spec k "__proto__"); [contradiction |].
  cbn [andb]. apply lookup_define_same.
Qed.

End ObjectFacts.

Module KeyFacts.
Import JsString Regex Js ResponseParser Mcq QuestionSet.
Import TextProperties StringFacts RegexFacts ObjectFacts.

(** A pattern anchored at the start of the text matches nowhere else. *)
Lemma search_anchored (r : regex) (s : string) (i : nat) :
  0 < i -> search (Seq Bol r) i s = None.
Proof.
  revert i. induction s as [|a s IH]; intros i Hi; cbn [search m].
  - destruct i; [lia | reflexivity].
  - destruct i; [lia |]. cbn [Nat.eqb]. apply IH. lia.
Qed.

(** [/^[x-y]$/] holds of the one-character texts of the class only. *)
Lemma test_one_char (its : list item) (key : string) :
  test (Seq Bol (Seq (cls its) Eol)) key =
    match key with
    | String a "" => in_class its a
    | _ => false
    end.
Proof.
  unfold test, exec. destruct key as [|a [|b key]]; cbn [search m cls Nat.eqb].
  - reflexivity.
  - destruct (in_class its a); reflexivity.
  - destruct (in_class its a); cbn [Nat.eqb];
      now rewrite (search_anchored _ key 2) by lia.
Qed.

Lemma normalizedKey_rule (key : string) : normalizedKey key = keyRule key.
Proof.
  unfold normalizedKey, digit14, letter_ad.
  rewrite !test_one_char.
  destruct key as [|a [|b key]].
  - reflexivity.
  - destruct a as [[] [] [] [] [] [] [] []]; vm_compute; reflexivity.
  - cbn [toLowerCase map_chars]. 
    destruct a as [[] [] [] [] [] [] [] []]; reflexivity.
Qed.

Lemma keyRule_proto (key : string) : keyRule key = "__proto__" -> key = "__proto__".
Proof.
  destruct key as [|a [|b key]]; [intros H; exact H | |].
  - destruct a as [[] [] [] [] [] [] [] []]; cbn; intros H; try exact H; discriminate H.
  - destruct a as [[] [] [] [] [] [] [] []]; cbn; intros H; exact H.
Qed.

Lemma normalizeOptions_from (entries acc : list (string * value)) (nk : string) (v : value) :
  nk <> "__proto__" ->
  (forall k' v', In (k', v') entries -> normalizedKey k' = nk -> v' = v) ->
  (exists k' v', In (k', v') entries /\ normalizedKey k' = nk) \/ lookup nk acc = Some v ->
  lookup nk
    (fold_left (fun o kv => assign (normalizedKey (fst kv)) (snd kv) o) entries acc) = Some v.
Proof.
  intros Hproto. revert acc.
  induction entries as [|[k1 v1] entries IH]; intros acc Hsame Hsome; cbn [fold_left fst snd].
  - destruct Hsome as [(k' & v' & [] & _) | H]; exact H.
  - apply IH.
    + intros k' v' Hin. apply Hsame. now right.
    + destruct (string_dec (normalizedKey k1) nk) as [Heq | Hne].
      * right. rewrite Heq. rewrite (Hsame k1 v1 (or_introl eq_refl) Heq).
        now apply lookup_assign_same.
      * destruct Hsome as [(k' & v' & [Hhd | Htl] & Hk) | H].
        -- inversion Hhd; subst. contradiction.
        -- left. now exists k', v'.
        -- right. rewrite lookup_assign_other by congruence. exact H.
Qed.

End KeyFacts.

Module BackfillFacts.
Import JsString Regex Js ResponseParser Mcq QuestionSet.
Import TextProperties ObjectFacts.

Lemma get_truthy q k : truthy q = true -> get q k = Normal (prop k q).
Proof. unfold prop. destruct q; cbn; intros H; try reflexivity; discriminate H. Qed.

Lemma prop_object k ps :
  prop k (VObj ps) = match lookup k ps with Some x => x | None => VUndefined end.
Proof. reflexivity. Qed.

Lemma prop_assign_same k v ps :
  k <> "__proto__" -> prop k (VObj (assign k v ps)) = v.
Proof. intros H. rewrite prop_object. now rewrite lookup_assign_same. Qed.

Lemma prop_assign_other k k' v ps :
  k' <> k -> prop k' (VObj (assign k v ps)) = prop k' (VObj ps).
Proof. intros H. rewrite !prop_object. now rewrite lookup_assign_other. Qed.

Lemma get_object ps k : get (VObj ps) k = Normal (prop k (VObj ps)).
Proof. reflexivity. Qed.

Ltac step :=
  cbn [bind ret Monad_completion cbind negb set];
  rewrite ?get_object; cbn [cbind].

(** The callback on an object answer: it never throws. *)
Lemma backfill_object qs qp ps i :
  exists ps', backfill (VArr qs qp) (VObj ps) i = Normal (VObj ps') /\
              backfilled (nth i qs VUndefined) (VObj ps) (VObj ps').
Proof.
  unfold backfill, backfilled. cbn [at_index]. step.
  set (q := nth i qs VUndefined).
  destruct (truthy q) eqn:Hq; [| now exists ps].
  step.
  destruct (truthy (prop "question_text" (VObj ps))) eqn:Ht; step.
  - destruct (truthy (prop "options" (VObj ps))) eqn:Ho; step.
    + exists ps. repeat split; auto.
    + rewrite (get_truthy q "options" Hq). step.
      destruct (truthy (prop "options" q)) eqn:Hqo; step.
      * eexists. split; [reflexivity |]. repeat split.
        -- rewrite prop_assign_other; [reflexivity | discriminate].
        -- rewrite prop_assign_same; [reflexivity | discriminate].
        -- intros k _ Hk. now rewrite prop_assign_other.
      * exists ps. repeat split; auto.
  - rewrite (get_truthy q "question_text" Hq). step.
    set (ps1 := assign "question_text" (or_else (prop "question_text" q) (VStr "")) ps).
    assert (Hsame : prop "options" (VObj ps1) = prop "options" (VObj ps)).
    { unfold ps1. rewrite prop_assign_other; [reflexivity | discriminate]. }
    rewrite Hsame.
    destruct (truthy (prop "options" (VObj ps))) eqn:Ho; step.
    + exists ps1. repeat split.
      * unfold ps1. rewrite prop_assign_same; [reflexivity | discriminate].
      * exact Hsame.
      * intros k Hk _. unfold ps1. now rewrite prop_assign_other.
    + rewrite (get_truthy q "options" Hq). step.
      destruct (truthy (prop "options" q)) eqn:Hqo; step.
      * eexists. split; [reflexivity |]. repeat split.
        -- rewrite prop_assign_other by discriminate.
           unfold ps1. rewrite prop_assign_same; [reflexivity | discriminate].
        -- rewrite prop_assign_same; [reflexivity | discriminate].
        -- intros k Hk1 Hk2. rewrite prop_assign_other by assumption.
           unfold ps1. now rewrite prop_assign_other.
      * exists ps1. repeat split.
        -- unfold ps1. rewrite prop_assign_same; [reflexivity | discriminate].
        -- exact Hsame.
        -- intros k Hk _. unfold ps1. now rewrite prop_assign_other.
Qed.

Lemma forEach_backfill qs qp answers :
  Forall (fun a => is_object a = true) answers ->
  forall n, exists answers',
    forEach (backfill (VArr qs qp)) answers n = Normal answers' /\
    List.length answers' = List.length answers /\
    forall i a, nth_error answers i = Some a ->
      exists a', nth_error answers' i = Some a' /\
                 backfilled (nth (n + i) qs VUndefined) a a'.
Proof.
  induction 1 as [|a answers Ha _ IH]; intros n.
  - exists []. repeat split. intros [|i] a H; discriminate H.
  - destruct a; try discriminate Ha.
    destruct (backfill_object qs qp props n) as (ps' & Hstep & Hspec).
    destruct (IH (S n)) as (rest & Hrest & Hlen & Hnth).
    exists (VObj ps' :: rest). cbn [forEach bind Monad_completion cbind].
    rewrite Hstep. cbn [cbind]. rewrite Hrest. cbn [cbind ret]. 
    repeat split; [cbn; now rewrite Hlen |].
    intros [|i] a Hi; cbn [nth_error] in *.
    + injection Hi as <-. exists (VObj ps'). rewrite Nat.add_0_r. now split.
    + destruct (Hnth i a Hi) as (a' & Ha' & Hb). exists a'. split; [exact Ha' |].
      now replace (n + S i) with (S n + i) by lia.
Qed.

End BackfillFacts.

Module ForwardFacts.
Import JsString Regex Js ResponseParser Mcq QuestionSet.
Import TextProperties StringFacts RegexFacts.

Lemma accept_forward : forward accept.
Proof. intros i s c e c' H. injection H as <- _. lia. Qed.

Lemma star_loop_forward body reset g k :
  (forall k', forward k' -> forward (body k')) -> forward k ->
  forall n, forward (star_loop body reset g k n).
Proof.
  intros Hbody Hk. induction n as [|n IH]; intros i s c e c' H; cbn [star_loop] in H.
  - discriminate H.
  - assert (Hagain : forall x, body (fun i' s' c' => if i' =? i then None
                                      else star_loop body reset g k n i' s' c')
                                 i s (reset c) = Some x -> i <= fst x).
    { intros [e1 c1] Hx. cbn [fst]. eapply Hbody; [| exact Hx].
      intros i2 s2 c2 e2 c2' H2. destruct (i2 =? i); [discriminate |].
      eapply IH; exact H2. }
    destruct g.
    + destruct (body _ i s (reset c)) as [x|] eqn:Hx.
      * injection H as ->. exact (Hagain _ eq_refl).
      * eapply Hk; exact H.
    + destruct (k i s c) as [x|] eqn:Hx.
      * injection H as ->. eapply Hk; exact Hx.
      * exact (Hagain _ H).
Qed.

(** The matcher only moves forward. *)
Lemma m_forward (r : regex) : forall k, forward k -> forward (m r k).
Proof.
  induction r as [| p | r1 IH1 r2 IH2 | r1 IH1 r2 IH2 | g r1 IH1 | g r1 IH1
                 | n r1 IH1 | b r1 IH1 | | ]; intros k Hk i s c e c' H; cbn [m] in H.
  - eapply Hk; exact H.
  - destruct s as [|a s]; [discriminate |]. destruct (p a); [| discriminate].
    apply Hk in H. lia.
  - eapply IH1; [| exact H]. now apply IH2.
  - destruct (m r1 k i s c) as [x|] eqn:Hx.
    + injection H as ->. eapply IH1; [exact Hk | exact Hx].
    + eapply IH2; [exact Hk | exact H].
  - eapply star_loop_forward; [exact IH1 | exact Hk | exact H].
  - assert (Honce : forall x, m r1 (fun i' s' c' => if i' =? i then None else k i' s' c')
                                i s (uncap (groups r1) c) = Some x -> i <= fst x).
    { intros [e1 c1] Hx. cbn [fst]. eapply IH1; [| exact Hx].
      intros i2 s2 c2 e2 c2' H2. destruct (i2 =? i); [discriminate |].
      eapply Hk; exact H2. }
    destruct g.
    + destruct (m r1 _ i s (uncap (groups r1) c)) as [x|] eqn:Hx.
      * injection H as ->. exact (Honce _ eq_refl).
      * eapply Hk; exact H.
    + destruct (k i s c) as [x|] eqn:Hx.
      * injection H as ->. eapply Hk; exact Hx.
      * exact (Honce _ H).
  - eapply IH1; [| exact H]. intros i2 s2 c2 e2 c2' H2. eapply Hk; exact H2.
  - destruct b.
    + destruct (m r1 accept i s c) as [[e1 c1]|]; [| discriminate].
      eapply Hk; exact H.
    + destruct (m r1 accept i s c); [discriminate |]. eapply Hk; exact H.
  - destruct (i =? 0); [| discriminate]. eapply Hk; exact H.
  - destruct s; [| discriminate]. eapply Hk; exact H.
Qed.

(** What the brace pattern matches starts with an opening brace. *)
Lemma brace_match (s : string) :
  forall i mr, search bracePattern i s = Some mr ->
               exists rest, matched mr = String "{" rest.
Proof.
  induction s as [|a s IH]; intros i mr H; cbn [search] in H.
  - discriminate H.
  - destruct (m bracePattern accept i (String a s) []) as [[e c]|] eqn:Hm.
    + injection H as <-. cbn [matched].
      unfold bracePattern in Hm. cbn [m ch] in Hm.
      destruct (Ascii.eqb_spec "{" a) as [<-|]; [| discriminate].
      assert (S i <= e).
      { revert Hm. apply (m_forward (Seq (Star true any) (ch "}")) accept accept_forward). }
      replace (e - i) with (S (e - S i)) by lia. cbn [take]. now eexists.
    + eapply IH; exact H.
Qed.

End ForwardFacts.

Module JsonFacts.
Import JsString Regex Js ResponseParser Mcq QuestionSet.
Import Json.

Ltac split_match H :=
  repeat match type of H with
         | match ?x with _ => _ end = _ => destruct x eqn:?; try discriminate H
         end.

Lemma parse_members_object :
  forall n s acc v r, parse_members n s acc = POk v r -> is_object v = true.
Proof.
  induction n as [|n IH]; intros s acc v r H; cbn [parse_members] in H.
  - discriminate H.
  - split_match H;
      first [eapply IH; exact H | injection H as <- _; reflexivity].
Qed.

Lemma parse_value_brace n rest v r :
  parse_value n (String "{" rest) = POk v r -> is_object v = true.
Proof.
  destruct n as [|n]; intros H; cbn [parse_value skip_ws] in H; [discriminate H |].
  change (is_ws "{") with false in H. cbv iota in H.
  split_match H;
    first [eapply parse_members_object; exact H | injection H as <- _; reflexivity].
Qed.

(** A JSON text that starts with an opening brace denotes an object. *)
Lemma parse_brace_object (rest : string) (v : value) :
  parse (String "{" rest) = Normal v -> is_object v = true.
Proof.
  unfold parse. intros H.
  destruct (parse_value (budget (String "{" rest)) (String "{" rest)) as [v0 r0| |] eqn:Hp;
    try discriminate H.
  apply parse_value_brace in Hp.
  destruct (skip_ws r0); [| discriminate H]. now injection H as <-.
Qed.

End JsonFacts.

Module RunFacts.
Import JsString Js App Async Orchestrator Runtime.

Lemma run_bind {A B : Type} (p : async A) (f : A -> async B) (o : oracle) :
  forall n w,
    run (abind p f) o n w =
      match returned (run p o n w) with
      | Normal a => run (f a) o (suspensions (run p o n w)) (final (run p o n w))
      | Throw e => Outcome (Throw e) (suspensions (run p o n w)) (final (run p o n w))
      end.
Proof.
  induction p as [a | e | k IH | g k IH | r k IH | k IH | ps k IH]; intros n w;
    cbn [abind run returned suspensions final]; auto.
  destruct (refused r w); auto.
Qed.

Lemma run_try_catch {A : Type} (p : async A) (h : error -> async A) (o : oracle) :
  forall n w,
    run (Async.try_catch p h) o n w =
      match returned (run p o n w) with
      | Normal a => run p o n w
      | Throw e => run (h e) o (suspensions (run p o n w)) (final (run p o n w))
      end.
Proof.
  induction p as [a | e | k IH | g k IH | r k IH | k IH | ps k IH]; intros n w;
    cbn [Async.try_catch run returned suspensions final]; auto.
  destruct (refused r w); auto.
Qed.

Lemma run_finally {A : Type} (p : async A) (f : world -> world) (o : oracle) :
  forall n w,
    run (finally p f) o n w =
      Outcome (returned (run p o n w)) (suspensions (run p o n w)) (f (final (run p o n w))).
Proof.
  induction p as [a | e | k IH | g k IH | r k IH | k IH | ps k IH]; intros n w;
    cbn [finally run returned suspensions final]; auto.
  destruct (refused r w); auto.
Qed.

End RunFacts.

Module StageFacts.
Import JsString Js App Async Orchestrator Runtime.
Import RunProperties RunFacts.

Lemma view_interfere o n w : view (interfere o n w) = view w.
Proof.
  unfold interfere. destruct (cancels o n); [| reflexivity].
  unfold call, cancelOngoingRequests. destruct w as [v pi hd mw ds sq eq fs cf oc gk ac cp ce nc lg].
  cbn [bind ret Monad_async abind read write turn snd currentProcessingAbortController].
  destruct cp, ce, mw, ds; reflexivity.
Qed.

Ltac sim :=
  cbn [bind ret Monad_async abind read write run turn returned suspensions final
       view problemInfo hasDebugged mainWindow isDestroyed screenshotQueue extraScreenshotQueue
       files cfg openaiClient geminiApiKey anthropicClient
       currentProcessingAbortController currentExtraProcessingAbortController
       nextController log
       send issue cancel abort record set_view set_problemInfo set_hasDebugged
       clear_extraScreenshotQueue set_clients set_processing set_extraProcessing
       fresh_controller fst snd].

Lemma canceled_interfere o n w : canceled_in (interfere o n w) = canceled_in w.
Proof.
  unfold interfere. destruct (cancels o n); [| reflexivity].
  unfold call, cancelOngoingRequests, canceled_in.
  destruct w as [v pi hd mw ds sq eq fs cf oc gk ac cp ce nc lg].
  sim. destruct cp, ce, mw, ds; reflexivity.
Qed.

(** What the stages read of the state is not touched by a cancellation. *)
Lemma cfg_interfere o n w : cfg (interfere o n w) = cfg w.
Proof.
  unfold interfere. destruct (cancels o n); [| reflexivity].
  unfold call, cancelOngoingRequests.
  destruct w as [v pi hd mw ds sq eq fs cf oc gk ac cp ce nc lg].
  sim. destruct cp, ce, mw, ds; reflexivity.
Qed.

Lemma run_getLanguage o n w :
  exists l n' w',
    run getLanguage o n w = Outcome (Normal l) n' w' /\
    view w' = view w /\ canceled_in w' = canceled_in w.
Proof.
  unfold getLanguage. sim.
  destruct (ResponseParser.nonempty (language (cfg w))); sim.
  - now exists (language (cfg w)), n, w.
  - destruct (mainWindow w); sim.
    + exists (window_language o n), (S n), (interfere o n w).
      split; [reflexivity |]. split; [apply view_interfere | apply canceled_interfere].
    + now exists "python", n, w.
Qed.

Lemma settle_cases r w x :
  (exists s, req_signal r = Some s /\ settle r w x = (Throw canceled, cancel r w)) \/
  settle r w x = (x, w).
Proof.
  unfold settle, refused. destruct (req_signal r) as [s|]; [| now right].
  destruct (is_aborted s w); [left; now exists s | now right].
Qed.

Lemma cancellations_interfere o n w :
  cancellations (log (interfere o n w)) = cancellations (log w).
Proof. apply canceled_interfere. Qed.

Ltac sim2 :=
  cbn [bind ret Monad_async abind read write run turn returned suspensions final
       view problemInfo hasDebugged mainWindow isDestroyed screenshotQueue extraScreenshotQueue
       files cfg openaiClient geminiApiKey anthropicClient
       currentProcessingAbortController currentExtraProcessingAbortController
       nextController log
       send issue cancel abort record set_view set_problemInfo set_hasDebugged
       clear_extraScreenshotQueue set_clients set_processing set_extraProcessing
       fresh_controller fst snd
       Async.try_catch await lift notify settle refused req_signal negb
       generateMCQSolution initializeAIClient
       isCancel status response_status message new_Error status_is message_or
       ResponseParser.nonempty String.eqb Ascii.eqb Bool.eqb
       cancellations canceled_in].

Ltac sim2_all :=
  cbn [bind ret Monad_async abind read write run turn returned suspensions final
       view problemInfo hasDebugged mainWindow isDestroyed screenshotQueue extraScreenshotQueue
       files cfg openaiClient geminiApiKey anthropicClient
       currentProcessingAbortController currentExtraProcessingAbortController
       nextController log
       send issue cancel abort record set_view set_problemInfo set_hasDebugged
       clear_extraScreenshotQueue set_clients set_processing set_extraProcessing
       fresh_controller fst snd
       Async.try_catch await lift notify settle refused req_signal negb
       generateMCQSolution initializeAIClient
       isCancel status response_status message new_Error status_is message_or
       ResponseParser.nonempty String.eqb Ascii.eqb Bool.eqb
       cancellations canceled_in] in *.

Ltac norm :=
  repeat (progress (unfold settle, refused; sim2;
                    rewrite ?view_interfere, ?cancellations_interfere, ?cfg_interfere)).

Lemma names_gemini (error : string) :
  includes "Gemini" error = true -> ResponseParser.nonempty error = true.
Proof. destruct error; [discriminate | reflexivity]. Qed.

(** The facts a finished sub-stage leaves behind. *)
Ltac known :=
  repeat match goal with
         | H : _ /\ _ |- _ => destruct H
         end.

Ltac norm_all :=
  repeat (progress (sim2_all;
                    rewrite ?view_interfere, ?cancellations_interfere, ?cfg_interfere in * )).

Ltac leaf :=
  unfold stage_post in *; unfold canceled_in in *; norm_all; known;
  split; [first [reflexivity | assumption | congruence] | split; [lia |]];
  intros Hlt;
  first
    [ exfalso; lia
    | exfalso;
      match goal with
      | H : _ < _ -> exists _, _ = _ /\ _ |- _ =>
          destruct H as (? & Heq & _); [lia | discriminate Heq]
      end
    | eexists; split; [reflexivity | vm_compute; reflexivity]
    | match goal with
      | H : _ < _ -> exists _, _ = _ /\ _ |- _ =>
          let Hg := fresh "Hg" in
          destruct H as (? & Heq & Hg); [lia |]; injection Heq as ->;
          let Hne := fresh "Hne" in
          pose proof (names_gemini _ Hg) as Hne;
          unfold message_or; cbn [message new_Error]; rewrite ?Hne;
          first [eexists; split; [reflexivity | exact Hg] | congruence]
      end ].

Ltac split_any :=
  match goal with
  | |- context [is_aborted ?s ?w] => destruct (is_aborted s w) eqn:?
  | |- context [match ?x with _ => _ end] => destruct x eqn:?
  | |- context [lift ?c] => destruct c eqn:?
  end.

Ltac go := repeat (norm; try split_any).

Lemma handleMCQResponse_spec pi sig : stage_spec (handleMCQResponse pi sig).
Proof.
  intros o n w. unfold handleMCQResponse.
  go. all: leaf.
Qed.

(** A stage reached under an enclosing [try]: its facts, then the rest. *)
Ltac sub_stage lemma :=
  match goal with
  | |- context [run (Async.try_catch (abind ?p ?f) ?h) ?o1 ?n1 ?w1] =>
      rewrite (run_try_catch (abind p f) h o1 n1 w1); rewrite !(run_bind p f o1 n1 w1);
      let H := fresh "Hspec" in
      pose proof (lemma o1 n1 w1) as H; unfold stage_post in H;
      destruct (run p o1 n1 w1) as [[[?d|?error]|?e] ?m ?v];
      cbn [returned suspensions final] in H |- *
  | |- context [run (Async.try_catch ?p ?h) ?o1 ?n1 ?w1] =>
      rewrite (run_try_catch p h o1 n1 w1);
      let H := fresh "Hspec" in
      pose proof (lemma o1 n1 w1) as H; unfold stage_post in H;
      destruct (run p o1 n1 w1) as [[[?d|?error]|?e] ?m ?v];
      cbn [returned suspensions final] in H |- *
  end.

(** The language is fetched under an enclosing [try]: what it leaves. *)
Ltac language :=
  match goal with
  | |- context [run (Async.try_catch (abind getLanguage ?f) ?h) ?o ?n ?w] =>
      rewrite (run_try_catch (abind getLanguage f) h o n w);
      rewrite !(run_bind getLanguage f o n w);
      let l := fresh "language" in
      let n' := fresh "n" in
      let w' := fresh "w" in
      let Hrun := fresh "Hrun" in
      destruct (run_getLanguage o n w) as (l & n' & w' & Hrun & ? & ?);
      rewrite !Hrun; clear Hrun;
      cbn [returned suspensions final];
      rewrite <- (run_try_catch (f l) h o n' w')
  end.

Lemma generateSolutionsHelper_spec sig : stage_spec (generateSolutionsHelper sig).
Proof.
  intros o n w. unfold generateSolutionsHelper.
  norm. destruct (mode (cfg w)) eqn:Hmode.
  - norm. language. go. all: leaf.
  - norm. destruct (negb (truthy (problemInfo w))) eqn:Hpi; norm; [leaf |].
    sub_stage (handleMCQResponse_spec (problemInfo w) sig); go; leaf.
Qed.

Ltac stages :=
  match goal with
  | |- context [run (Async.try_catch (abind (handleMCQResponse ?pi ?sig) ?f) ?h) ?o ?n ?w] =>
      sub_stage (handleMCQResponse_spec pi sig)
  | |- context [run (Async.try_catch (abind (generateSolutionsHelper ?sig) ?f) ?h) ?o ?n ?w] =>
      sub_stage (generateSolutionsHelper_spec sig)
  end.

Section Helpers.
Variable R : string -> completion Regex.regex.

Lemma processScreenshotsHelper_spec screenshots sig :
  stage_spec (processScreenshotsHelper R screenshots sig).
Proof.
  intros o n w. unfold processScreenshotsHelper.
  norm. language. go. all: try leaf. all: stages; go. all: leaf.
Qed.

Lemma processExtraScreenshotsHelper_spec screenshots sig :
  stage_spec (processExtraScreenshotsHelper screenshots sig).
Proof.
  intros o n w. unfold processExtraScreenshotsHelper.
  norm. language. go. all: leaf.
Qed.

End Helpers.

End StageFacts.

Module PipelineFacts.
Import JsString Js App Async Orchestrator Runtime.
Import RunProperties RunFacts StageFacts.

Section Primary.
Variable R : string -> completion Regex.regex.


End Primary.

Section Top.
Variable R : string -> completion Regex.regex.







End Top.


End PipelineFacts.

(* ===================================================================== *)
(** * Facts about the rest of the helper *)
(* ===================================================================== *)

Module OptionFacts.
Import JsString Regex Js ResponseParser Mcq QuestionSet.
Import TextProperties.
Import StringFacts RegexFacts ObjectFacts KeyFacts BackfillFacts.

Lemma keyRule_idempotent (key : string) : keyRule (keyRule key) = keyRule key.
Proof.
  destruct key as [|a [|b key]]; [reflexivity | | ].
  - destruct a as [[] [] [] [] [] [] [] []]; reflexivity.
  - destruct a as [[] [] [] [] [] [] [] []]; reflexivity.
Qed.

Lemma normalizedKey_idempotent (key : string) :
  normalizedKey (normalizedKey key) = normalizedKey key.
Proof. rewrite !normalizedKey_rule. apply keyRule_idempotent. Qed.

Lemma in_overwrite k v o k' v' :
  In (k', v') (overwrite k v o) -> (k' = k /\ v' = v) \/ In (k', v') o.
Proof.
  induction o as [|[k1 v1] o IH]; cbn [overwrite]; [intros [] |].
  destruct (k1 =? k)%string.
  - intros [H | H]; [left; now inversion H | right; now right].
  - intros [H | H]; [right; now left |].
    destruct (IH H) as [? | ?]; [now left | right; now right].
Qed.

Lemma in_insert_index n k v o k' v' :
  In (k', v') (insert_index n k v o) -> (k' = k /\ v' = v) \/ In (k', v') o.
Proof.
  induction o as [|[k1 v1] o IH]; cbn [insert_index].
  - intros [H | []]. left; now inversion H.
  - destruct (array_index k1) as [n'|].
    + destruct (n' <? n)%N.
      * intros [H | H]; [right; now left |].
        destruct (IH H) as [? | ?]; [now left | right; now right].
      * intros [H | H]; [left; now inversion H | now right].
    + intros [H | H]; [left; now inversion H | now right].
Qed.

Lemma in_assign k v o k' v' :
  In (k', v') (assign k v o) -> (k' = k /\ v' = v) \/ In (k', v') o.
Proof.
  unfold assign, define.
  destruct ((k =? "__proto__")%string && negb (has k o)); [now right |].
  destruct (has k o); [apply in_overwrite |].
  destruct (array_index k); [apply in_insert_index |].
  intros H. apply in_app_or in H. destruct H as [H | [H | []]]; [now right |].
  left; now inversion H.
Qed.

(** Every member of the normalized map comes from a member of the input
    whose key it normalizes. *)
Lemma normalizeOptions_members (entries acc : list (string * value)) k v :
  In (k, v)
     (fold_left (fun o kv => assign (normalizedKey (fst kv)) (snd kv) o) entries acc) ->
  In (k, v) acc \/ exists k0, In (k0, v) entries /\ k = normalizedKey k0.
Proof.
  revert acc. induction entries as [|[k1 v1] entries IH]; intros acc; cbn [fold_left fst snd].
  - now left.
  - intros H. destruct (IH _ H) as [Hacc | (k0 & Hin & Hk)].
    + destruct (in_assign _ _ _ _ _ Hacc) as [[-> ->] | Hold]; [| now left].
      right. exists k1. split; [now left | reflexivity].
    + right. exists k0. split; [now right | exact Hk].
Qed.

Lemma assign_nonempty k v o : o <> [] -> assign k v o <> [].
Proof.
  intros Ho H. destruct o as [|[k1 v1] o]; [now apply Ho |].
  assert (Hin : In (k1, v1) (assign k v ((k1, v1) :: o)) \/ (k1 =? k)%string = true).
  { unfold assign, define.
    destruct ((k =? "__proto__")%string && negb (has k ((k1, v1) :: o))); [left; now left |].
    unfold has. cbn [lookup]. destruct (k1 =? k)%string eqn:Hk; [now right |].
    left. destruct (lookup k o).
    - cbn [overwrite]. rewrite Hk. now left.
    - destruct (array_index k) as [n|]; [| apply in_or_app; left; now left].
      cbn [insert_index]. destruct (array_index k1) as [n'|]; [| right; now left].
      destruct (n' <? n)%N; [now left | right; now left]. }
  destruct Hin as [Hin | Hk]; [rewrite H in Hin; exact Hin |].
  revert H. unfold assign, define, has. cbn [lookup]. rewrite Hk.
  rewrite andb_false_r. cbn [overwrite]. rewrite Hk. discriminate.
Qed.

Lemma assign_new k v : k <> "__proto__" -> assign k v [] = [(k, v)].
Proof.
  intros Hk. unfold assign, define, has. cbn [lookup].
  destruct (String.eqb_spec k "__proto__"); [contradiction |]. cbn [andb].
  destruct (array_index k); reflexivity.
Qed.

Lemma fold_assign_nonempty (f : string -> string) (entries acc : list (string * value)) :
  acc <> [] ->
  fold_left (fun o kv => assign (f (fst kv)) (snd kv) o) entries acc <> [].
Proof.
  revert acc. induction entries as [|kv entries IH]; intros acc Hacc; cbn [fold_left];
    [exact Hacc |].
  apply IH. now apply assign_nonempty.
Qed.

Lemma normalizeOptions_nonempty (entries : list (string * value)) k v :
  In (k, v) entries -> k <> "__proto__" -> normalizeOptions entries <> [].
Proof.
  unfold normalizeOptions.
  assert (H : forall acc,
             In (k, v) entries -> k <> "__proto__" ->
             fold_left (fun o kv => assign (normalizedKey (fst kv)) (snd kv) o) entries acc
               <> []); [| apply H].
  induction entries as [|[k1 v1] entries IH]; intros acc Hin Hk; [destruct Hin |].
  cbn [fold_left fst snd]. destruct Hin as [Heq | Hin].
  - inversion Heq; subst. apply fold_assign_nonempty.
    destruct acc as [|x acc].
    + rewrite assign_new; [discriminate |].
      intros H. apply Hk. apply keyRule_proto. now rewrite <- normalizedKey_rule.
    + now apply assign_nonempty.
  - now apply IH.
Qed.

(** Assignment never creates an own property named [__proto__]. *)
Lemma assign_proto_free k v o :
  lookup "__proto__" o = None -> lookup "__proto__" (assign k v o) = None.
Proof.
  intros Ho. destruct (String.eqb_spec k "__proto__") as [-> | Hk].
  - unfold assign, has. rewrite Ho. cbn. exact Ho.
  - rewrite lookup_assign_other; [exact Ho | congruence].
Qed.

Lemma fold_assign_proto_free {A : Type} (key : A -> string) (val : A -> value)
    (l : list A) (acc : list (string * value)) :
  lookup "__proto__" acc = None ->
  lookup "__proto__" (fold_left (fun o x => assign (key x) (val x) o) l acc) = None.
Proof.
  revert acc. induction l as [|x l IH]; intros acc Hacc; cbn [fold_left]; [exact Hacc |].
  apply IH. now apply assign_proto_free.
Qed.

Lemma proto_free_member (o : list (string * value)) :
  o <> [] -> lookup "__proto__" o = None ->
  exists k v, In (k, v) o /\ k <> "__proto__".
Proof.
  destruct o as [|[k v] o]; [congruence |]. intros _ H. cbn [lookup] in H.
  destruct (String.eqb_spec k "__proto__"); [discriminate |].
  exists k, v. split; [now left | assumption].
Qed.

End OptionFacts.

Module RepairFacts.
Import JsString Regex Js ResponseParser Mcq QuestionSet.
Import TextProperties.
Import StringFacts RegexFacts ObjectFacts KeyFacts BackfillFacts.
Import OptionFacts.

Lemma nat_digits_nonempty (fuel n : nat) (acc : string) :
  acc <> "" -> nat_digits fuel n acc <> "".
Proof.
  revert n acc. induction fuel as [|fuel IH]; intros n acc Hacc; cbn [nat_digits];
    [exact Hacc |].
  destruct (n / 10 =? 0); [discriminate | apply IH; discriminate].
Qed.

Lemma nat_toString_truthy (n : nat) : truthy (VStr (nat_toString n)) = true.
Proof.
  unfold nat_toString. cbn [nat_digits truthy].
  destruct (n / 10 =? 0); [reflexivity |].
  pose proof (nat_digits_nonempty n (n / 10) (String (digit_char (n mod 10)) "")
                ltac:(discriminate)) as H.
  destruct (nat_digits n (n / 10) _); [congruence | reflexivity].
Qed.

Lemma collectOptions_proto_free (matches : list match_result) :
  lookup "__proto__" (collectOptions matches) = None.
Proof.
  unfold collectOptions.
  assert (H : forall acc, lookup "__proto__" acc = None ->
             lookup "__proto__"
               (fold_left
                  (fun options mr =>
                     match group 1 mr, group 2 mr with
                     | Some k, Some v =>
                         let key := toUpperCase k in
                         let key := if test digit14 key
                                    then fromCharCode (64 + parseInt key) else key in
                         assign key (VStr (trim v)) options
                     | _, _ => options
                     end) matches acc) = None); [| now apply H].
  induction matches as [|mr matches IH]; intros acc Hacc; cbn [fold_left]; [exact Hacc |].
  apply IH. destruct (group 1 mr), (group 2 mr); try exact Hacc.
  now apply assign_proto_free.
Qed.

Lemma firstOptions_proto_free (patterns : list regex) (text : string) options :
  firstOptions patterns text = Some options -> lookup "__proto__" options = None.
Proof.
  induction patterns as [|p patterns IH]; cbn [firstOptions]; [discriminate |].
  destruct (matchAll p text) as [|mr matches]; [exact IH |].
  intros H. injection H as <-. apply collectOptions_proto_free.
Qed.

Lemma lineOptions_proto_free (rest : list string) :
  lookup "__proto__" (lineOptions rest) = None.
Proof.
  unfold lineOptions.
  apply (fold_assign_proto_free fst (fun kv => VStr (trim (snd kv)))). reflexivity.
Qed.

Section WithRegExp.
Variable RegExp_i : string -> completion regex.

(** The options that extractOptionsFromText returns have no member named
    [__proto__]. *)
Lemma extractOptions_proto_free (text : string) questionText options :
  extractOptionsFromText RegExp_i text = Normal (questionText, options) ->
  lookup "__proto__" options = None.
Proof.
  unfold extractOptionsFromText.
  destruct (firstOptions optionPatterns text) as [found|] eqn:Hfirst.
  - apply firstOptions_proto_free in Hfirst.
    destruct (stripOptions RegExp_i found _ text) as [qt|e]; [| discriminate].
    cbn [bind Monad_completion cbind ret].
    destruct found as [|kv found].
    + destruct (filter nonblank _) as [|first rest]; intros H; injection H as _ <-;
        [reflexivity | apply lineOptions_proto_free].
    + intros H; injection H as _ <-. exact Hfirst.
  - destruct (filter nonblank _) as [|first rest]; intros H; injection H as _ <-;
      [reflexivity | apply lineOptions_proto_free].
Qed.

(** The part of the repair loop that follows the numbering of the question. *)
Definition repairOptions (question : value) : completion value :=
  options <- get question "options" ;;
  missing <- (if negb (truthy options) then ret true
              else ks <- keys options ;; ret (length ks =? 0)) ;;
  question <- (if missing : bool then
                 text <- get question "question_text" ;;
                 optionsExtract <- extractOptionsFromValue RegExp_i text ;;
                 match snd optionsExtract with
                 | [] => set question "options" noOptions
                 | found =>
                     question <- set question "question_text" (VStr (fst optionsExtract)) ;;
                     set question "options" (VObj found)
                 end
               else ret question) ;;
  options <- get question "options" ;;
  es <- entries options ;;
  set question "options" (VObj (normalizeOptions es)).

Lemma fixQuestion_steps (question : value) (i : nat) :
  fixQuestion RegExp_i question i =
    (number <- get question "question_number" ;;
     question <- (if negb (truthy number)
                  then set question "question_number" (VStr (nat_toString (i + 1)))
                  else ret question) ;;
     repairOptions question).
Proof. reflexivity. Qed.

Section Wrapped.
Variable wrap : list (string * value) -> value.
Hypothesis Hget : forall ps k,
  get (wrap ps) k = Normal (match lookup k ps with Some x => x | None => VUndefined end).
Hypothesis Hset : forall ps k x, set (wrap ps) k x = Normal (wrap (assign k x ps)).

Lemma repairOptions_wrapped (ps : list (string * value)) (q' : value) :
  repairOptions (wrap ps) = Normal q' ->
  exists ps' es,
    q' = wrap ps' /\
    lookup "question_number" ps' = lookup "question_number" ps /\
    lookup "options" ps' = Some (VObj (normalizeOptions es)) /\
    ((forall es0, entries (prop "options" (wrap ps)) = Normal es0 ->
        es0 = [] \/ exists k v, In (k, v) es0 /\ k <> "__proto__") ->
     normalizeOptions es <> []).
Proof.
  unfold repairOptions, prop. rewrite Hget. cbn [bind Monad_completion cbind ret].
  set (options := match lookup "options" ps with Some x => x | None => VUndefined end).
  assert (Hfinal : forall ps2 es,
             lookup "question_number" ps2 = lookup "question_number" ps ->
             entries (match lookup "options" ps2 with Some x => x | None => VUndefined end)
               = Normal es ->
             ((forall es0, entries options = Normal es0 ->
                 es0 = [] \/ exists k v, In (k, v) es0 /\ k <> "__proto__") ->
              normalizeOptions es <> []) ->
             cbind (get (wrap ps2) "options")
               (fun options0 => cbind (entries options0)
                  (fun es0 => set (wrap ps2) "options" (VObj (normalizeOptions es0))))
               = Normal q' ->
             exists ps' es1,
               q' = wrap ps' /\
               lookup "question_number" ps' = lookup "question_number" ps /\
               lookup "options" ps' = Some (VObj (normalizeOptions es1)) /\
               ((forall es0, entries options = Normal es0 ->
                   es0 = [] \/ exists k v, In (k, v) es0 /\ k <> "__proto__") ->
                normalizeOptions es1 <> [])).
  { intros ps2 es Hnum Hes Hne. rewrite Hget. cbn [cbind]. rewrite Hes. cbn [cbind].
    rewrite Hset. intros H. injection H as <-.
    exists (assign "options" (VObj (normalizeOptions es)) ps2), es.
    split; [reflexivity |]. split.
    - rewrite lookup_assign_other by discriminate. exact Hnum.
    - split; [apply lookup_assign_same; discriminate | exact Hne]. }
  destruct (negb (truthy options)) eqn:Hfalsy; cbn [cbind].
  - (* no options: they are extracted from the question text *)
    rewrite Hget. cbn [cbind].
    destruct (extractOptionsFromValue RegExp_i _) as [[qt found]|e] eqn:Hextract;
      [| discriminate].
    cbn [cbind snd fst].
    destruct found as [|kv found].
    + rewrite Hset. cbn [cbind]. apply (Hfinal _ [("A", VStr "No options extracted"); ("B", VStr "");
                                                   ("C", VStr ""); ("D", VStr "")]).
      * rewrite lookup_assign_other by discriminate. reflexivity.
      * rewrite lookup_assign_same by discriminate. reflexivity.
      * intros _. vm_compute. discriminate.
    + rewrite Hset. cbn [cbind]. rewrite Hset. cbn [cbind].
      apply (Hfinal _ (kv :: found)).
      * rewrite !lookup_assign_other by discriminate. reflexivity.
      * rewrite lookup_assign_same by discriminate. reflexivity.
      * intros _.
        assert (Hfree : lookup "__proto__" (kv :: found) = None).
        { destruct (match lookup "question_text" ps with Some x => x | None => VUndefined end);
            try discriminate Hextract.
          cbn [extractOptionsFromValue] in Hextract.
          now apply extractOptions_proto_free in Hextract. }
        destruct (proto_free_member (kv :: found) ltac:(discriminate) Hfree)
          as (k & v & Hin & Hk).
        now apply (normalizeOptions_nonempty _ k v).
  - (* options present: are there keys? *)
    unfold keys. cbn [bind Monad_completion cbind ret].
    destruct (entries options) as [es0|e] eqn:Hes0; [| discriminate].
    cbn [cbind]. destruct es0 as [|kv0 es0]; cbn [map length Nat.eqb cbind].
    + rewrite Hget. cbn [cbind].
      destruct (extractOptionsFromValue RegExp_i _) as [[qt found]|e] eqn:Hextract;
        [| discriminate].
      cbn [cbind snd fst].
      destruct found as [|kv found].
      * rewrite Hset. cbn [cbind].
        apply (Hfinal _ [("A", VStr "No options extracted"); ("B", VStr "");
                         ("C", VStr ""); ("D", VStr "")]).
        -- rewrite lookup_assign_other by discriminate. reflexivity.
        -- rewrite lookup_assign_same by discriminate. reflexivity.
        -- intros _. vm_compute. discriminate.
      * rewrite Hset. cbn [cbind]. rewrite Hset. cbn [cbind].
        apply (Hfinal _ (kv :: found)).
        -- rewrite !lookup_assign_other by discriminate. reflexivity.
        -- rewrite lookup_assign_same by discriminate. reflexivity.
        -- intros _.
           assert (Hfree : lookup "__proto__" (kv :: found) = None).
           { destruct (match lookup "question_text" ps with Some x => x | None => VUndefined end);
               try discriminate Hextract.
             cbn [extractOptionsFromValue] in Hextract.
             now apply extractOptions_proto_free in Hextract. }
           destruct (proto_free_member (kv :: found) ltac:(discriminate) Hfree)
             as (k & v & Hin & Hk).
           now apply (normalizeOptions_nonempty _ k v).
    + apply (Hfinal ps (kv0 :: es0)); [reflexivity | exact Hes0 |].
      intros Hown. destruct (Hown _ eq_refl) as [Hnil | (k & v & Hin & Hk)];
        [discriminate Hnil |].
      now apply (normalizeOptions_nonempty _ k v).
Qed.

Lemma fixQuestion_wrapped (ps : list (string * value)) (i : nat) (q' : value) :
  fixQuestion RegExp_i (wrap ps) i = Normal q' ->
  truthy (prop "question_number" q') = true /\
  exists options,
    prop "options" q' = VObj options /\
    (forall k v, In (k, v) options -> normalizedKey k = k) /\
    ((forall es0, entries (prop "options" (wrap ps)) = Normal es0 ->
        es0 = [] \/ exists k v, In (k, v) es0 /\ k <> "__proto__") ->
     options <> []).
Proof.
  rewrite fixQuestion_steps. rewrite Hget. cbn [bind Monad_completion cbind ret].
  set (number := match lookup "question_number" ps with Some x => x | None => VUndefined end).
  assert (Hdone : forall ps1,
             truthy (match lookup "question_number" ps1 with
                     | Some x => x | None => VUndefined end) = true ->
             lookup "options" ps1 = lookup "options" ps ->
             repairOptions (wrap ps1) = Normal q' ->
             truthy (prop "question_number" q') = true /\
             exists options,
               prop "options" q' = VObj options /\
               (forall k v, In (k, v) options -> normalizedKey k = k) /\
               ((forall es0, entries (prop "options" (wrap ps)) = Normal es0 ->
                   es0 = [] \/ exists k v, In (k, v) es0 /\ k <> "__proto__") ->
                options <> [])).
  { intros ps1 Hnum Hopts Hrun.
    destruct (repairOptions_wrapped ps1 q' Hrun) as (ps' & es & -> & Hn & Ho & Hne).
    unfold prop. rewrite !Hget, Hn, Ho. split; [exact Hnum |].
    exists (normalizeOptions es). split; [reflexivity |]. split.
    - intros k v Hin. unfold normalizeOptions in Hin.
      destruct (normalizeOptions_members _ _ _ _ Hin) as [[] | (k0 & _ & ->)].
      apply normalizedKey_idempotent.
    - intros Hown. apply Hne. unfold prop. rewrite Hget, Hopts. exact Hown. }
  destruct (negb (truthy number)) eqn:Hn; cbn [cbind].
  - rewrite Hset. cbn [cbind]. apply Hdone.
    + rewrite lookup_assign_same by discriminate. apply nat_toString_truthy.
    + rewrite lookup_assign_other by discriminate. reflexivity.
  - apply Hdone; [| reflexivity]. fold number. now destruct (truthy number).
Qed.

End Wrapped.

(** What one round of the repair loop leaves: a numbered question whose
    options are an object with keys in normal form, and with at least one
    option unless the question came with options all named [__proto__]. *)
Lemma fixQuestion_repairs (question : value) (i : nat) (q' : value) :
  fixQuestion RegExp_i question i = Normal q' ->
  truthy (prop "question_number" q') = true /\
  exists options,
    prop "options" q' = VObj options /\
    (forall k v, In (k, v) options -> normalizedKey k = k) /\
    ((forall es0, entries (prop "options" question) = Normal es0 ->
        es0 = [] \/ exists k v, In (k, v) es0 /\ k <> "__proto__") ->
     options <> []).
Proof.
  destruct question as [| | b | mant expo | s | l ps | ps];
    try (rewrite fixQuestion_steps; discriminate).
  - apply (fixQuestion_wrapped (VArr l)); reflexivity.
  - apply (fixQuestion_wrapped VObj); reflexivity.
Qed.

End WithRegExp.

End RepairFacts.

Module LoopFacts.
Import JsString Regex Js ResponseParser Mcq QuestionSet.
Import TextProperties.
Import StringFacts RegexFacts ObjectFacts KeyFacts BackfillFacts.

(** [forEach] keeps the length, and its result holds at each index what the
    callback returned for the element of that index. *)
Lemma forEach_nth (f : value -> nat -> completion value) (l : list value) :
  forall i l',
    forEach f l i = Normal l' ->
    List.length l' = List.length l /\
    forall j x', nth_error l' j = Some x' ->
      exists x, nth_error l j = Some x /\ f x (i + j) = Normal x'.
Proof.
  induction l as [|x l IH]; intros i l' H; cbn [forEach] in H.
  - injection H as <-. split; [reflexivity |]. intros [|j] x' Hj; discriminate Hj.
  - cbn [bind Monad_completion cbind ret] in H.
    destruct (f x i) as [y|e] eqn:Hx; [| discriminate H]. cbn [cbind] in H.
    destruct (forEach f l (S i)) as [l1|e] eqn:Hl; [| discriminate H]. cbn [cbind] in H.
    injection H as <-. destruct (IH _ _ Hl) as (Hlen & Hnth).
    split; [cbn [List.length]; now rewrite Hlen |].
    intros [|j] x' Hj; cbn [nth_error] in Hj.
    + injection Hj as <-. exists x. split; [reflexivity |]. now rewrite Nat.add_0_r.
    + destruct (Hnth j x' Hj) as (x0 & Hx0 & Hf). exists x0. split; [exact Hx0 |].
      now replace (i + S j) with (S i + j) by lia.
Qed.

End LoopFacts.

Module AnswerFacts.
Import JsString Regex Js ResponseParser Mcq QuestionSet.
Import TextProperties.
Import StringFacts RegexFacts ObjectFacts KeyFacts BackfillFacts.
Import AnswerProperties.

Lemma get_defined (v : value) (k : string) :
  nullish v = false -> get v k = Normal (prop k v).
Proof. unfold prop. destruct v; cbn; intros H; try reflexivity; discriminate H. Qed.

Lemma at_index_truthy (v : value) (i : nat) :
  truthy v = true -> exists q, at_index v i = Normal q.
Proof. destruct v; cbn; intros H; try discriminate H; now eexists. Qed.

Lemma truthy_defined (v : value) : truthy v = true -> nullish v = false.
Proof. destruct v; cbn; intros H; try reflexivity; discriminate H. Qed.

Lemma blockAnswer_defined (problemInfo : value) (i : nat) (block : string) :
  nullish problemInfo = false ->
  exists a,
    blockAnswer problemInfo i block = Normal a /\
    prop "question_number" a = VNat (i + 1) /\
    from_question a (question_at problemInfo i).
Proof.
  intros Hpi. unfold blockAnswer, question_at, from_question.
  rewrite !(get_defined problemInfo "questions" Hpi).
  cbn [bind Monad_completion cbind ret].
  set (questions := prop "questions" problemInfo).
  destruct (truthy questions) eqn:Hqs.
  - destruct (at_index_truthy questions i Hqs) as (q & Hq). rewrite Hq. cbn [cbind].
    destruct (truthy q) eqn:Htq.
    + rewrite !(get_defined q _ (truthy_defined q Htq)). cbn [cbind].
      eexists. split; [reflexivity |]. repeat split; reflexivity.
    + cbn [cbind]. eexists. split; [reflexivity |]. repeat split; reflexivity.
  - cbn [cbind]. rewrite Hqs. cbn [cbind].
    eexists. split; [reflexivity |]. repeat split; reflexivity.
Qed.

Lemma blockAnswers_defined (problemInfo : value) (blocks : list string) :
  nullish problemInfo = false ->
  forall i, exists answers,
    blockAnswers problemInfo i blocks = Normal answers /\
    List.length answers = List.length blocks /\
    forall j a, nth_error answers j = Some a ->
      prop "question_number" a = VNat (i + j + 1) /\
      from_question a (question_at problemInfo (i + j)).
Proof.
  intros Hpi. induction blocks as [|block blocks IH]; intros i; cbn [blockAnswers].
  - exists []. split; [reflexivity |]. split; [reflexivity |].
    intros [|j] a H; discriminate H.
  - destruct (blockAnswer_defined problemInfo i block Hpi) as (a0 & Ha0 & Hn0 & Hq0).
    destruct (IH (S i)) as (rest & Hrest & Hlen & Hnth).
    cbn [bind Monad_completion cbind ret]. rewrite Ha0. cbn [cbind].
    rewrite Hrest. cbn [cbind].
    exists (a0 :: rest). split; [reflexivity |].
    split; [cbn [List.length]; now rewrite Hlen |].
    intros [|j] a Hj; cbn [nth_error] in Hj.
    + injection Hj as <-. rewrite Nat.add_0_r. now split.
    + destruct (Hnth j a Hj) as (Hn & Hq).
      replace (i + S j) with (S i + j) by lia. now split.
Qed.

Lemma blockAnswer_nullish (problemInfo : value) (i : nat) (block : string) :
  nullish problemInfo = true -> exists e, blockAnswer problemInfo i block = Throw e.
Proof.
  intros H. unfold blockAnswer.
  destruct problemInfo; try discriminate H; cbn; now eexists.
Qed.

End AnswerFacts.

Module ParserFacts.
Import JsString Regex Js ResponseParser Mcq QuestionSet.
Import TextProperties.
Import StringFacts RegexFacts ObjectFacts KeyFacts BackfillFacts.
Import OptionProperties OptionFacts.

Lemma fold_assign_last (entries acc : list (string * value)) (K : string) :
  K <> "__proto__" ->
  lookup K (fold_left (fun o kv => assign (normalizedKey (fst kv)) (snd kv) o) entries acc) =
    match last_value K entries with
    | Some x => Some x
    | None => lookup K acc
    end.
Proof.
  intros HK. revert acc. induction entries as [|[k v] entries IH]; intros acc;
    cbn [fold_left last_value fst snd]; [reflexivity |].
  rewrite IH. destruct (last_value K entries); [reflexivity |].
  destruct (String.eqb_spec (normalizedKey k) K) as [<- | Hne].
  - now apply lookup_assign_same.
  - apply lookup_assign_other. congruence.
Qed.

Lemma filter_nonempty (l : list string) :
  Forall (fun s => s <> "") (filter nonempty l).
Proof.
  apply Forall_forall. intros s Hs. apply filter_In in Hs. destruct Hs as [_ Hs].
  unfold nonempty in Hs. intros ->. discriminate Hs.
Qed.

End ParserFacts.

Module WindowFacts.
Import JsString Js Window.

Lemma poll_calls (remaining : nat) (window : answers) :
  forall call, call <= snd (poll remaining window call) <= call + remaining.
Proof.
  induction remaining as [|k IH]; intros call; cbn [poll snd]; [lia |].
  destruct (window call) as [v|e]; cbn [snd]; [| lia].
  destruct (truthy v); cbn [snd]; [lia |].
  specialize (IH (S call)). lia.
Qed.

(** The loop returns at the first truthy answer, all answers before it
    having been falsy. *)
Lemma poll_returns (remaining : nat) (window : answers) :
  forall call call',
    poll remaining window call = (Normal tt, call') ->
    exists i v,
      i < remaining /\ call' = S (call + i) /\
      window (call + i) = Normal v /\ truthy v = true /\
      forall j, j < i -> exists u, window (call + j) = Normal u /\ truthy u = false.
Proof.
  induction remaining as [|k IH]; intros call call' H; cbn [poll] in H; [discriminate H |].
  destruct (window call) as [v|e] eqn:Hv; [| discriminate H].
  destruct (truthy v) eqn:Ht.
  - injection H as <-. exists 0, v. rewrite Nat.add_0_r.
    repeat split; try assumption; try lia.
  - destruct (IH _ _ H) as (i & u & Hi & Hc & Hw & Hu & Hbefore).
    exists (S i), u. replace (call + S i) with (S call + i) by lia.
    repeat split; try assumption; try lia.
    intros [|j] Hj.
    + exists v. now rewrite Nat.add_0_r.
    + destruct (Hbefore j ltac:(lia)) as (x & Hx & Htx). exists x.
      now replace (call + S j) with (S call + j) by lia.
Qed.

(** The loop gives up exactly when every one of its answers was falsy. *)
Lemma poll_timeout (remaining : nat) (window : answers) :
  forall call,
    (forall j, j < remaining -> exists u, window (call + j) = Normal u /\ truthy u = false) ->
    poll remaining window call = (Throw timeout, call + remaining).
Proof.
  induction remaining as [|k IH]; intros call H; cbn [poll].
  - now rewrite Nat.add_0_r.
  - destruct (H 0 ltac:(lia)) as (u & Hu & Htu). rewrite Nat.add_0_r in Hu.
    rewrite Hu, Htu. rewrite IH; [f_equal; lia |].
    intros j Hj. destruct (H (S j) ltac:(lia)) as (x & Hx & Htx). exists x.
    now replace (S call + j) with (call + S j) by lia.
Qed.

Lemma poll_throws (remaining : nat) (window : answers) :
  forall call e call',
    poll remaining window call = (Throw e, call') ->
    (e = timeout /\ call' = call + remaining /\
     forall j, j < remaining -> exists u, window (call + j) = Normal u /\ truthy u = false) \/
    (exists i, i < remaining /\ call' = S (call + i) /\ window (call + i) = Throw e).
Proof.
  induction remaining as [|k IH]; intros call e call' H; cbn [poll] in H.
  - injection H as <- <-. left. rewrite Nat.add_0_r. repeat split. intros j Hj; lia.
  - destruct (window call) as [v|e0] eqn:Hv.
    + destruct (truthy v) eqn:Ht; [discriminate H |].
      destruct (IH _ _ _ H) as [(He & Hc & Hall) | (i & Hi & Hc & Hw)].
      * left. split; [exact He |]. split; [lia |].
        intros [|j] Hj.
        -- exists v. now rewrite Nat.add_0_r.
        -- destruct (Hall j ltac:(lia)) as (x & Hx & Htx). exists x.
           now replace (call + S j) with (S call + j) by lia.
      * right. exists (S i). replace (call + S i) with (S call + i) by lia.
        repeat split; try assumption; lia.
    + injection H as <- <-. right. exists 0. rewrite Nat.add_0_r.
      repeat split; try assumption; lia.
Qed.

End WindowFacts.

Module DisciplineFacts.
Import JsString Js App Async Orchestrator Runtime.
Import RunProperties Texts Examples.
Import RunFacts StageFacts PipelineFacts.
Import Discipline.

Lemma base_interfere o n w : base (interfere o n w) = base w.
Proof.
  unfold interfere. destruct (cancels o n); [| reflexivity].
  destruct w as [v pi hd mw ds sq eq fs cf oc gk ac cp ce nc lg].
  destruct cp, ce, mw, ds; vm_compute; reflexivity.
Qed.

Lemma issued_interfere o n w : issued (interfere o n w) = issued w.
Proof.
  unfold interfere. destruct (cancels o n); [| reflexivity].
  destruct w as [v pi hd mw ds sq eq fs cf oc gk ac cp ce nc lg].
  destruct cp, ce, mw, ds; vm_compute; reflexivity.
Qed.

Lemma slots_interfere o n w : slots_kept w (interfere o n w).
Proof.
  unfold interfere, slots_kept. destruct (cancels o n); [| now split; left].
  destruct w as [v pi hd mw ds sq eq fs cf oc gk ac cp ce nc lg].
  destruct cp, ce, mw, ds; split; right; vm_compute; reflexivity.
Qed.

Lemma nextController_interfere o n w :
  nextController (interfere o n w) = nextController w.
Proof.
  pose proof (base_interfere o n w) as H. unfold base in H. now inversion H.
Qed.

Lemma slots_kept_refl w : slots_kept w w.
Proof. split; now left. Qed.

Lemma slots_kept_trans w1 w2 w3 :
  slots_kept w1 w2 -> slots_kept w2 w3 -> slots_kept w1 w3.
Proof.
  intros [[H1 | H1] [H2 | H2]] [[H3 | H3] [H4 | H4]]; split;
    first [left; congruence | right; congruence].
Qed.

Lemma cfg_base w w' : base w' = base w -> cfg w' = cfg w.
Proof. unfold base. congruence. Qed.

Lemma quiet_record_sent e : quiet (send e).
Proof. intros w. repeat split. Qed.

Lemma quiet_cancel r : quiet (cancel r).
Proof. intros w. repeat split. Qed.

Lemma quiet_set_problemInfo p : quiet (set_problemInfo p).
Proof. intros w. repeat split. Qed.

Lemma quiet_set_hasDebugged b : quiet (set_hasDebugged b).
Proof. intros w. repeat split. Qed.

Lemma quiet_clear_extra : quiet clear_extraScreenshotQueue.
Proof. intros w. repeat split. Qed.

Section Logic.
Variable config : config.
Variable signal : nat.

Lemma bounded_weaken {A : Type} (t : bool) (k : nat) (p : async A) :
  bounded config signal t k p ->
  forall t' k', (t = true -> t' = true) -> k <= k' -> bounded config signal t' k' p.
Proof.
  induction 1 as [k a | k e Ht | k f Hf IH | k f p Hq Hp IH | k r f Hr Hf IH
                  | k f Hf IH | k paths f Hf IH]; intros t' k' Ht' Hk.
  - constructor.
  - constructor. auto.
  - constructor. intros w Hw. now apply IH.
  - constructor; [exact Hq | now apply IH].
  - destruct k' as [|k']; [lia |]. constructor; [exact Hr |].
    intros x. apply IH; [exact Ht' | lia].
  - constructor. intros l. now apply IH.
  - constructor. intros l. now apply IH.
Qed.

Lemma bounded_bind {A B : Type} (t : bool) (a b : nat) (p : async A) (f : A -> async B) :
  bounded config signal t a p ->
  (forall x, bounded config signal t b (f x)) ->
  bounded config signal t (a + b) (abind p f).
Proof.
  intros Hp Hf.
  induction Hp as [k x | k e Ht | k g Hg IH | k g p Hq Hp IH | k r g Hr Hg IH
                   | k g Hg IH | k paths g Hg IH]; cbn [abind].
  - apply (bounded_weaken _ _ _ (Hf x)); [auto | lia].
  - now constructor.
  - constructor. exact IH.
  - constructor; assumption.
  - cbn [Nat.add]. constructor; [exact Hr | exact IH].
  - constructor. exact IH.
  - constructor. exact IH.
Qed.

Lemma bounded_try {A : Type} (t : bool) (a b : nat) (p : async A) (h : error -> async A) :
  bounded config signal true a p ->
  (forall e, bounded config signal t b (h e)) ->
  bounded config signal t (a + b) (Async.try_catch p h).
Proof.
  intros Hp Hh.
  induction Hp as [k x | k e Ht | k g Hg IH | k g p Hq Hp IH | k r g Hr Hg IH
                   | k g Hg IH | k paths g Hg IH]; cbn [Async.try_catch].
  - constructor.
  - apply (bounded_weaken _ _ _ (Hh e)); [auto | lia].
  - constructor. exact IH.
  - constructor; assumption.
  - cbn [Nat.add]. constructor; [exact Hr | exact IH].
  - constructor. exact IH.
  - constructor. exact IH.
Qed.

Lemma contract_sound {A : Type} (t : bool) (k : nat) (p : async A) :
  bounded config signal t k p ->
  forall o n w, cfg w = config -> contract config signal t k w (run p o n w).
Proof.
  induction 1 as [k a | k e Ht | k f Hf IH | k f p Hq Hp IH | k r f Hr Hf IH
                  | k f Hf IH | k paths f Hf IH]; intros o n w Hw; cbn [run].
  - split; [reflexivity |]. split; [apply slots_kept_refl |].
    split; [intros _; now eexists |]. exists []. split; [reflexivity | split; [cbn; lia | constructor]].
  - split; [reflexivity |]. split; [apply slots_kept_refl |].
    split; [intros Hf; rewrite Ht in Hf; discriminate Hf |]. exists []. split; [reflexivity | split; [cbn; lia | constructor]].
  - now apply IH.
  - destruct (Hq w) as (Hb & Hcp & Hce & Hi).
    destruct (IH o n (f w)) as (Hb' & [Hs1 Hs2] & Hret & new & Hnew & Hlen & Hall).
    { rewrite (cfg_base _ _ Hb). exact Hw. }
    split; [congruence |]. split; [split; [rewrite <- Hcp | rewrite <- Hce]; assumption |].
    split; [exact Hret |]. exists new. rewrite <- Hi. now repeat split.
  - destruct (refused r w) eqn:Hrefused.
    + destruct (IH (Throw canceled) o n (cancel r w)) as (Hb & Hs & Hret & new & Hnew & Hlen & Hall);
        [exact Hw |].
      split; [exact Hb |]. split; [exact Hs |]. split; [exact Hret |].
      exists new. split; [exact Hnew |]. split; [lia | exact Hall].
    + set (w1 := interfere o n (issue r w)).
      assert (Hb1 : base w1 = base w) by (unfold w1; now rewrite base_interfere).
      assert (Hi1 : issued w1 = r :: issued w) by (unfold w1; now rewrite issued_interfere).
      assert (Hs1 : slots_kept w w1) by (unfold w1; apply (slots_interfere o n (issue r w))).
      destruct (settle_cases r w1 (reply o n)) as [(s & _ & Hsettle) | Hsettle];
        rewrite Hsettle; cbn [fst snd].
      * destruct (IH (Throw canceled) o (S n) (cancel r w1))
          as (Hb & Hs & Hret & new & Hnew & Hlen & Hall).
        { change (cfg (cancel r w1)) with (cfg w1). rewrite (cfg_base _ _ Hb1). exact Hw. }
        split; [change (base (cancel r w1)) with (base w1) in Hb; congruence |].
        split; [eapply slots_kept_trans; [exact Hs1 | exact Hs] |].
        split; [exact Hret |].
        exists (new ++ [r])%list. split.
        { rewrite Hnew. change (issued (cancel r w1)) with (issued w1). rewrite Hi1.
          now rewrite <- app_assoc. }
        split; [rewrite length_app; cbn [List.length]; lia |].
        apply Forall_app. split; [exact Hall | now constructor].
      * destruct (IH (reply o n) o (S n) w1) as (Hb & Hs & Hret & new & Hnew & Hlen & Hall).
        { rewrite (cfg_base _ _ Hb1). exact Hw. }
        split; [congruence |].
        split; [eapply slots_kept_trans; [exact Hs1 | exact Hs] |].
        split; [exact Hret |].
        exists (new ++ [r])%list. split.
        { rewrite Hnew, Hi1. now rewrite <- app_assoc. }
        split; [rewrite length_app; cbn [List.length]; lia |].
        apply Forall_app. split; [exact Hall | now constructor].
  - destruct (IH (window_language o n) o (S n) (interfere o n w))
      as (Hb & Hs & Hret & new & Hnew & Hlen & Hall).
    { rewrite cfg_interfere. exact Hw. }
    split; [rewrite Hb; apply base_interfere |].
    split; [eapply slots_kept_trans; [apply slots_interfere | exact Hs] |].
    split; [exact Hret |]. exists new. rewrite issued_interfere in Hnew. now repeat split.
  - destruct (IH (loaded o n) o (S n) (interfere o n w))
      as (Hb & Hs & Hret & new & Hnew & Hlen & Hall).
    { rewrite cfg_interfere. exact Hw. }
    split; [rewrite Hb; apply base_interfere |].
    split; [eapply slots_kept_trans; [apply slots_interfere | exact Hs] |].
    split; [exact Hret |]. exists new. rewrite issued_interfere in Hnew. now repeat split.
Qed.

End Logic.

End DisciplineFacts.

Module StageDiscipline.
Import JsString Js App Async Orchestrator Runtime.
Import RunProperties Texts Examples.
Import RunFacts StageFacts PipelineFacts.
Import Discipline.
Import DisciplineFacts.

Section Logic.
Variable config : App.config.
Variable signal : nat.

Lemma bounded_bind_sub {A B : Type} (t : bool) (a k : nat) (p : async A) (f : A -> async B) :
  a <= k ->
  bounded config signal t a p ->
  (forall x, bounded config signal t (k - a) (f x)) ->
  bounded config signal t k (abind p f).
Proof.
  intros Hle Hp Hf. replace k with (a + (k - a)) by lia. now apply bounded_bind.
Qed.

Lemma bounded_try_quiet {A : Type} (t : bool) (k : nat) (p : async A) (h : error -> async A) :
  bounded config signal true k p ->
  (forall e, bounded config signal t 0 (h e)) ->
  bounded config signal t k (Async.try_catch p h).
Proof.
  intros Hp Hh. replace k with (k + 0) by lia. now apply bounded_try.
Qed.

Lemma bounded_getLanguage (t : bool) (k : nat) : bounded config signal t k getLanguage.
Proof.
  unfold getLanguage. cbn [bind ret Monad_async abind read].
  constructor. intros w Hw. destruct (ResponseParser.nonempty _); [constructor |].
  cbn [abind]. constructor. intros w' Hw'. destruct (mainWindow w'); repeat constructor.
Qed.

End Logic.

Ltac unfold_stage :=
  cbn [bind ret Monad_async abind Async.try_catch read write await lift notify
       generateMCQSolution initializeAIClient fst snd Nat.sub].

Ltac quiet_write := intros ?; repeat split.

Ltac discipline :=
  unfold disciplined, signal_for; cbn [req_provider req_signal];
  match goal with
  | H : apiProvider _ = _ |- _ => rewrite H; split; reflexivity
  end.

Ltac known_config :=
  repeat match goal with
         | H : apiProvider ?c = _ |- context [apiProvider ?c] => rewrite H
         | H : mode ?c = _ |- context [mode ?c] => rewrite H
         end.

Ltac stage_step :=
  unfold_stage;
  lazymatch goal with
  | |- bounded _ _ _ _ (Ret _) => apply bounded_Ret
  | |- bounded _ _ _ _ (Raise _) => apply bounded_Raise; reflexivity
  | |- bounded _ _ _ _ (Get _) =>
      let w := fresh "w" in
      let Hw := fresh "Hw" in
      apply bounded_Get; intros w Hw; rewrite ?Hw; known_config
  | |- bounded _ _ _ _ (Modify _ _) => apply bounded_Modify; [quiet_write |]
  | |- bounded _ _ _ _ (AwaitRequest _ _) =>
      apply bounded_Request; [discipline | intros ?]
  | |- bounded _ _ _ _ (AwaitLanguage _) => apply bounded_Language; intros ?
  | |- bounded _ _ _ _ (AwaitScreenshots _ _) => apply bounded_Screenshots; intros ?
  | |- bounded _ _ _ _ (Async.try_catch (abind getLanguage _) _) =>
      apply bounded_try_quiet;
      [apply (bounded_bind_sub _ _ true 0); [lia | apply bounded_getLanguage | intros ?] | intros ?]
  | |- context [lift ?c] => destruct c eqn:?
  | |- context [match ?x with _ => _ end] => destruct x eqn:?
  end.

Ltac stage := repeat stage_step.

Lemma handleMCQResponse_bounded (config : App.config) (problemInfo : value) (signal : nat) :
  bounded config signal false 1 (handleMCQResponse problemInfo signal).
Proof. unfold handleMCQResponse. stage. Qed.

Ltac sub_stage lemma :=
  eapply bounded_weaken; [apply lemma | auto | lia].

Ltac mcq_step :=
  unfold_stage;
  lazymatch goal with
  | |- bounded _ _ _ _ (Async.try_catch (abind (handleMCQResponse _ _) _) _) =>
      apply bounded_try_quiet;
      [apply (bounded_bind_sub _ _ true 1);
       [lia | sub_stage handleMCQResponse_bounded | intros ?] | intros ?]
  | |- bounded _ _ _ _ (Async.try_catch (handleMCQResponse _ _) _) =>
      apply bounded_try_quiet; [sub_stage handleMCQResponse_bounded | intros ?]
  | |- bounded _ _ _ _ (abind (handleMCQResponse _ _) _) =>
      apply (bounded_bind_sub _ _ _ 1);
      [lia | sub_stage handleMCQResponse_bounded | intros ?]
  | |- _ => stage_step
  end.

Lemma generateSolutionsHelper_bounded (config : App.config) (signal : nat) :
  bounded config signal false 1 (generateSolutionsHelper signal).
Proof. unfold generateSolutionsHelper. repeat mcq_step. Qed.

Ltac helper_step :=
  unfold_stage;
  lazymatch goal with
  | |- bounded _ _ _ _ (Async.try_catch (abind (generateSolutionsHelper _) _) _) =>
      apply bounded_try_quiet;
      [apply (bounded_bind_sub _ _ true 1);
       [lia | sub_stage generateSolutionsHelper_bounded | intros ?] | intros ?]
  | |- bounded _ _ _ _ (abind (generateSolutionsHelper _) _) =>
      apply (bounded_bind_sub _ _ _ 1);
      [lia | sub_stage generateSolutionsHelper_bounded | intros ?]
  | |- _ => mcq_step
  end.

Section Helpers.
Variable R : string -> completion Regex.regex.

Lemma processScreenshotsHelper_bounded (config : App.config)
    (screenshots : list string) (signal : nat) :
  bounded config signal false 2 (processScreenshotsHelper R screenshots signal).
Proof. unfold processScreenshotsHelper. repeat helper_step. Qed.

Lemma processExtraScreenshotsHelper_bounded (config : App.config)
    (screenshots : list string) (signal : nat) :
  bounded config signal false 1 (processExtraScreenshotsHelper screenshots signal).
Proof. unfold processExtraScreenshotsHelper. repeat helper_step. Qed.

End Helpers.

End StageDiscipline.

Module QueueFacts.
Import JsString Js App Async Orchestrator Runtime.
Import RunProperties Texts Examples.
Import RunFacts StageFacts PipelineFacts.
Import Discipline DisciplineFacts StageDiscipline.

Lemma run_getLanguage_world o n w :
  exists l n' w',
    run getLanguage o n w = Outcome (Normal l) n' w' /\
    (w' = w \/ w' = interfere o n w).
Proof.
  unfold getLanguage. sim.
  destruct (ResponseParser.nonempty (language (cfg w))); sim.
  - exists (language (cfg w)), n, w. now split; [| left].
  - destruct (mainWindow w); sim.
    + exists (window_language o n), (S n), (interfere o n w). now split; [| right].
    + exists "python", n, w. now split; [| left].
Qed.

Section Stages.
Variable R : string -> completion Regex.regex.

Lemma primary_stage_sound (screenshots : list string) (signal : nat)
    (o : oracle) (n : nat) (w : world) :
  contract (cfg w) signal false 2 w
    (run (processScreenshotsHelper R screenshots signal) o n w).
Proof.
  exact (contract_sound (cfg w) signal false 2 _
           (processScreenshotsHelper_bounded R (cfg w) screenshots signal) o n w eq_refl).
Qed.

Lemma debug_stage_sound (screenshots : list string) (signal : nat)
    (o : oracle) (n : nat) (w : world) :
  contract (cfg w) signal false 1 w
    (run (processExtraScreenshotsHelper screenshots signal) o n w).
Proof.
  exact (contract_sound (cfg w) signal false 1 _
           (processExtraScreenshotsHelper_bounded (cfg w) screenshots signal) o n w eq_refl).
Qed.

Lemma main_queue_post (o : oracle) (n : nat) (w : world) :
  run_post 2 w (run (processMainQueue R) o n w).
Proof.
  unfold processMainQueue, run_post. sim.
  destruct (screenshotQueue w) as [|p ps].
  { sim. split; [reflexivity |]. split; [split; now left |].
    split; [reflexivity |]. split; [now left |].
    exists []. split; [reflexivity |]. split; [cbn; lia | constructor]. }
  sim.
  destruct (filter _ (p :: ps)) as [|e es].
  { sim. split; [reflexivity |]. split; [split; now left |].
    split; [reflexivity |]. split; [now left |].
    exists []. split; [reflexivity |]. split; [cbn; lia | constructor]. }
  cbn zeta. rewrite run_finally. sim. rewrite run_try_catch. sim.
  set (w1 := interfere o n _).
  assert (Hb1 : cfg w1 = cfg w) by (unfold w1; now rewrite cfg_interfere).
  assert (Hn1 : nextController w1 = S (nextController w))
    by (unfold w1; now rewrite nextController_interfere).
  assert (Hi1 : issued w1 = issued w) by (unfold w1; now rewrite issued_interfere).
  assert (Hs1 : currentExtraProcessingAbortController w1
                  = currentExtraProcessingAbortController w \/
                currentExtraProcessingAbortController w1 = None).
  { unfold w1. destruct (slots_interfere o n
      (set_processing (Some (nextController w)) (fresh_controller (send INITIAL_START w))))
      as [_ H]. exact H. }
  destruct (validScreenshots _) as [|v vs].
  - sim. split; [destruct (isCancel _); reflexivity |].
    split; [split; [now right |]; destruct (isCancel _); sim; exact Hs1 |].
    split; [destruct (isCancel _); sim; exact Hb1 |].
    split; [right; destruct (isCancel _); sim; exact Hn1 |].
    exists []. split; [destruct (isCancel _); sim; unfold issued; sim; exact Hi1 |].
    split; [cbn; lia | constructor].
  - rewrite run_bind.
    destruct (primary_stage_sound (v :: vs) (nextController w) o (S n) w1)
      as (Hbase & [_ Hs2] & Hret & new & Hnew & Hlen & Hall).
    destruct (Hret eq_refl) as (result & Hresult). clear Hret. rename Hresult into Hret.
    destruct (run (processScreenshotsHelper R (v :: vs) (nextController w)) o (S n) w1)
      as [ret n' w'].
    cbn [returned final suspensions] in *. subst ret.
    assert (Hc : cfg w' = cfg w) by (unfold base in Hbase; congruence).
    assert (Hn : nextController w' = S (nextController w)) by (unfold base in Hbase; congruence).
    assert (Hs : currentExtraProcessingAbortController w'
                   = currentExtraProcessingAbortController w \/
                 currentExtraProcessingAbortController w' = None)
      by (destruct Hs1, Hs2; first [left; congruence | right; congruence]).
    rewrite Hb1 in Hall. rewrite Hi1 in Hnew.
    destruct result as [d|error]; sim.
    + split; [reflexivity |]. split; [split; [now right | exact Hs] |].
      split; [exact Hc |]. split; [now right |].
      exists new. unfold issued in *. sim. now repeat split.
    + destruct (includes "API Key" error || includes "OpenAI" error || includes "Gemini" error);
        sim; (split; [reflexivity |]); (split; [split; [now right | exact Hs] |]);
        (split; [exact Hc |]); (split; [now right |]);
        exists new; unfold issued in *; sim; now repeat split.
Qed.

Lemma extra_queue_post (o : oracle) (n : nat) (w : world) :
  run_post 1 w (run processExtraQueue o n w).
Proof.
  unfold processExtraQueue, run_post. sim.
  destruct (extraScreenshotQueue w) as [|p ps].
  { sim. split; [reflexivity |]. split; [split; now left |].
    split; [reflexivity |]. split; [now left |].
    exists []. split; [reflexivity |]. split; [cbn; lia | constructor]. }
  sim.
  destruct (filter _ (p :: ps)) as [|e es].
  { sim. split; [reflexivity |]. split; [split; now left |].
    split; [reflexivity |]. split; [now left |].
    exists []. split; [reflexivity |]. split; [cbn; lia | constructor]. }
  cbn zeta. sim. rewrite run_finally. sim. rewrite run_try_catch. sim.
  set (w1 := interfere o n _).
  assert (Hb1 : cfg w1 = cfg w) by (unfold w1; now rewrite cfg_interfere).
  assert (Hn1 : nextController w1 = S (nextController w))
    by (unfold w1; now rewrite nextController_interfere).
  assert (Hi1 : issued w1 = issued w) by (unfold w1; now rewrite issued_interfere).
  assert (Hs1 : currentProcessingAbortController w1
                  = currentProcessingAbortController w \/
                currentProcessingAbortController w1 = None).
  { unfold w1. destruct (slots_interfere o n
      (set_extraProcessing (Some (nextController w)) (fresh_controller (send DEBUG_START w))))
      as [H _]. exact H. }
  destruct (validScreenshots _) as [|v vs].
  - sim. split; [destruct (isCancel _); reflexivity |].
    split; [split; [destruct (isCancel _); sim; exact Hs1 | now right] |].
    split; [destruct (isCancel _); sim; exact Hb1 |].
    split; [right; destruct (isCancel _); sim; exact Hn1 |].
    exists []. split; [destruct (isCancel _); sim; unfold issued; sim; exact Hi1 |].
    split; [cbn; lia | constructor].
  - rewrite run_bind.
    destruct (debug_stage_sound (v :: vs) (nextController w) o (S n) w1)
      as (Hbase & [Hs2 _] & Hret & new & Hnew & Hlen & Hall).
    destruct (Hret eq_refl) as (result & Hresult). clear Hret. rename Hresult into Hret.
    destruct (run (processExtraScreenshotsHelper (v :: vs) (nextController w)) o (S n) w1)
      as [ret n' w'].
    cbn [returned final suspensions] in *. subst ret.
    assert (Hc : cfg w' = cfg w) by (unfold base in Hbase; congruence).
    assert (Hn : nextController w' = S (nextController w)) by (unfold base in Hbase; congruence).
    assert (Hs : currentProcessingAbortController w'
                   = currentProcessingAbortController w \/
                 currentProcessingAbortController w' = None)
      by (destruct Hs1, Hs2; first [left; congruence | right; congruence]).
    rewrite Hb1 in Hall. rewrite Hi1 in Hnew.
    destruct result as [d|error]; sim;
      (split; [reflexivity |]); (split; [split; [exact Hs | now right] |]);
      (split; [exact Hc |]); (split; [now right |]);
      exists new; unfold issued in *; sim; now repeat split.
Qed.

End Stages.

End QueueFacts.

Module ReportFacts.
Import JsString Js App Async Orchestrator Runtime.
Import RunProperties RunFacts StageFacts PipelineFacts.
Import Discipline DisciplineFacts StageDiscipline QueueFacts Reports.

Section Stages.
Variable R : string -> completion Regex.regex.

Lemma main_queue_reports (o : oracle) (n : nat) (w : world) :
  reported queue (final (run (processMainQueue R) o n w)).
Proof.
  unfold processMainQueue, reported. sim.
  destruct (screenshotQueue w) as [|p ps].
  { sim. now eexists _, _. }
  sim.
  destruct (filter _ (p :: ps)) as [|e es].
  { sim. now eexists _, _. }
  cbn zeta. rewrite run_finally. sim. rewrite run_try_catch. sim.
  set (w1 := interfere o n _).
  destruct (validScreenshots _) as [|v vs].
  - sim. destruct (isCancel _); sim; now eexists _, _.
  - rewrite run_bind.
    destruct (primary_stage_sound R (v :: vs) (nextController w) o (S n) w1)
      as (_ & _ & Hret & _).
    destruct (Hret eq_refl) as (result & Hresult).
    destruct (run (processScreenshotsHelper R (v :: vs) (nextController w)) o (S n) w1)
      as [ret n' w'].
    cbn [returned final suspensions] in *. subst ret.
    destruct result as [d|error]; sim.
    + now eexists _, _.
    + destruct (includes "API Key" error || includes "OpenAI" error || includes "Gemini" error);
        sim; now eexists _, _.
Qed.

Lemma extra_queue_reports (o : oracle) (n : nat) (w : world) :
  reported solutions (final (run processExtraQueue o n w)).
Proof.
  unfold processExtraQueue, reported. sim.
  destruct (extraScreenshotQueue w) as [|p ps].
  { sim. now eexists _, _. }
  sim.
  destruct (filter _ (p :: ps)) as [|e es].
  { sim. now eexists _, _. }
  cbn zeta. sim. rewrite run_finally. sim. rewrite run_try_catch. sim.
  set (w1 := interfere o n _).
  destruct (validScreenshots _) as [|v vs].
  - sim. destruct (isCancel _); sim; now eexists _, _.
  - rewrite run_bind.
    destruct (debug_stage_sound (v :: vs) (nextController w) o (S n) w1)
      as (_ & _ & Hret & _).
    destruct (Hret eq_refl) as (result & Hresult).
    destruct (run (processExtraScreenshotsHelper (v :: vs) (nextController w)) o (S n) w1)
      as [ret n' w'].
    cbn [returned final suspensions] in *. subst ret.
    destruct result as [d|error]; sim; now eexists _, _.
Qed.

End Stages.

End ReportFacts.

Module ComplexityFacts.
Import JsString Regex Js ResponseParser ComplexityProperties.

Lemma includes_append (p a b : string) :
  includes p b = true -> includes p (a ++ b) = true.
Proof.
  unfold includes. intros Hb. induction a as [|c a IH]; [exact Hb |].
  change (String c a ++ b) with (String c (a ++ b)). cbn [indexOf].
  destruct (startsWith p (String c (a ++ b))); [reflexivity |].
  destruct (indexOf p (a ++ b)); [reflexivity | discriminate IH].
Qed.

Lemma separated_explained (a b : string) : explained (a ++ " - " ++ b).
Proof.
  unfold explained. rewrite (includes_append "-" a (" - " ++ b)); reflexivity.
Qed.

Lemma normalizeComplexity_explained (captured : string) :
  explained (normalizeComplexity captured).
Proof.
  unfold normalizeComplexity. cbv zeta.
  destruct (exec bigO (trim captured)) as [notationMatch|].
  - destruct (includes "-" (trim captured)) eqn:Hdash; cbn [negb andb].
    + unfold explained. now rewrite Hdash.
    + destruct (includes "because" (trim captured)) eqn:Hbecause; cbn [negb].
      * unfold explained. now rewrite Hdash, Hbecause.
      * apply separated_explained.
  - apply (separated_explained "O(n)" (trim captured)).
Qed.

Lemma extractComplexity_explained (pattern : regex) (fallback responseContent : string) :
  explained fallback -> explained (extractComplexity pattern fallback responseContent).
Proof.
  intros Hf. unfold extractComplexity.
  destruct (exec pattern responseContent) as [mr|]; [| exact Hf].
  destruct (group 1 mr) as [captured|]; [| exact Hf].
  destruct (nonempty captured); [apply normalizeComplexity_explained | exact Hf].
Qed.

End ComplexityFacts.

Module MarkerFacts.
Import JsString Regex Js ResponseParser Mcq QuestionSet MarkerProperties.

Lemma star_loop_dead (body : cont -> cont) reset g k n :
  (forall k', dead k' -> dead (body k')) -> dead k -> dead (star_loop body reset g k n).
Proof.
  intros Hbody Hk. induction n as [|n IH]; intros i s c Hs; cbn [star_loop]; [reflexivity |].
  assert (Hagain : body (fun i' s' c' => if i' =? i then None
                                         else star_loop body reset g k n i' s' c')
                     i s (reset c) = None).
  { apply Hbody; [| exact Hs]. intros i' s' c' Hs'.
    destruct (i' =? i); [reflexivity | now apply IH]. }
  rewrite Hagain, (Hk i s c Hs). now destruct g.
Qed.

(** An expression cannot revive a continuation that is dead. *)
Lemma m_dead (r : regex) : forall k, dead k -> dead (m r k).
Proof.
  induction r as [| p | r1 IH1 r2 IH2 | r1 IH1 r2 IH2 | g r1 IH1 | g r1 IH1
                  | n r1 IH1 | positive r1 IH1 | |];
    intros k Hk i s c Hs; cbn [m].
  - now apply Hk.
  - destruct s as [|a s']; [reflexivity |]. cbn [unmarked] in Hs.
    apply andb_true_iff in Hs. destruct Hs as [_ Hs'].
    destruct (p a); [now apply Hk | reflexivity].
  - apply IH1; [| exact Hs]. now apply IH2.
  - now rewrite (IH1 k Hk i s c Hs), (IH2 k Hk i s c Hs).
  - now apply star_loop_dead.
  - assert (Honce : m r1 (fun i' s' c' => if i' =? i then None else k i' s' c')
                      i s (uncap (groups r1) c) = None).
    { apply IH1; [| exact Hs]. intros i' s' c' Hs'.
      destruct (i' =? i); [reflexivity | now apply Hk]. }
    rewrite Honce, (Hk i s c Hs). now destruct g.
  - apply IH1; [| exact Hs]. intros i' s' c' Hs'. now apply Hk.
  - destruct positive.
    + destruct (m r1 accept i s c) as [[e c']|]; [now apply Hk | reflexivity].
    + destruct (m r1 accept i s c); [reflexivity | now apply Hk].
  - destruct (i =? 0); [now apply Hk | reflexivity].
  - destruct s; [now apply Hk | reflexivity].
Qed.

(** An expression that goes through a marker fails on every text that
    holds none, whatever follows it. *)
Lemma marked_dead (r : regex) : marked r -> forall k, dead (m r k).
Proof.
  induction 1 as [p Hp | r1 r2 _ IH | r1 r2 _ IH | r1 r2 _ IH1 _ IH2 | n r _ IH];
    intros k i s c Hs; cbn [m].
  - destruct s as [|a s']; [reflexivity |]. cbn [unmarked] in Hs.
    apply andb_true_iff in Hs. destruct Hs as [Ha _].
    destruct (p a) eqn:Hpa; [| reflexivity].
    rewrite (Hp a Hpa) in Ha. discriminate Ha.
  - now apply IH.
  - apply m_dead; [apply IH | exact Hs].
  - now rewrite (IH1 k i s c Hs), (IH2 k i s c Hs).
  - now apply IH.
Qed.

Lemma unmarked_drop (n : nat) : forall s, unmarked s = true -> unmarked (drop n s) = true.
Proof.
  induction n as [|n IH]; intros [|a s] Hs; cbn [drop]; try exact Hs.
  cbn [unmarked] in Hs. apply andb_true_iff in Hs. now apply IH.
Qed.

Lemma search_unmarked (r : regex) (s : string) :
  marked r -> unmarked s = true -> forall i, search r i s = None.
Proof.
  intros Hr. induction s as [|a s IH]; intros Hs i; cbn [search].
  - now rewrite (marked_dead r Hr accept i "" [] Hs).
  - rewrite (marked_dead r Hr accept i (String a s) [] Hs).
    apply IH. cbn [unmarked] in Hs. apply andb_true_iff in Hs. now destruct Hs.
Qed.

Lemma matchAll_unmarked (r : regex) (s : string) :
  marked r -> unmarked s = true -> matchAll r s = [].
Proof.
  intros Hr Hs. unfold matchAll. cbn [exec_all]. unfold exec_from.
  cbn [Nat.leb drop].
  destruct s; cbn [drop]; now rewrite search_unmarked.
Qed.

End MarkerFacts.

Module LineFacts.
Import JsString Regex Js ResponseParser Mcq QuestionSet MarkerProperties MarkerFacts.
Import OptionProperties.

Lemma dotOrParen_marker (a : ascii) : in_class dotOrParen a = true -> marker a = true.
Proof.
  destruct a as [[] [] [] [] [] [] [] []]; vm_compute; intros H;
    first [reflexivity | discriminate H].
Qed.

Lemma separator_marker (a : ascii) :
  in_classi [One ":"; One "."; One ")"] a = true -> marker a = true.
Proof.
  destruct a as [[] [] [] [] [] [] [] []]; vm_compute; intros H;
    first [reflexivity | discriminate H].
Qed.

Lemma optionPatterns_marked : Forall marked optionPatterns.
Proof.
  unfold optionPatterns.
  repeat apply Forall_cons; [.. | apply Forall_nil];
    unfold optionPatternUpper, optionPatternLower, optionPatternDigit, optionPatternWord.
  - apply marked_Seq_r, marked_Seq_l, marked_Chr, dotOrParen_marker.
  - apply marked_Seq_r, marked_Seq_l, marked_Chr, dotOrParen_marker.
  - apply marked_Seq_r, marked_Seq_r, marked_Seq_l, marked_Chr, dotOrParen_marker.
  - apply marked_Seq_r, marked_Seq_r, marked_Seq_r, marked_Seq_l, marked_Chr,
      separator_marker.
Qed.

(** No option pattern matches in a text without a marker. *)
Lemma firstOptions_unmarked (text : string) :
  unmarked text = true -> firstOptions optionPatterns text = None.
Proof.
  intros Hs. pose proof optionPatterns_marked as H.
  induction H as [|p ps Hp _ IH]; cbn [firstOptions]; [reflexivity |].
  now rewrite (matchAll_unmarked p text Hp Hs).
Qed.

Lemma lineOptions_first_four (rest : list string) :
  lineOptions rest = combine letters (map (fun line => VStr (trim line)) rest).
Proof.
  unfold lineOptions, letters.
  destruct rest as [|l1 [|l2 [|l3 [|l4 rest]]]]; reflexivity.
Qed.

End LineFacts.

Module AnswerListFacts.
Import JsString Regex Js ResponseParser Mcq QuestionSet.
Import TextProperties ObjectFacts BackfillFacts.

(** Without a question of its index the callback hands any answer back. *)
Lemma backfill_unquestioned qs qp a i :
  truthy (nth i qs VUndefined) = false -> backfill (VArr qs qp) a i = Normal a.
Proof.
  intros Hq. unfold backfill. cbn [at_index bind Monad_completion cbind].
  now rewrite Hq.
Qed.

(** The loop over answers that are objects wherever there is a question. *)
Lemma forEach_backfill_questioned qs qp answers :
  forall n,
    (forall i a, nth_error answers i = Some a ->
       truthy (nth (n + i) qs VUndefined) = true -> is_object a = true) ->
    exists answers',
      forEach (backfill (VArr qs qp)) answers n = Normal answers' /\
      List.length answers' = List.length answers /\
      forall i a, nth_error answers i = Some a ->
        exists a', nth_error answers' i = Some a' /\
                   backfilled (nth (n + i) qs VUndefined) a a'.
Proof.
  induction answers as [|a answers IH]; intros n Hobj.
  - exists []. repeat split. intros [|i] a H; discriminate H.
  - assert (Hstep : exists a', backfill (VArr qs qp) a n = Normal a' /\
                               backfilled (nth n qs VUndefined) a a').
    { destruct (truthy (nth n qs VUndefined)) eqn:Hq.
      - pose proof (Hobj 0 a eq_refl) as Ha. rewrite Nat.add_0_r in Ha.
        specialize (Ha Hq). destruct a; try discriminate Ha.
        destruct (backfill_object qs qp props n) as (ps' & H1 & H2).
        now exists (VObj ps').
      - exists a. split; [now apply backfill_unquestioned |].
        unfold backfilled. now rewrite Hq. }
    destruct Hstep as (a' & Hstep & Hspec).
    destruct (IH (S n)) as (rest & Hrest & Hlen & Hnth).
    { intros i x Hi Hq. apply (Hobj (S i) x Hi).
      now replace (n + S i) with (S n + i) by lia. }
    exists (a' :: rest). cbn [forEach bind Monad_completion cbind].
    rewrite Hstep. cbn [cbind]. rewrite Hrest. cbn [cbind ret].
    repeat split; [cbn; now rewrite Hlen |].
    intros [|i] x Hi; cbn [nth_error] in *.
    + injection Hi as <-. exists a'. rewrite Nat.add_0_r. now split.
    + destruct (Hnth i x Hi) as (x' & Hx' & Hb). exists x'. split; [exact Hx' |].
      now replace (n + S i) with (S n + i) by lia.
Qed.

End AnswerListFacts.

Module ValidationFacts.
Import JsString Regex Js ResponseParser Mcq QuestionSet.
Import TextProperties ObjectFacts KeyFacts BackfillFacts.
Import OptionFacts RepairFacts LoopFacts QuestionProperties.

Section WithRegExp.
Variable RegExp_i : string -> completion regex.

Lemma question_extracted (number : string) (extractResult : string * list (string * value)) :
  extracted_question (question number extractResult).
Proof. now exists number, (fst extractResult), (snd extractResult). Qed.

Lemma patternQuestions_extracted (matches : list match_result) :
  forall l, patternQuestions RegExp_i matches = Normal l -> Forall extracted_question l.
Proof.
  induction matches as [|mr matches IH]; intros l; cbn [patternQuestions].
  - intros H. injection H as <-. constructor.
  - destruct (group 1 mr) as [questionNum|]; [| exact (IH l)].
    destruct (group 2 mr) as [fullText|]; [| exact (IH l)].
    cbn [bind Monad_completion cbind ret].
    destruct (extractOptionsFromText RegExp_i (trim fullText)) as [extractResult|e];
      cbn [cbind]; [| discriminate].
    destruct (patternQuestions RegExp_i matches) as [rest|e]; cbn [cbind]; [| discriminate].
    intros H. injection H as <-. constructor; [apply question_extracted | now apply IH].
Qed.

Lemma blockQuestions_extracted (blocks : list string) :
  forall i l, blockQuestions RegExp_i blocks i = Normal l -> Forall extracted_question l.
Proof.
  induction blocks as [|block blocks IH]; intros i l; cbn [blockQuestions].
  - intros H. injection H as <-. constructor.
  - cbn [bind Monad_completion cbind ret].
    destruct (extractOptionsFromText RegExp_i block) as [extractResult|e];
      cbn [cbind]; [| discriminate].
    destruct (blockQuestions RegExp_i blocks (S i)) as [rest|e] eqn:Hrest;
      cbn [cbind]; [| discriminate].
    destruct (snd extractResult); intros H; injection H as <-.
    + exact (IH _ _ Hrest).
    + constructor; [apply question_extracted | exact (IH _ _ Hrest)].
Qed.

Lemma extractQuestionsFromText_extracted (text : string) (l : list value) :
  extractQuestionsFromText RegExp_i text = Normal l -> Forall extracted_question l.
Proof.
  unfold extractQuestionsFromText. cbn [bind Monad_completion cbind ret].
  destruct (patternQuestions RegExp_i (matchAll numberedQuestion text)) as [numbered|e] eqn:Hn;
    cbn [cbind]; [| discriminate].
  destruct (patternQuestions RegExp_i (matchAll letteredQuestion text)) as [lettered|e] eqn:Hl;
    cbn [cbind]; [| discriminate].
  pose proof (patternQuestions_extracted _ _ Hn) as H1.
  pose proof (patternQuestions_extracted _ _ Hl) as H2.
  destruct (numbered ++ lettered)%list as [|q qs] eqn:Happ.
  - apply blockQuestions_extracted.
  - intros H. injection H as <-. rewrite <- Happ. apply Forall_app. now split.
Qed.

(** The two ways of validateAndFixMCQFormat: the repair loop over the
    questions that came with the problem info, or the questions taken from
    the raw response. *)
Lemma validate_repairs (problemInfo : value) (rawResponse : string)
    (q0 : value) (qs0 : list value) (props0 : list (string * value)) (v : value) :
  get problemInfo "questions" = Normal (VArr (q0 :: qs0) props0) ->
  validateAndFixMCQFormat RegExp_i problemInfo rawResponse = Normal v ->
  exists fixed,
    forEach (fixQuestion RegExp_i) (q0 :: qs0) 0 = Normal fixed /\
    get v "questions" = Normal (VArr fixed props0).
Proof.
  intros Hq Hrun. unfold validateAndFixMCQFormat in Hrun.
  assert (Htruthy : truthy problemInfo = true)
    by (destruct problemInfo; try discriminate Hq; reflexivity).
  rewrite Htruthy, Hq in Hrun. cbn [bind Monad_completion cbind ret] in Hrun.
  destruct (forEach (fixQuestion RegExp_i) (q0 :: qs0) 0) as [fixed|e] eqn:Hloop;
    [| discriminate Hrun].
  cbn [cbind] in Hrun. exists fixed. split; [reflexivity |].
  destruct problemInfo as [| | | | |l ps|ps]; try discriminate Hq;
    injection Hrun as <-; cbn [get] in Hq |- *.
  all: (rewrite lookup_overwrite_same; [reflexivity |]);
    unfold has; destruct (lookup "questions" ps); [reflexivity | discriminate Hq].
Qed.

Lemma validate_extracts (problemInfo : value) (rawResponse : string) (v : value) :
  (forall q0 qs0 props0, get problemInfo "questions" <> Normal (VArr (q0 :: qs0) props0)) ->
  validateAndFixMCQFormat RegExp_i problemInfo rawResponse = Normal v ->
  exists extracted,
    extractQuestionsFromText RegExp_i rawResponse = Normal extracted /\
    v = match extracted with
        | [] => placeholder
        | _ :: _ => VObj [("questions", jarray extracted)]
        end.
Proof.
  intros Hnone. unfold validateAndFixMCQFormat.
  assert (Hearly :
            cbind (extractQuestionsFromText RegExp_i rawResponse)
              (fun extracted => match extracted with
                                | [] => Normal placeholder
                                | _ :: _ => Normal (VObj [("questions", jarray extracted)])
                                end) = Normal v ->
            exists extracted,
              extractQuestionsFromText RegExp_i rawResponse = Normal extracted /\
              v = match extracted with
                  | [] => placeholder
                  | _ :: _ => VObj [("questions", jarray extracted)]
                  end).
  { destruct (extractQuestionsFromText RegExp_i rawResponse) as [extracted|e];
      cbn [cbind]; [| discriminate].
    intros H. exists extracted. split; [reflexivity |].
    destruct extracted; now injection H as <-. }
  destruct (truthy problemInfo) eqn:Htruthy.
  - destruct (get problemInfo "questions") as [questions|e] eqn:Hq; [| discriminate].
    cbn [bind Monad_completion cbind ret].
    destruct questions as [| | | | |[|q0 qs0] props0|]; try exact Hearly.
    now destruct (Hnone q0 qs0 props0).
  - cbn [bind Monad_completion cbind ret]. exact Hearly.
Qed.

End WithRegExp.

End ValidationFacts.

(* ===================================================================== *)
(** * The claims about the pipeline *)
(* ===================================================================== *)

Import JsString Js App Async Orchestrator Runtime.
Import RunProperties Texts Examples.
Import RunFacts StageFacts PipelineFacts.
Import QuestionSet.

(** C1, at the failing input: an OpenAI run in coding mode whose token is
    canceled after the extraction stage is over and before the synthesis
    stage begins.  Controller 0 is aborted, and the only request issued after
    that is the synthesis request, which carries no signal; the run ends on
    the solutions view. *)
Theorem openai_synthesis_issued_after_cancel :
  let r := run (processScreenshots RegExp_plain) cancel_between_stages 0
             (session openai coding "") in
  is_aborted 0 (final r) = true /\
  issued_of (since_abort 0 (log (final r))) = [Request openai Synthesis None] /\
  view (final r) = solutions.
Proof. cbv zeta. repeat split; vm_compute; reflexivity. Qed.

(** The Gemini branch under the same cancellation: its synthesis request
    carries the signal of the run, is rejected, and nothing is issued after
    the abort. *)
Lemma gemini_synthesis_refused_after_cancel :
  let r := run (processScreenshots RegExp_plain) cancel_between_stages 0
             (session gemini coding "") in
  is_aborted 0 (final r) = true /\
  issued_of (since_abort 0 (log (final r))) = [] /\
  In (Canceled (Request gemini Synthesis (Some 0))) (log (final r)).
Proof. cbv zeta. repeat split; vm_compute; auto. Qed.

(** C2 fails: a second primary run started while the extraction request of
    the first is in flight takes controller 1 and leaves controller 0
    unaborted; both runs go on, four requests are issued in all, and the
    answer to the first run, arriving last, replaces the problem the second
    run had stored. *)
Lemma second_run_leaves_first_running :
  let started := steps RegExp_plain (System [] (session gemini coding "python"))
                   (first_in_flight ++ [Invoke_processScreenshots]) in
  let settled := steps RegExp_plain (System [] (session gemini coding "python"))
                   (first_in_flight ++ second_overtakes) in
  issued (state started) = [Request gemini Extraction (Some 0)] /\
  currentProcessingAbortController (state started) = Some 1 /\
  is_aborted 0 (state started) = false /\
  is_aborted 0 (state settled) = false /\
  length (issued (state settled)) = 4 /\
  problemInfo (state settled) = VObj [("problem_statement", VStr "Reverse a list")].
Proof. cbv zeta. repeat split; vm_compute; reflexivity. Qed.



Section Pipeline.
Variable R : string -> completion Regex.regex.

(** C2, amended: when a primary run is started while the controller [c] of an
    earlier one is still stored, the new run takes a fresh controller,
    different from [c], and stores it in place of [c] before it suspends to
    load the screenshots; no controller is aborted by this.  A primary run
    that gets as far as creating its controller leaves the slot empty when
    it settles. *)
Theorem second_run_replaces_token (w : world) (c : nat) :
  mainWindow w = true ->
  view w = queue ->
  client_missing (apiProvider (cfg w)) w = false ->
  filter (existsSync w) (screenshotQueue w) <> [] ->
  currentProcessingAbortController w = Some c ->
  c < nextController w ->
  let started := turn (processScreenshots R) w in
  (exists paths k, fst started = PendingScreenshots paths k) /\
  currentProcessingAbortController (snd started) = Some (nextController w) /\
  nextController w <> c /\
  (forall s, is_aborted s (snd started) = is_aborted s w) /\
  (forall o n, currentProcessingAbortController
                 (final (run (processMainQueue R) o n w)) = None).
Proof.
  intros Hwin Hview Hclient Hfiles Hslot Hfresh. cbv zeta.
  assert (Hq : screenshotQueue w <> []).
  { intros Hnil. rewrite Hnil in Hfiles. now apply Hfiles. }
  unfold processScreenshots. sim2. rewrite Hwin. sim2. rewrite Hclient. sim2.
  rewrite Hview. unfold processMainQueue. sim2.
  destruct (screenshotQueue w) as [|p ps] eqn:Hqueue; [contradiction |].
  sim2. change (existsSync (send INITIAL_START w)) with (existsSync w).
  destruct (filter (existsSync w) (p :: ps)) as [|e es]; [contradiction |].
  cbn [finally]. sim2.
  split; [now eexists _, _ |]. split; [reflexivity |]. split; [lia |].
  split; [reflexivity |].
  intros o n. rewrite run_finally. reflexivity.
Qed.



End Pipeline.

(** The second run of the schedule above meets the hypotheses of C2 as
    amended. *)
Lemma second_run_replaces_token_witness :
  let w := state (steps RegExp_plain (System [] (session gemini coding "python"))
                    first_in_flight) in
  let started := turn (processScreenshots RegExp_plain) w in
  (exists paths k, fst started = PendingScreenshots paths k) /\
  currentProcessingAbortController (snd started) = Some (nextController w) /\
  nextController w <> 0 /\
  (forall s, is_aborted s (snd started) = is_aborted s w) /\
  (forall o n, currentProcessingAbortController
                 (final (run (processMainQueue RegExp_plain) o n w)) = None).
Proof.
  apply (second_run_replaces_token RegExp_plain
           (state (steps RegExp_plain (System [] (session gemini coding "python"))
                     first_in_flight)) 0).
  - vm_compute; reflexivity.
  - vm_compute; reflexivity.
  - vm_compute; reflexivity.
  - vm_compute; discriminate.
  - vm_compute; reflexivity.
  - vm_compute; lia.
Defined.



(* ===================================================================== *)
(** * The claims about the texts of the provider *)
(* ===================================================================== *)

Import JsString Regex Js ResponseParser Mcq QuestionSet.
Import TextProperties.
Import StringFacts RegexFacts FenceFacts ObjectFacts KeyFacts BackfillFacts ForwardFacts JsonFacts.

(** C5, at the failing input: the text of the scenario, which ends with its
    complexity line, yields the default time complexity; the expected value
    is obtained once a line break follows. *)
Theorem time_complexity_last_line :
  time_complexity sortFirst = defaultTimeComplexity /\
  time_complexity (sortFirst ++ LF) = "O(n log n) because we sort first.".
Proof. split; vm_compute; reflexivity. Qed.

(** The three shapes of C5 on lines followed by a line break: a text without
    a Big-O token is prefixed, a token without a separator is split off, a
    well-formed value is kept, and the defaults stand in when there is no
    complexity line. *)
Lemma complexity_shapes :
  time_complexity ("Time complexity: linear in the input" ++ LF) = "O(n) - linear in the input" /\
  time_complexity ("Time complexity: O(n^2) two nested loops" ++ LF) = "O(n^2) - two nested loops" /\
  time_complexity ("Time complexity: O(1) - constant" ++ LF) = "O(1) - constant" /\
  time_complexity "No analysis given." = defaultTimeComplexity /\
  space_complexity "No analysis given." = defaultSpaceComplexity /\
  space_complexity ("Space complexity: one array" ++ LF) = "O(n) - one array".
Proof. repeat split; vm_compute; reflexivity. Qed.

(** C6 fails: a JSON text that holds three backticks inside a string parses
    directly but not through its fenced block, and a fence tagged with
    another language than json does not give its body back. *)
Lemma fenced_backticks_rejected :
  Json.parse backticksInside = Normal (VObj [("a", VStr "```")]) /\
  (exists e, parseFenced ("```json" ++ LF ++ backticksInside ++ LF ++ "```") = Throw e) /\
  Json.parse emptyObject = Normal (VObj []) /\
  (exists e, parseFenced ("```javascript" ++ LF ++ emptyObject ++ LF ++ "```") = Throw e).
Proof.
  split; [vm_compute; reflexivity |].
  split; [eexists; vm_compute; reflexivity |].
  split; [vm_compute; reflexivity |].
  eexists; vm_compute; reflexivity.
Qed.

(** C6, amended: for a body in which no three backticks start, fenced with
    the json tag or (when it does not begin with the letters json) with no
    tag, after any text in which no fence starts and before any text, the
    fenced parse is the direct parse of the trimmed body. *)
Theorem fenced_json_parsed (prefix body suffix : string) :
  fence_free prefix -> fence_free body ->
  parseFenced (prefix ++ "```json" ++ body ++ "```" ++ suffix) = Json.parse (trim body) /\
  (startsWith "json" body = false ->
   parseFenced (prefix ++ "```" ++ body ++ "```" ++ suffix) = Json.parse (trim body)).
Proof.
  intros Hprefix Hfree. unfold parseFenced. split.
  - now rewrite jsonText_tagged.
  - intros Htag. now rewrite jsonText_untagged.
Qed.

Lemma fenced_json_parsed_witness :
  parseFenced ("Here it is:" ++ LF ++ "```json" ++ (LF ++ emptyObject ++ LF) ++ "```" ++ LF)
    = Json.parse (trim (LF ++ emptyObject ++ LF)) /\
  (startsWith "json" (LF ++ emptyObject ++ LF) = false ->
   parseFenced ("Here it is:" ++ LF ++ "```" ++ (LF ++ emptyObject ++ LF) ++ "```" ++ LF)
     = Json.parse (trim (LF ++ emptyObject ++ LF))).
Proof.
  apply (fenced_json_parsed ("Here it is:" ++ LF) (LF ++ emptyObject ++ LF) LF).
  - intros j Hj.
    do 12 (destruct j as [|j]; [vm_compute; reflexivity |]).
    vm_compute in Hj. lia.
  - intros j Hj.
    do 4 (destruct j as [|j]; [vm_compute; reflexivity |]).
    vm_compute in Hj. lia.
Defined.

(** C7 fails: when two keys are rewritten to the same letter the value of
    the first is lost, and the key __proto__ is dropped with its value. *)
Lemma colliding_keys_lose_value :
  normalizeOptions [("1", VStr "Paris"); ("A", VStr "London")] = [("A", VStr "London")] /\
  normalizeOptions [("__proto__", VStr "Paris")] = [].
Proof. split; vm_compute; reflexivity. Qed.

(** C7, amended: the rewriting of a key is the rule of the specification,
    and the value of a key other than __proto__ is found under the rewritten
    key, provided every key rewritten to the same key holds the same value. *)
Theorem option_key_normalized (entries : list (string * value)) (key : string) (v : value) :
  In (key, v) entries ->
  key <> "__proto__" ->
  (forall key' v', In (key', v') entries -> normalizedKey key' = normalizedKey key -> v' = v) ->
  normalizedKey key = keyRule key /\
  lookup (keyRule key) (normalizeOptions entries) = Some v.
Proof.
  intros Hin Hproto Hsame. split; [apply normalizedKey_rule |].
  rewrite <- normalizedKey_rule. unfold normalizeOptions.
  apply normalizeOptions_from.
  - rewrite normalizedKey_rule. intros H. apply Hproto. now apply keyRule_proto.
  - exact Hsame.
  - left. now exists key, v.
Qed.

Lemma option_key_normalized_witness :
  normalizedKey "1" = keyRule "1" /\
  lookup (keyRule "1") (normalizeOptions [("1", VStr "Paris"); ("b", VStr "Rome")])
    = Some (VStr "Paris").
Proof.
  apply (option_key_normalized [("1", VStr "Paris"); ("b", VStr "Rome")] "1" (VStr "Paris")).
  - left; reflexivity.
  - discriminate.
  - intros key' v' [H | [H | []]] Hk.
    + now inversion H.
    + inversion H; subst. vm_compute in Hk. discriminate Hk.
Defined.

Section Backfill.
Import AnswerTexts AnswerListFacts.

(** C8 fails: with a question at every index, an answer list that holds
    [null] makes the loop throw, and parseMCQResponse answers with an empty
    list: the first answer, which lacks its question text, does not get it. *)
Lemma null_answer_stops_backfill :
  Json.parse nullAnswer
    = Normal (VObj [("answers", jarray [VObj [("correct_answer", VStr "A")]; VNull])]) /\
  parseMCQResponse (Some nullAnswer) twoQuestions = Normal (VObj [("answers", jarray [])]).
Proof. split; vm_compute; reflexivity. Qed.

(** C8, amended: for a response whose braces hold a JSON object with an
    answers array, and a problem info whose questions are an array, when
    every answer at an index that has a question is an object:
    parseMCQResponse returns the parsed object with its answers replaced by a
    list of the same length, in which the answer of every index is the
    backfilled one: with a question at its index it takes the question text
    and the options it lacks from that question, and without one it is
    unchanged. *)
Theorem answers_backfilled (content : string) (problemInfo : value)
    (jsonMatch : match_result) (members : list (string * value))
    (answers questions : list value) (aprops qprops : list (string * value)) :
  exec bracePattern content = Some jsonMatch ->
  Json.parse (matched jsonMatch) = Normal (VObj members) ->
  lookup "answers" members = Some (VArr answers aprops) ->
  get problemInfo "questions" = Normal (VArr questions qprops) ->
  (forall i a, nth_error answers i = Some a ->
     truthy (nth i questions VUndefined) = true -> is_object a = true) ->
  exists answers',
    parseMCQResponse (Some content) problemInfo
      = Normal (VObj (overwrite "answers" (VArr answers' aprops) members)) /\
    List.length answers' = List.length answers /\
    forall i a, nth_error answers i = Some a ->
      exists a', nth_error answers' i = Some a' /\
                 backfilled (nth i questions VUndefined) a a'.
Proof.
  intros Hexec Hparse Hanswers Hquestions Hobj.
  destruct (forEach_backfill_questioned questions qprops answers 0 Hobj)
    as (answers' & Hloop & Hlen & Hnth).
  exists answers'. split; [| split; [exact Hlen | exact Hnth]].
  unfold parseMCQResponse. rewrite Hexec.
  cbn [bind Monad_completion cbind]. rewrite Hparse. cbn [cbind get].
  rewrite Hanswers. rewrite Hquestions. cbn [cbind truthy].
  rewrite Hloop. reflexivity.
Qed.

Lemma answers_backfilled_witness :
  exists answers',
    parseMCQResponse (Some oneAnswer) twoQuestions
      = Normal (VObj (overwrite "answers" (VArr answers' [])
                        [("answers", jarray [VObj [("correct_answer", VStr "A")]])])) /\
    List.length answers' = List.length [VObj [("correct_answer", VStr "A")]] /\
    forall i a, nth_error [VObj [("correct_answer", VStr "A")]] i = Some a ->
      exists a', nth_error answers' i = Some a' /\
        backfilled
          (nth i [VObj [("question_text", VStr "Capital of France?");
                        ("options", VObj [("A", VStr "Paris"); ("B", VStr "Rome")])];
                  VObj [("question_text", VStr "Capital of Norway?")]] VUndefined) a a'.
Proof.
  apply (answers_backfilled oneAnswer twoQuestions
           (MatchResult 0 oneAnswer []) _ _ _ [] []).
  - vm_compute. reflexivity.
  - vm_compute. reflexivity.
  - reflexivity.
  - reflexivity.
  - intros [|[|i]] a Hi _; cbn [nth_error] in Hi; try discriminate Hi.
    now injection Hi as <-.
Defined.

End Backfill.

(** C9 fails: the text of an empty object is returned as it was parsed,
    without an answers member. *)
Lemma parseMCQResponse_empty_object :
  parseMCQResponse (Some emptyObject) VNull = Normal (VObj []) /\
  get (VObj []) "answers" = Normal VUndefined.
Proof. split; vm_compute; reflexivity. Qed.

(** C9, amended: on every text parseMCQResponse returns an object and never
    throws; the object has an answers array unless it is the object parsed
    from the braces of the text, which is returned as it is. *)
Theorem parseMCQResponse_total (content : string) (problemInfo : value) :
  exists props,
    parseMCQResponse (Some content) problemInfo = Normal (VObj props) /\
    (has_answers props \/
     exists jsonMatch,
       exec bracePattern content = Some jsonMatch /\
       Json.parse (matched jsonMatch) = Normal (VObj props)).
Proof.
  assert (Hnone : has_answers [("answers", jarray [])]) by (now exists [], []).
  unfold parseMCQResponse.
  destruct (exec bracePattern content) as [jsonMatch|] eqn:Hexec.
  - destruct (brace_match content 0 jsonMatch Hexec) as (rest & Hrest).
    rewrite Hrest.
    destruct (Json.parse (String "{" rest)) as [parsed|e] eqn:Hparse;
      cbn [bind Monad_completion cbind Js.try_catch ret];
      [| eexists; split; [reflexivity | left; exact Hnone]].
    pose proof (parse_brace_object rest parsed Hparse) as Hobj.
    destruct parsed as [| | | | | |ps]; try discriminate Hobj.
    assert (Hsame : exists jsonMatch0 : match_result,
               Some jsonMatch = Some jsonMatch0 /\
               Json.parse (matched jsonMatch0) = Normal (VObj ps)).
    { exists jsonMatch. split; [reflexivity |]. now rewrite Hrest. }
    cbn [get cbind].
    destruct (lookup "answers" ps) as [answers|] eqn:Hanswers;
      [| cbn [Js.try_catch ret Monad_completion]; eexists; split; [reflexivity | now right]].
    destruct answers as [| | | | |elems props|];
      cbn [Js.try_catch ret Monad_completion];
      try (eexists; split; [reflexivity | now right]).
    destruct (get problemInfo "questions") as [questions|e]; cbn [cbind Js.try_catch];
      [| eexists; split; [reflexivity | left; exact Hnone]].
    destruct (truthy questions); cbn [Js.try_catch];
      [| eexists; split; [reflexivity | now right]].
    destruct (forEach (backfill questions) elems 0) as [elems'|e];
      cbn [cbind Js.try_catch with_answers];
      eexists; (split; [reflexivity | left]); [| exact Hnone].
    exists elems', props. apply lookup_overwrite_same.
    unfold has. now rewrite Hanswers.
  - cbn [bind Monad_completion cbind ret].
    destruct (blockAnswers problemInfo 0 _) as [answers|e]; cbn [cbind Js.try_catch].
    + eexists; split; [reflexivity |]. left. now exists answers, [].
    + eexists; split; [reflexivity |]. left. exact Hnone.
Qed.

Section Validation.
Import OptionFacts RepairFacts LoopFacts QuestionProperties ValidationFacts.
Import AnswerTexts Samples.

(** C10 fails: the response that holds an empty object and a numbered
    question reaches validateAndFixMCQFormat with the problem info [{}]; the
    question taken from the text is returned with an empty options map.  And
    on a question list that holds [null] the function throws. *)
Lemma extracted_question_without_options :
  parseProblemInfo_openai bareQuestion = Normal (VObj []) /\
  Orchestrator.extractProblemInfo_openai RegExp_plain true [Some bareQuestion]
    = Normal (VObj [("questions",
                     jarray [VObj [("question_number", VStr "1");
                                   ("question_text", VStr "What is 2+2?");
                                   ("options", VObj [])]])]) /\
  parseProblemInfo_openai nullQuestion = Normal (VObj [("questions", jarray [VNull])]) /\
  exists e, validateAndFixMCQFormat RegExp_plain (VObj [("questions", jarray [VNull])])
              nullQuestion = Throw e.
Proof.
  split; [vm_compute; reflexivity |].
  split; [vm_compute; reflexivity |].
  split; [vm_compute; reflexivity |].
  eexists. vm_compute. reflexivity.
Qed.

(** C10, amended: whenever validateAndFixMCQFormat returns, the questions of
    the result are a non-empty array.  When the problem info came with a
    non-empty question array, the result holds as many questions, each with a
    truthy question_number and an options object that is not empty (the
    default options stand in when none can be extracted) unless the question
    came with options all named [__proto__].  Otherwise the result holds the
    questions that extractQuestionsFromText takes from the raw response, each
    with a question_number, a question_text and an options object of which
    nothing more is said, or the placeholder question when nothing is
    extracted. *)
Theorem validated_questions (RegExp_i : string -> completion regex)
    (problemInfo : value) (rawResponse : string) (v : value) :
  validateAndFixMCQFormat RegExp_i problemInfo rawResponse = Normal v ->
  (exists q qs props, get v "questions" = Normal (VArr (q :: qs) props)) /\
  (forall q0 qs0 props0,
     get problemInfo "questions" = Normal (VArr (q0 :: qs0) props0) ->
     exists fixed,
       get v "questions" = Normal (VArr fixed props0) /\
       List.length fixed = List.length (q0 :: qs0) /\
       forall j q', nth_error fixed j = Some q' ->
         truthy (prop "question_number" q') = true /\
         exists options,
           prop "options" q' = VObj options /\
           ((forall es0,
               entries (prop "options" (nth j (q0 :: qs0) VUndefined)) = Normal es0 ->
               es0 = [] \/ exists k x, In (k, x) es0 /\ k <> "__proto__") ->
            options <> [])) /\
  ((forall q0 qs0 props0,
      get problemInfo "questions" <> Normal (VArr (q0 :: qs0) props0)) ->
   exists extracted,
     extractQuestionsFromText RegExp_i rawResponse = Normal extracted /\
     Forall extracted_question extracted /\
     v = match extracted with
         | [] => placeholder
         | _ :: _ => VObj [("questions", jarray extracted)]
         end).
Proof.
  intros Hrun.
  assert (Hloop : forall q0 qs0 props0,
             get problemInfo "questions" = Normal (VArr (q0 :: qs0) props0) ->
             exists fixed,
               get v "questions" = Normal (VArr fixed props0) /\
               List.length fixed = List.length (q0 :: qs0) /\
               forall j q', nth_error fixed j = Some q' ->
                 truthy (prop "question_number" q') = true /\
                 exists options,
                   prop "options" q' = VObj options /\
                   ((forall es0,
                       entries (prop "options" (nth j (q0 :: qs0) VUndefined)) = Normal es0 ->
                       es0 = [] \/ exists k x, In (k, x) es0 /\ k <> "__proto__") ->
                    options <> [])).
  { intros q0 qs0 props0 Hq.
    destruct (validate_repairs RegExp_i _ _ _ _ _ _ Hq Hrun) as (fixed & Hfixed & Hget).
    destruct (forEach_nth _ _ _ _ Hfixed) as (Hlen & Hnth).
    exists fixed. split; [exact Hget |]. split; [exact Hlen |].
    intros j q' Hj. destruct (Hnth j q' Hj) as (q & Hqj & Hfix).
    rewrite (nth_error_nth _ _ VUndefined Hqj).
    destruct (fixQuestion_repairs RegExp_i q (0 + j) q' Hfix)
      as (Hnumber & options & Hoptions & _ & Hnonempty).
    split; [exact Hnumber |]. now exists options. }
  assert (Hearly : (forall q0 qs0 props0,
                      get problemInfo "questions" <> Normal (VArr (q0 :: qs0) props0)) ->
                   exists extracted,
                     extractQuestionsFromText RegExp_i rawResponse = Normal extracted /\
                     Forall extracted_question extracted /\
                     v = match extracted with
                         | [] => placeholder
                         | _ :: _ => VObj [("questions", jarray extracted)]
                         end).
  { intros Hnone.
    destruct (validate_extracts RegExp_i _ _ _ Hnone Hrun) as (extracted & Hex & Hv).
    exists extracted. split; [exact Hex |]. split; [| exact Hv].
    exact (extractQuestionsFromText_extracted RegExp_i _ _ Hex). }
  split; [| split; [exact Hloop | exact Hearly]].
  assert (Hcases : (exists q0 qs0 props0,
                      get problemInfo "questions" = Normal (VArr (q0 :: qs0) props0)) \/
                   (forall q0 qs0 props0,
                      get problemInfo "questions" <> Normal (VArr (q0 :: qs0) props0))).
  { destruct (get problemInfo "questions") as [[| | | | |[|q0 qs0] props0|]|e];
      first [left; now eexists _, _, _ | right; intros; discriminate]. }
  destruct Hcases as [(q0 & qs0 & props0 & Hq) | Hnone].
  - destruct (Hloop q0 qs0 props0 Hq) as (fixed & Hget & Hlen & _).
    destruct fixed as [|q qs]; [discriminate Hlen |]. now exists q, qs, props0.
  - destruct (Hearly Hnone) as (extracted & _ & _ & ->).
    destruct extracted as [|q qs]; [now eexists _, _, _ | now exists q, qs, []].
Qed.

(** The sample question set goes through the repair loop. *)
Lemma validated_questions_witness :
  exists fixed,
    get capital_repaired "questions" = Normal (VArr fixed []) /\
    List.length fixed = List.length [capital_question] /\
    forall j q', nth_error fixed j = Some q' ->
      truthy (prop "question_number" q') = true /\
      exists options,
        prop "options" q' = VObj options /\
        ((forall es0,
            entries (prop "options" (nth j [capital_question] VUndefined)) = Normal es0 ->
            es0 = [] \/ exists k x, In (k, x) es0 /\ k <> "__proto__") ->
         options <> []).
Proof.
  assert (Hrun : validateAndFixMCQFormat RegExp_plain capital "" = Normal capital_repaired)
    by (vm_compute; reflexivity).
  exact (proj1 (proj2 (validated_questions RegExp_plain capital "" capital_repaired Hrun))
           capital_question [] [] eq_refl).
Defined.

End Validation.

(* ===================================================================== *)
(** * Further properties of the orchestration *)
(* ===================================================================== *)

Section Orchestration.
Import JsString Js App Async Orchestrator Runtime.
Import RunProperties Texts Examples.
Import RunFacts StageFacts PipelineFacts.
Import Discipline DisciplineFacts StageDiscipline QueueFacts.
Import Reports ReportFacts.
Import Samples.

Section Runs.
Variable R : string -> completion Regex.regex.

(** X1: a run of processScreenshots from any state and under any
    schedule resolves without throwing; it issues at most two requests, each
    to the configured provider and carrying the signal of the controller the
    run created exactly when the provider is Gemini; it creates at most one
    controller, leaves the configuration as it was, and leaves each
    controller slot as it was or empty. *)
Theorem run_contract (o : oracle) (n : nat) (w : world) :
  let r := run (processScreenshots R) o n w in
  returned r = Normal tt /\
  slots_kept w (final r) /\
  cfg (final r) = cfg w /\
  (nextController (final r) = nextController w \/
   nextController (final r) = S (nextController w)) /\
  exists new,
    issued (final r) = (new ++ issued w)%list /\
    List.length new <= 2 /\
    Forall (disciplined (cfg w) (nextController w)) new.
Proof.
  cbv zeta. unfold processScreenshots, initializeAIClient, client_missing.
  assert (Hnone : forall w0 : world,
             slots_kept w w0 -> cfg w0 = cfg w -> nextController w0 = nextController w ->
             issued w0 = issued w ->
             run_post 2 w (Outcome (Normal tt) n w0)).
  { intros w0 Hs Hc Hn Hi. split; [reflexivity |]. split; [exact Hs |].
    split; [exact Hc |]. split; [now left |].
    exists []. split; [exact Hi |]. split; [cbn; lia | constructor]. }
  assert (Hmain : forall w0 : world,
             slots_kept w w0 -> cfg w0 = cfg w -> nextController w0 = nextController w ->
             issued w0 = issued w ->
             run_post 2 w (run (processMainQueue R) o n w0)).
  { intros w0 Hs Hc Hn Hi.
    destruct (main_queue_post R o n w0) as (Hret & Hs' & Hc' & Hn' & new & Hnew & Hlen & Hall).
    split; [exact Hret |]. split; [eapply slots_kept_trans; eassumption |].
    split; [congruence |]. split; [rewrite <- Hn; exact Hn' |].
    exists new. rewrite <- Hi, <- Hc, <- Hn. now repeat split. }
  assert (Hextra : forall w0 : world,
             slots_kept w w0 -> cfg w0 = cfg w -> nextController w0 = nextController w ->
             issued w0 = issued w ->
             run_post 2 w (run processExtraQueue o n w0)).
  { intros w0 Hs Hc Hn Hi.
    destruct (extra_queue_post o n w0) as (Hret & Hs' & Hc' & Hn' & new & Hnew & Hlen & Hall).
    split; [exact Hret |]. split; [eapply slots_kept_trans; eassumption |].
    split; [congruence |]. split; [rewrite <- Hn; exact Hn' |].
    exists new. rewrite <- Hi, <- Hc, <- Hn. split; [exact Hnew |]. split; [lia | exact Hall]. }
  unfold run_post in *.
  repeat (sim; try split_any);
    first [ apply Hnone | apply Hmain | apply Hextra ];
    first [ apply slots_kept_refl | split; now left | reflexivity ].
Qed.

(** X2: a run of processScreenshots with a window never ends
    silently: the last thing it records is an event that closes the run,
    NO_SCREENSHOTS or API_KEY_INVALID on either view, a solution or an
    initial error on the queue view, a debug result or a debug error on the
    solutions view. *)
Theorem run_reports (o : oracle) (n : nat) (w : world) :
  mainWindow w = true ->
  reported (view w) (final (run (processScreenshots R) o n w)).
Proof.
  intros Hwin. unfold processScreenshots, initializeAIClient, client_missing.
  assert (Hkey : forall v w0, reported v (send API_KEY_INVALID w0)).
  { intros v w0. now eexists _, _. }
  sim. rewrite Hwin. sim.
  repeat (sim; try split_any).
  all: first [ discriminate
             | apply Hkey
             | apply main_queue_reports
             | apply extra_queue_reports ].
Qed.

(** X3: processScreenshotsHelper always resolves to a result
    object (it never throws), issues at most two requests, each to the
    configured provider and with the signal it was given exactly when the
    provider is Gemini, writes neither the configuration, the window, the
    main queue nor the view, and leaves each controller slot as it was or
    empty. *)
Theorem primary_stage_contract (screenshots : list string) (signal : nat)
    (o : oracle) (n : nat) (w : world) :
  let r := run (processScreenshotsHelper R screenshots signal) o n w in
  (exists result, returned r = Normal result) /\
  (exists new,
     issued (final r) = (new ++ issued w)%list /\
     List.length new <= 2 /\
     Forall (disciplined (cfg w) signal) new) /\
  base (final r) = base w /\
  slots_kept w (final r).
Proof.
  cbv zeta.
  destruct (contract_sound (cfg w) signal false 2 _
              (processScreenshotsHelper_bounded R (cfg w) screenshots signal) o n w eq_refl)
    as (Hbase & Hslots & Hret & Hnew).
  split; [now apply Hret |]. split; [exact Hnew |]. now split.
Qed.

(** X4: processExtraScreenshotsHelper always resolves to a result
    object, issues at most one request, to the configured provider and with
    the signal it was given exactly when the provider is Gemini, and writes
    neither the configuration, the window, the main queue nor the view. *)
Theorem debug_stage_contract (screenshots : list string) (signal : nat)
    (o : oracle) (n : nat) (w : world) :
  let r := run (processExtraScreenshotsHelper screenshots signal) o n w in
  (exists result, returned r = Normal result) /\
  (exists new,
     issued (final r) = (new ++ issued w)%list /\
     List.length new <= 1 /\
     Forall (disciplined (cfg w) signal) new) /\
  base (final r) = base w /\
  slots_kept w (final r).
Proof.
  cbv zeta.
  destruct (contract_sound (cfg w) signal false 1 _
              (processExtraScreenshotsHelper_bounded (cfg w) screenshots signal) o n w eq_refl)
    as (Hbase & Hslots & Hret & Hnew).
  split; [now apply Hret |]. split; [exact Hnew |]. now split.
Qed.

(** X5: with a window, no client for the configured provider
    and an empty API key in the configuration, processScreenshots sends
    API_KEY_INVALID and nothing else, without suspending; the three clients
    are cleared and the view stays. *)
Theorem missing_key_reported (o : oracle) (n : nat) (w : world) :
  mainWindow w = true ->
  client_missing (apiProvider (cfg w)) w = true ->
  ResponseParser.nonempty (apiKey (cfg w)) = false ->
  let r := run (processScreenshots R) o n w in
  returned r = Normal tt /\
  suspensions r = n /\
  log (final r) = Sent API_KEY_INVALID :: log w /\
  openaiClient (final r) = false /\
  geminiApiKey (final r) = None /\
  anthropicClient (final r) = false /\
  view (final r) = view w.
Proof.
  intros Hwin Hmissing Hkey. cbv zeta.
  unfold processScreenshots, initializeAIClient, client_missing in *.
  sim2. rewrite Hwin. sim2.
  destruct (apiProvider (cfg w)) eqn:Hp; try discriminate Hmissing;
    sim2; rewrite ?Hmissing; sim2; rewrite ?Hp; sim2; rewrite ?Hkey; sim2;
    cbn [negb is_some]; sim2; repeat split; reflexivity.
Qed.

(** X6: with a window and a client, a run whose queue holds
    no file that exists sends NO_SCREENSHOTS and returns without suspending:
    after INITIAL_START on the queue view, alone on the solutions view. *)
Theorem empty_queue_reported (o : oracle) (n : nat) (w : world) :
  mainWindow w = true ->
  client_missing (apiProvider (cfg w)) w = false ->
  (view w = queue ->
   filter (existsSync w) (screenshotQueue w) = [] ->
   run (processScreenshots R) o n w
     = Outcome (Normal tt) n (send NO_SCREENSHOTS (send INITIAL_START w))) /\
  (view w = solutions ->
   filter (existsSync w) (extraScreenshotQueue w) = [] ->
   run (processScreenshots R) o n w = Outcome (Normal tt) n (send NO_SCREENSHOTS w)).
Proof.
  intros Hwin Hclient.
  unfold processScreenshots. sim2. rewrite Hwin. sim2. rewrite Hclient. sim2.
  split; intros Hview Hfiles; rewrite Hview.
  - unfold processMainQueue. sim2.
    destruct (screenshotQueue w) as [|p ps]; [reflexivity |].
    sim2. change (existsSync (send INITIAL_START w)) with (existsSync w).
    rewrite Hfiles. reflexivity.
  - unfold processExtraQueue. sim2.
    destruct (extraScreenshotQueue w) as [|p ps]; [reflexivity |].
    sim2. rewrite Hfiles. reflexivity.
Qed.

(** X7: a stage one of whose requests was rejected by
    cancellation resolves to a failure whose message names Gemini and is not
    the message of a cancellation. *)
Theorem stage_cancellation (screenshots : list string) (signal : nat)
    (o : oracle) (n : nat) (w : world) :
  let primary := run (processScreenshotsHelper R screenshots signal) o n w in
  let debug := run (processExtraScreenshotsHelper screenshots signal) o n w in
  (canceled_in w < canceled_in (final primary) ->
   exists error, returned primary = Normal (Failure error) /\
                 includes "Gemini" error = true /\
                 error <> "Processing was canceled by the user.") /\
  (canceled_in w < canceled_in (final debug) ->
   exists error, returned debug = Normal (Failure error) /\
                 includes "Gemini" error = true /\
                 error <> "Processing was canceled by the user.").
Proof.
  cbv zeta. split; intros H.
  - destruct (processScreenshotsHelper_spec R screenshots signal o n w) as (_ & _ & Hc).
    destruct (Hc H) as (error & Hret & Hinc). exists error. repeat split; try assumption.
    intros ->. vm_compute in Hinc. discriminate Hinc.
  - destruct (processExtraScreenshotsHelper_spec screenshots signal o n w) as (_ & _ & Hc).
    destruct (Hc H) as (error & Hret & Hinc). exists error. repeat split; try assumption.
    intros ->. vm_compute in Hinc. discriminate Hinc.
Qed.

End Runs.

(** A run against a provider that is down ends with an error event. *)
Lemma run_reports_witness :
  reported (view (session openai coding "python"))
    (final (run (processScreenshots QuestionSet.RegExp_plain) provider_down 0
              (session openai coding "python"))).
Proof.
  apply (run_reports QuestionSet.RegExp_plain provider_down 0 (session openai coding "python")).
  reflexivity.
Defined.

(** The extraction stage of a Gemini session whose controller is aborted while
    the window is asked for the language. *)
Lemma stage_cancellation_witness :
  let w := set_processing (Some 0) (fresh_controller (session gemini coding "")) in
  let primary := run (processScreenshotsHelper QuestionSet.RegExp_plain ["base64"] 0)
                   cancel_between_stages 3 w in
  exists error, returned primary = Normal (Failure error) /\
                includes "Gemini" error = true /\
                error <> "Processing was canceled by the user.".
Proof.
  apply (proj1 (stage_cancellation QuestionSet.RegExp_plain ["base64"] 0
                  cancel_between_stages 3
                  (set_processing (Some 0) (fresh_controller (session gemini coding ""))))).
  vm_compute. lia.
Defined.

(** The session without an API key meets the hypotheses of the property above. *)
Lemma missing_key_reported_witness :
  let r := run (processScreenshots QuestionSet.RegExp_plain) provider_down 0 unconfigured in
  returned r = Normal tt /\
  suspensions r = 0 /\
  log (final r) = Sent API_KEY_INVALID :: log unconfigured /\
  openaiClient (final r) = false /\
  geminiApiKey (final r) = None /\
  anthropicClient (final r) = false /\
  view (final r) = view unconfigured.
Proof.
  apply (missing_key_reported QuestionSet.RegExp_plain provider_down 0 unconfigured);
    reflexivity.
Defined.

(** The session whose screenshot was deleted meets the hypotheses of the property
    above, on the queue view. *)
Lemma empty_queue_reported_witness :
  run (processScreenshots QuestionSet.RegExp_plain) provider_down 0 drained
    = Outcome (Normal tt) 0 (send NO_SCREENSHOTS (send INITIAL_START drained)).
Proof.
  apply (proj1 (empty_queue_reported QuestionSet.RegExp_plain provider_down 0 drained
                  eq_refl eq_refl)); reflexivity.
Defined.

(** X8: cancelOngoingRequests empties both controller slots after
    aborting the controllers they held, clears hasDebugged and the problem
    info, and sends NO_SCREENSHOTS exactly when a controller was held and
    there is a window that is not destroyed; it issues no request and keeps
    the view. *)
Theorem cancel_resets (w : world) :
  let w' := call cancelOngoingRequests w in
  let inFlight := is_some (currentProcessingAbortController w)
                  || is_some (currentExtraProcessingAbortController w) in
  currentProcessingAbortController w' = None /\
  currentExtraProcessingAbortController w' = None /\
  hasDebugged w' = false /\
  problemInfo w' = VNull /\
  (forall c, currentProcessingAbortController w = Some c \/
             currentExtraProcessingAbortController w = Some c ->
             is_aborted c w' = true) /\
  sent w' = (if inFlight && mainWindow w && negb (isDestroyed w)
             then NO_SCREENSHOTS :: sent w else sent w) /\
  issued w' = issued w /\
  view w' = view w.
Proof.
  destruct w as [v pi hd mw ds sq eq fs cf oc gk ac cp ce nc lg].
  cbv zeta. unfold is_aborted.
  cbn [currentProcessingAbortController currentExtraProcessingAbortController mainWindow
       isDestroyed].
  destruct cp as [c1|], ce as [c2|], mw, ds;
    repeat split;
    try (vm_compute; reflexivity);
    try (intros c [H | H]; try discriminate H; injection H as ->).
  all: match goal with
       | |- existsb _ (log (call cancelOngoingRequests ?W)) = true =>
           let l := eval vm_compute in (log (call cancelOngoingRequests W)) in
           assert (Hlog : log (call cancelOngoingRequests W) = l)
             by (vm_compute; reflexivity);
           rewrite Hlog; cbn [existsb]; rewrite Nat.eqb_refl, ?orb_true_r; reflexivity
       end.
Qed.

(** X9: canceling twice leaves the state that canceling once
    leaves: the second call sends nothing. *)
Theorem cancel_idempotent (w : world) :
  call cancelOngoingRequests (call cancelOngoingRequests w)
    = call cancelOngoingRequests w.
Proof.
  destruct w as [v pi hd mw ds sq eq fs cf oc gk ac cp ce nc lg].
  destruct cp, ce, mw, ds; vm_compute; reflexivity.
Qed.

(** X10: without problem info, generateSolutionsHelper resolves
    to a failure with the message of its mode and issues no request. *)
Theorem synthesis_needs_problem (o : oracle) (n : nat) (w : world) (signal : nat) :
  truthy (problemInfo w) = false ->
  let r := run (generateSolutionsHelper signal) o n w in
  returned r =
    Normal (Failure (match mode (cfg w) with
                     | coding => "No problem info available"
                     | mcq => "No MCQ problem information available"
                     end)) /\
  issued (final r) = issued w.
Proof.
  intros Hpi. cbv zeta. unfold generateSolutionsHelper. norm.
  destruct (mode (cfg w)) eqn:Hmode.
  - norm. rewrite run_try_catch, run_bind.
    destruct (run_getLanguage_world o n w) as (l & n' & w' & Hrun & Hw').
    rewrite Hrun. cbn [returned suspensions final]. rewrite Hpi. norm.
    split; [reflexivity |].
    destruct Hw' as [-> | ->]; [reflexivity | apply issued_interfere].
  - norm. rewrite Hpi. norm. split; reflexivity.
Qed.

(** A fresh session holds no problem info. *)
Lemma synthesis_needs_problem_witness :
  let r := run (generateSolutionsHelper 0) provider_down 0 (session openai coding "python") in
  returned r = Normal (Failure "No problem info available") /\
  issued (final r) = issued (session openai coding "python").
Proof.
  apply (synthesis_needs_problem provider_down 0 (session openai coding "python") 0).
  reflexivity.
Defined.

End Orchestration.

(* ===================================================================== *)
(** * Properties of the window polling *)
(* ===================================================================== *)

Section Polling.
Import JsString Js Window WindowFacts.

(** X11: waitForInitialization reads the flag at most 50
    times.  It returns at the first truthy answer; it throws the time-out
    error after exactly 50 falsy answers; a rejected read is rethrown at
    once. *)
Theorem waitForInitialization_polls (window : answers) (call : nat) :
  let r := waitForInitialization window call in
  snd r <= call + 50 /\
  match fst r with
  | Normal _ =>
      exists i v, i < 50 /\ snd r = S (call + i) /\
        window (call + i) = Normal v /\ truthy v = true /\ falsy_until window call i
  | Throw e =>
      (e = timeout /\ snd r = call + 50 /\ falsy_until window call 50) \/
      (exists i, i < 50 /\ snd r = S (call + i) /\ window (call + i) = Throw e)
  end.
Proof.
  cbv zeta. unfold waitForInitialization, falsy_until.
  split; [apply (poll_calls maxAttempts window call) |].
  destruct (poll maxAttempts window call) as [[[]|e] call'] eqn:H; cbn [fst snd].
  - exact (poll_returns _ _ _ _ H).
  - exact (poll_throws _ _ _ _ _ H).
Qed.

(** X12: getCredits answers 999 whatever the window does, after
    at most 50 reads of the flag, and without any when there is no window. *)
Theorem getCredits_unlimited (present : bool) (window : answers) (call : nat) :
  let r := getCredits present window call in
  fst r = 999 /\ call <= snd r <= call + 50 /\ (present = false -> snd r = call).
Proof.
  cbv zeta. unfold getCredits, waitForInitialization.
  destruct present; cbn [negb]; [| repeat split; cbn [snd]; lia].
  pose proof (poll_calls maxAttempts window call) as H.
  destruct (poll maxAttempts window call) as [[[]|e] call']; cbn [fst snd] in *;
    unfold maxAttempts in H; (split; [reflexivity |]); (split; [lia | discriminate]).
Qed.

(** X13: getLanguage answers the language of the configuration
    when there is one, without reading the window; otherwise python, or the
    string the window gave for its language right after a truthy
    initialisation flag.  It reads the window at most 51 times. *)
Theorem getLanguage_sources (language : string) (present : bool) (window : answers)
    (call : nat) :
  let r := getLanguage language present window call in
  snd r <= call + 51 /\
  ((language <> "" /\ r = (language, call)) \/
   (language = "" /\
    (fst r = "python" \/
     (present = true /\ call + 2 <= snd r /\
      window (snd r - 1) = Normal (VStr (fst r)) /\
      exists v, window (snd r - 2) = Normal v /\ truthy v = true)))).
Proof.
  cbv zeta. unfold getLanguage, ResponseParser.nonempty.
  destruct (String.eqb_spec language "") as [->|Hne]; cbn [negb].
  2:{ split; [cbn [snd]; lia |]. left. now split. }
  destruct present; [| split; [cbn [snd]; lia | right; split; [reflexivity | now left]]].
  unfold waitForInitialization.
  pose proof (poll_calls maxAttempts window call) as Hcalls.
  destruct (poll maxAttempts window call) as [[[]|e] call'] eqn:H; cbn [snd] in Hcalls.
  2:{ split; [cbn [snd]; unfold maxAttempts in Hcalls; lia |].
      right. split; [reflexivity | now left]. }
  destruct (poll_returns _ _ _ _ H) as (i & v & Hi & Hc & Hw & Hv & _).
  assert (Hbound : S call' <= call + 51) by (unfold maxAttempts in Hi; lia).
  destruct (window call') as [l|e] eqn:Hl.
  2:{ split; [exact Hbound |]. right. split; [reflexivity | now left]. }
  destruct l; cbn [fst snd];
    try (split; [exact Hbound |]; right; split; [reflexivity |]; now left).
  split; [exact Hbound |]. right. split; [reflexivity |]. right.
  split; [reflexivity |]. split; [lia |].
  replace (S call' - 1) with call' by lia. split; [exact Hl |].
  exists v. replace (S call' - 2) with (call + i) by lia. now split.
Qed.

(** X14: with no language in the configuration and a
    window that never reports being initialised, getLanguage answers python
    after 50 reads of the flag and never reads the language of the window. *)
Theorem getLanguage_uninitialized (window : answers) (call : nat) :
  (forall j, j < 50 -> exists u, window (call + j) = Normal u /\ truthy u = false) ->
  getLanguage "" true window call = ("python", call + 50).
Proof.
  intros H. unfold getLanguage, waitForInitialization. cbn [ResponseParser.nonempty String.eqb negb].
  now rewrite (poll_timeout maxAttempts window call H).
Qed.

(** A window whose flag stays false. *)
Lemma getLanguage_uninitialized_witness :
  getLanguage "" true (fun _ => Normal (VBool false)) 7 = ("python", 57).
Proof.
  apply (getLanguage_uninitialized (fun _ => Normal (VBool false)) 7).
  intros j _. exists (VBool false). split; reflexivity.
Defined.

End Polling.

(* ===================================================================== *)
(** * Further properties of the texts *)
(* ===================================================================== *)

Section Responses.
Import JsString Regex Js ResponseParser Mcq QuestionSet.
Import TextProperties.
Import StringFacts RegexFacts ObjectFacts KeyFacts BackfillFacts.
Import OptionProperties AnswerProperties DebugFormat ComplexityProperties.
Import OptionFacts RepairFacts LoopFacts AnswerFacts ParserFacts ComplexityFacts.
Import MarkerProperties MarkerFacts LineFacts.
Import Samples AnswerTexts.

Section Repair.
Variable RegExp_i : string -> completion regex.

(** X15: when problemInfo.questions is a non-empty array and
    validateAndFixMCQFormat returns, the result holds as many questions as
    before, under the same named properties of the array; each has a truthy
    question_number and an options object all of whose keys are in normal
    form, and the options are not empty unless the question came with
    options all named __proto__. *)
Theorem questions_repaired (problemInfo : value) (rawResponse : string)
    (q0 : value) (qs0 : list value) (props0 : list (string * value)) (v : value) :
  get problemInfo "questions" = Normal (VArr (q0 :: qs0) props0) ->
  validateAndFixMCQFormat RegExp_i problemInfo rawResponse = Normal v ->
  exists fixed,
    get v "questions" = Normal (VArr fixed props0) /\
    List.length fixed = List.length (q0 :: qs0) /\
    forall j q', nth_error fixed j = Some q' ->
      truthy (prop "question_number" q') = true /\
      exists options,
        prop "options" q' = VObj options /\
        (forall k x, In (k, x) options -> normalizedKey k = k) /\
        ((forall es0, entries (prop "options" (nth j (q0 :: qs0) VUndefined)) = Normal es0 ->
            es0 = [] \/ exists k x, In (k, x) es0 /\ k <> "__proto__") ->
         options <> []).
Proof.
  intros Hq Hrun. unfold validateAndFixMCQFormat in Hrun.
  assert (Htruthy : truthy problemInfo = true)
    by (destruct problemInfo; try discriminate Hq; reflexivity).
  rewrite Htruthy, Hq in Hrun. cbn [bind Monad_completion cbind ret] in Hrun.
  destruct (forEach (fixQuestion RegExp_i) (q0 :: qs0) 0) as [fixed|e] eqn:Hloop;
    [| discriminate Hrun].
  cbn [cbind] in Hrun.
  destruct (forEach_nth _ _ _ _ Hloop) as (Hlen & Hnth).
  exists fixed. split; [| split; [exact Hlen |]].
  - destruct problemInfo as [| | | | |l ps|ps]; try discriminate Hq;
      injection Hrun as <-; cbn [get] in Hq |- *.
    all: (rewrite lookup_overwrite_same; [reflexivity |]);
      unfold has; destruct (lookup "questions" ps); [reflexivity | discriminate Hq].
  - intros j q' Hj. destruct (Hnth j q' Hj) as (q & Hqj & Hfix).
    rewrite (nth_error_nth _ _ VUndefined Hqj).
    exact (fixQuestion_repairs RegExp_i q (0 + j) q' Hfix).
Qed.

(** X16: whatever validateAndFixMCQFormat returns holds a
    non-empty array of questions. *)
Theorem questions_never_empty (problemInfo : value) (rawResponse : string) (v : value) :
  validateAndFixMCQFormat RegExp_i problemInfo rawResponse = Normal v ->
  exists q qs props, get v "questions" = Normal (VArr (q :: qs) props).
Proof.
  unfold validateAndFixMCQFormat.
  assert (Hearly :
            cbind (extractQuestionsFromText RegExp_i rawResponse)
              (fun extracted => match extracted with
                                | [] => Normal placeholder
                                | _ :: _ => Normal (VObj [("questions", jarray extracted)])
                                end) = Normal v ->
            exists q qs props, get v "questions" = Normal (VArr (q :: qs) props)).
  { destruct (extractQuestionsFromText RegExp_i rawResponse) as [[|q qs]|e];
      cbn [cbind]; intros H; try discriminate H; injection H as <-.
    - now eexists _, _, _.
    - now exists q, qs, []. }
  destruct (if truthy problemInfo then get problemInfo "questions" else ret VUndefined)
    as [questions|e] eqn:Hq; [| discriminate].
  cbn [bind Monad_completion cbind ret].
  destruct questions as [| | | | |[|q0 qs0] props0|]; try exact Hearly.
  destruct (forEach (fixQuestion RegExp_i) (q0 :: qs0) 0) as [fixed|e] eqn:Hloop;
    [| discriminate].
  cbn [cbind]. destruct (forEach_nth _ _ _ _ Hloop) as (Hlen & _).
  destruct fixed as [|q qs]; [discriminate Hlen |].
  destruct (truthy problemInfo); [| discriminate Hq].
  destruct problemInfo as [| | | | |l ps|ps]; try discriminate Hq;
    intros H; injection H as <-; exists q, qs, props0; cbn [get] in Hq |- *.
  all: (rewrite lookup_overwrite_same; [reflexivity |]);
    unfold has; destruct (lookup "questions" ps); [reflexivity | discriminate Hq].
Qed.

End Repair.

(** The sample question set is repaired by the loop. *)
Lemma questions_repaired_witness :
  exists fixed,
    get capital_repaired "questions" = Normal (VArr fixed []) /\
    List.length fixed = List.length [capital_question] /\
    forall j q', nth_error fixed j = Some q' ->
      truthy (prop "question_number" q') = true /\
      exists options,
        prop "options" q' = VObj options /\
        (forall k x, In (k, x) options -> normalizedKey k = k) /\
        ((forall es0, entries (prop "options" (nth j [capital_question] VUndefined)) = Normal es0 ->
            es0 = [] \/ exists k x, In (k, x) es0 /\ k <> "__proto__") ->
         options <> []).
Proof.
  apply (questions_repaired RegExp_plain capital "" capital_question [] [] capital_repaired);
    vm_compute; reflexivity.
Defined.

(** Without problem info and without questions in the text, the placeholder is
    returned. *)
Lemma questions_never_empty_witness :
  exists q qs props, get placeholder "questions" = Normal (VArr (q :: qs) props).
Proof.
  apply (questions_never_empty RegExp_plain VNull "no questions here" placeholder).
  vm_compute. reflexivity.
Defined.

(** X17: normalizeOptions maps a key to the value of the last
    entry whose key has that normal form, and holds no member named
    __proto__. *)
Theorem normalized_lookup_last (entries : list (string * value)) (K : string) :
  lookup K (normalizeOptions entries) =
    if (K =? "__proto__")%string then None else last_value K entries.
Proof.
  unfold normalizeOptions. destruct (String.eqb_spec K "__proto__") as [-> | HK].
  - apply (fold_assign_proto_free (fun kv => normalizedKey (fst kv)) snd). reflexivity.
  - rewrite (fold_assign_last entries [] K HK). now destruct (last_value K entries).
Qed.

(** X18: on a text that holds no full stop, closing parenthesis or colon,
    no option pattern matches and extractOptionsFromText falls back on the
    lines: the first non-blank line, trimmed, is the question text, and the
    next non-blank lines, trimmed, are the options A to D in order; the
    non-blank lines after the fifth are dropped. *)
Theorem unmarked_lines_options (RegExp_i : string -> completion regex) (text : string) :
  unmarked text = true ->
  extractOptionsFromText RegExp_i text =
    Normal (match filter nonblank (JsString.split "010" text) with
            | [] => (text, [])
            | first :: rest =>
                (trim first, combine letters (map (fun line => VStr (trim line)) rest))
            end).
Proof.
  intros Hs. unfold extractOptionsFromText. rewrite (firstOptions_unmarked text Hs).
  destruct (filter nonblank (JsString.split "010" text)) as [|first rest]; [reflexivity |].
  now rewrite lineOptions_first_four.
Qed.

(** A text of six lines, one blank and one indented: the blank line is
    passed over and the sixth non-blank line is dropped. *)
Lemma unmarked_lines_options_witness :
  extractOptionsFromText RegExp_plain capitals =
    Normal ("Capital of France?",
            [("A", VStr "Paris"); ("B", VStr "Rome"); ("C", VStr "Oslo"); ("D", VStr "Bern")]).
Proof.
  apply (unmarked_lines_options RegExp_plain capitals). reflexivity.
Defined.

(** X19: a response without braces is answered block by block: unless
    the problem info is null or undefined there is one answer for each
    non-blank block, numbered from 1 in the order of the blocks, with the
    question text and the options of the question of the same index; with a
    null problem info and at least one block the answers are empty. *)
Theorem text_answers (content : string) (problemInfo : value) :
  exec bracePattern content = None ->
  let blocks := filter nonblank (Regex.split questionHeading content) in
  exists answers,
    parseMCQResponse (Some content) problemInfo
      = Normal (VObj [("answers", jarray answers)]) /\
    (nullish problemInfo = false ->
     List.length answers = List.length blocks /\
     forall i a, nth_error answers i = Some a ->
       prop "question_number" a = VNat (i + 1) /\
       from_question a (question_at problemInfo i)) /\
    (nullish problemInfo = true -> blocks <> [] -> answers = []).
Proof.
  intros Hexec blocks. unfold parseMCQResponse. rewrite Hexec.
  cbn [bind Monad_completion cbind ret]. fold blocks.
  destruct (nullish problemInfo) eqn:Hpi.
  - destruct blocks as [|block blocks'] eqn:Hblocks.
    + exists []. split; [reflexivity |]. split; [discriminate | reflexivity].
    + cbn [blockAnswers bind Monad_completion cbind].
      destruct (blockAnswer_nullish problemInfo 0 block Hpi) as (e & He). rewrite He.
      cbn [cbind Js.try_catch ret Monad_completion].
      exists []. split; [reflexivity |]. split; [discriminate | reflexivity].
  - destruct (blockAnswers_defined problemInfo blocks Hpi 0)
      as (answers & Hrun & Hlen & Hnth).
    rewrite Hrun. cbn [cbind Js.try_catch].
    exists answers. split; [reflexivity |]. split; [| discriminate].
    intros _. split; [exact Hlen |]. intros i a Hi. exact (Hnth i a Hi).
Qed.

(** The sample answer holds no brace. *)
Lemma text_answers_witness :
  let blocks := filter nonblank (Regex.split questionHeading spoken_answer) in
  exists answers,
    parseMCQResponse (Some spoken_answer) capital
      = Normal (VObj [("answers", jarray answers)]) /\
    (nullish capital = false ->
     List.length answers = List.length blocks /\
     forall i a, nth_error answers i = Some a ->
       prop "question_number" a = VNat (i + 1) /\
       from_question a (question_at capital i)) /\
    (nullish capital = true -> blocks <> [] -> answers = []).
Proof.
  apply (text_answers spoken_answer capital). vm_compute. reflexivity.
Defined.

(** X20: the analysis of a block has keys among A to D, each at most
    once and in that order, with texts as values; its key concepts are
    non-empty strings. *)
Theorem block_fields (block : string) :
  (exists analysis,
     extractAnalysis block = VObj analysis /\
     (exists pick, map fst analysis = filter pick letters) /\
     forall k v, In (k, v) analysis -> exists s, v = VStr s) /\
  (exists concepts,
     extractKeyConcepts block = jarray (map VStr concepts) /\
     Forall (fun c => c <> "") concepts).
Proof.
  split.
  - unfold extractAnalysis. cbn [fold_left].
    set (found := fun option : ascii =>
           match exec (analysisPattern option) block with
           | Some mr => match group 1 mr with
                        | Some text => if nonempty text then Some (trim text) else None
                        | None => None
                        end
           | None => None
           end).
    assert (Hstep : forall option analysis,
               match exec (analysisPattern option) block with
               | Some mr =>
                   match group 1 mr with
                   | Some text =>
                       if nonempty text
                       then assign (String option "") (VStr (trim text)) analysis
                       else analysis
                   | None => analysis
                   end
               | None => analysis
               end =
               match found option with
               | Some t => assign (String option "") (VStr t) analysis
               | None => analysis
               end).
    { intros option analysis. unfold found.
      destruct (exec (analysisPattern option) block) as [mr|]; [| reflexivity].
      destruct (group 1 mr) as [text|]; [| reflexivity].
      now destruct (nonempty text). }
    rewrite !Hstep. eexists. split; [reflexivity |].
    split.
    + exists (fun l => match l with
                       | String c "" => match found c with Some _ => true | None => false end
                       | _ => false
                       end).
      unfold letters. cbn [filter].
      destruct (found "A"%char), (found "B"%char), (found "C"%char), (found "D"%char);
        reflexivity.
    + intros k v.
      destruct (found "A"%char), (found "B"%char), (found "C"%char), (found "D"%char);
        cbn; intros H;
        repeat (destruct H as [H | H]; [injection H as <- <-; now eexists |]);
        destruct H.
  - unfold extractKeyConcepts.
    destruct (exec keyConceptsPattern block) as [mr|]; [| exists []; split; [reflexivity | constructor]].
    destruct (group 1 mr) as [text|]; [| exists []; split; [reflexivity | constructor]].
    destruct (nonempty text); [| exists []; split; [reflexivity | constructor]].
    eexists. split; [reflexivity | apply filter_nonempty].
Qed.

(** X21: when the OpenAI extraction chain fails, it fails with
    one of its own two messages, according to whether the text holds a pair
    of braces; the SyntaxError of JSON.parse never leaves it. *)
Theorem openai_parse_errors (responseText : string) (e : error) :
  parseProblemInfo_openai responseText = Throw e ->
  (e = new_Error "Failed to parse extracted information" /\
   exec bracePattern responseText <> None) \/
  (e = new_Error "Could not identify JSON structure in the response" /\
   exec bracePattern responseText = None).
Proof.
  unfold parseProblemInfo_openai, parseBraces_openai.
  destruct (parseFenced responseText) as [v|e0]; cbn [try_catch]; [discriminate |].
  destruct (exec bracePattern responseText) as [mr|].
  - destruct (Json.parse (matched mr)); cbn [try_catch]; [discriminate |].
    intros H. injection H as <-. left. split; [reflexivity | discriminate].
  - intros H. injection H as <-. right. now split.
Qed.

(** Braces around something that is not JSON. *)
Lemma openai_parse_errors_witness :
  (new_Error "Failed to parse extracted information" =
     new_Error "Failed to parse extracted information" /\
   exec bracePattern "{oops}" <> None) \/
  (new_Error "Failed to parse extracted information" =
     new_Error "Could not identify JSON structure in the response" /\
   exec bracePattern "{oops}" = None).
Proof.
  apply (openai_parse_errors "{oops}"). vm_compute. reflexivity.
Defined.

(** X22: the Gemini chain lets the SyntaxError of its second
    parse through: a failure is that SyntaxError, or the message of the
    missing braces. *)
Theorem gemini_parse_errors (responseText : string) (e : error) :
  parseProblemInfo_gemini responseText = Throw e ->
  (exists mr, exec bracePattern responseText = Some mr /\
              Json.parse (matched mr) = Throw e /\ name e = "SyntaxError") \/
  (e = new_Error "Could not identify JSON structure in the response" /\
   exec bracePattern responseText = None).
Proof.
  unfold parseProblemInfo_gemini, parseBraces_gemini.
  destruct (parseFenced responseText) as [v|e0]; cbn [try_catch]; [discriminate |].
  destruct (exec bracePattern responseText) as [mr|].
  - intros H. left. exists mr. split; [reflexivity |]. split; [exact H |].
    unfold Json.parse in H.
    destruct (Json.parse_value _ _) as [v r| |];
      [destruct (Json.skip_ws r); [discriminate H |] | |];
      injection H as <-; reflexivity.
  - intros H. injection H as <-. right. now split.
Qed.

(** Braces around something that is not JSON, once more. *)
Lemma gemini_parse_errors_witness :
  (exists mr, exec bracePattern "{oops}" = Some mr /\
              Json.parse (matched mr) = Throw (SyntaxError "Unexpected token in JSON") /\
              name (SyntaxError "Unexpected token in JSON") = "SyntaxError") \/
  (SyntaxError "Unexpected token in JSON" =
     new_Error "Could not identify JSON structure in the response" /\
   exec bracePattern "{oops}" = None).
Proof.
  apply (gemini_parse_errors "{oops}"). vm_compute. reflexivity.
Defined.

(** X23: the thoughts of a synthesis result are never an empty
    list and never hold an empty string. *)
Theorem thoughts_never_blank (responseContent : string) :
  let ts := sol_thoughts (formattedResponse responseContent) in
  ts <> [] /\ Forall (fun t => t <> "") ts.
Proof.
  cbv zeta. unfold formattedResponse. cbn [sol_thoughts].
  assert (H : Forall (fun t => t <> "") (thoughts responseContent)).
  { unfold thoughts.
    destruct (exec thoughtsRegex responseContent) as [mr|]; [| constructor].
    destruct (group 1 mr) as [body|]; [| constructor].
    destruct (nonempty body); [| constructor].
    destruct (matchAll bulletPattern body); apply filter_nonempty. }
  destruct (thoughts responseContent) as [|t ts]; [| split; [discriminate | exact H]].
  split; [discriminate |]. constructor; [discriminate | constructor].
Qed.

(** X24: whatever the response, the time and the space
    complexity of a synthesis result hold a dash or the word because. *)
Theorem complexity_explained (responseContent : string) :
  explained (sol_time_complexity (formattedResponse responseContent)) /\
  explained (sol_space_complexity (formattedResponse responseContent)).
Proof.
  unfold formattedResponse, time_complexity, space_complexity.
  cbn [sol_time_complexity sol_space_complexity].
  split; apply extractComplexity_explained; vm_compute; reflexivity.
Qed.

(** X25: the thoughts of a debug result number between one
    and five. *)
Theorem debug_thoughts_bounded (debugContent : string) :
  let ts := dbg_thoughts (debugResponse debugContent) in
  1 <= List.length ts <= 5.
Proof.
  cbv zeta. unfold debugResponse, debugThoughts. cbn [dbg_thoughts].
  destruct (matchAll debugBulletPattern (formattedDebugContent debugContent))
    as [|point points]; [cbn; lia |].
  rewrite length_firstn, length_map. cbn [List.length]. lia.
Qed.

End Responses.
